(** * Intersection management: the traffic-signal controller

    A shallow embedding of the two Arduino sketches of the repository,
    [main.cpp] (module [Main]) and [main_withlcd.cpp] (module [WithLcd]),
    and the properties of the phase cycle, the adaptive green time, the
    button sampling and the lamp writes.

    The sketches are sequential programs over a handful of global variables
    that talk to the hardware through [digitalWrite], [digitalRead], the LCD
    and [delay].  They are embedded in a state-and-output monad: a computation
    takes the globals, returns a value and the new globals, and emits the list
    of hardware events it performed, oldest first. *)

From Stdlib Require Import ZArith String List Bool Lia.
Import ListNotations.
Open Scope string_scope.
Open Scope list_scope.
Open Scope Z_scope.

(** ** Levels and machine integers *)

(** Arduino's HIGH and LOW, as the [bool] the sketches store them in. *)
Abbreviation HIGH := true (only parsing).
Abbreviation LOW := false (only parsing).

(** [int] is 32 bits wide on the ESP32; [x++] wraps in two's complement. *)
Definition INT_MIN : Z := -2147483648.
Definition INT_MAX : Z := 2147483647.

Definition wrap_int (z : Z) : Z :=
  (z + 2147483648) mod 4294967296 - 2147483648.

Definition int_incr (c : Z) : Z := wrap_int (c + 1).

(** ** Hardware events *)

Inductive PinModeKind := OUTPUT | INPUT_PULLUP.

Inductive Event :=
| WireBegin (sda scl : Z)
| PinMode (pin : Z) (mode : PinModeKind)
| DigitalWrite (pin : Z) (level : bool)
| DigitalRead (pin : Z) (level : bool)
| LcdInit
| LcdBacklight
| LcdClear
| LcdSetCursor (col row : Z)
| LcdPrintStr (s : string)
| LcdPrintInt (n : Z)
| Delay (ms : Z).

(** ** The state-and-output monad *)

Section Machine.
(** [G] is the record of the sketch's global variables. *)
Context {G : Type}.

(** [reads] counts the calls of [digitalRead] made so far: it is the
    position in the stream of sampled levels. *)
Record World := mkWorld { globals : G; reads : nat }.

Record Res (A : Type) := mkRes { val : A; post : World; out : list Event }.
Arguments mkRes {A}.
Arguments val {A}.
Arguments post {A}.
Arguments out {A}.

Definition M (A : Type) := World -> Res A.

Definition ret {A} (a : A) : M A := fun w => mkRes a w [].

Definition bind {A B} (m : M A) (f : A -> M B) : M B :=
  fun w =>
    match m w with
    | mkRes a w1 t1 =>
        match f a w1 with
        | mkRes b w2 t2 => mkRes b w2 (t1 ++ t2)
        end
    end.

Definition gets {A} (f : G -> A) : M A := fun w => mkRes (f (globals w)) w [].

Definition modify (f : G -> G) : M unit :=
  fun w => mkRes tt (mkWorld (f (globals w)) (reads w)) [].

Definition emit (e : Event) : M unit := fun w => mkRes tt w [e].

(** The level of every pin at every read is given by the environment:
    [hw k pin] is what the [k]-th call of [digitalRead] sees on [pin]. *)
Definition digitalRead (hw : nat -> Z -> bool) (pin : Z) : M bool :=
  fun w =>
    let l := hw (reads w) pin in
    mkRes l (mkWorld (globals w) (S (reads w))) [DigitalRead pin l].

Definition digitalWrite (pin : Z) (level : bool) : M unit :=
  emit (DigitalWrite pin level).

Definition pinMode (pin : Z) (mode : PinModeKind) : M unit :=
  emit (PinMode pin mode).

Definition delay (ms : Z) : M unit := emit (Delay ms).

Definition lcdClear : M unit := emit LcdClear.
Definition lcdSetCursor (col row : Z) : M unit := emit (LcdSetCursor col row).
Definition lcdPrint (s : string) : M unit := emit (LcdPrintStr s).
Definition lcdPrintInt (n : Z) : M unit := emit (LcdPrintInt n).

(** [for (int i = 0; i < n; i++) body] where [body] ignores [i]. *)
Fixpoint repeatM (n : nat) (body : M unit) : M unit :=
  match n with
  | O => ret tt
  | S k => bind body (fun _ => repeatM k body)
  end.

(** [for (int r = n; r > 0; r--) body(r)]. *)
Fixpoint countdown (n : nat) (body : Z -> M unit) : M unit :=
  match n with
  | O => ret tt
  | S k => bind (body (Z.of_nat (S k))) (fun _ => countdown k body)
  end.
End Machine.

Arguments World : clear implicits.
Arguments M : clear implicits.
Arguments Res : clear implicits.
Arguments mkRes {G A}.
Arguments val {G A}.
Arguments post {G A}.
Arguments out {G A}.

Arguments int_incr : simpl never.
Arguments wrap_int : simpl never.
Arguments repeatM : simpl never.
Arguments countdown : simpl never.

Notation "x <- m ;; k" := (bind m (fun x => k))
  (at level 61, m at next level, right associativity).
Notation "m ;; k" := (bind m (fun _ => k))
  (at level 61, right associativity).

(** ** The lamps, as driven by the writes *)

(** The level last written to every pin. *)
Definition Gpio := Z -> bool.

Definition write_pin (g : Gpio) (pin : Z) (level : bool) : Gpio :=
  fun q => if q =? pin then level else g q.

Definition drive (g : Gpio) (e : Event) : Gpio :=
  match e with
  | DigitalWrite pin level => write_pin g pin level
  | _ => g
  end.

(** The pins after a whole list of events. *)
Definition replay (g : Gpio) (tr : list Event) : Gpio := fold_left drive tr g.

(** The pins after every event of the list, in order: the intermediate
    points of a write sequence. *)
Fixpoint scan (g : Gpio) (tr : list Event) : list Gpio :=
  match tr with
  | [] => []
  | e :: r => drive g e :: scan (drive g e) r
  end.

(** ** Reading a trace *)

Definition count_events (p : Event -> bool) (tr : list Event) : nat :=
  List.length (filter p tr).

Definition is_print (s : string) (e : Event) : bool :=
  match e with
  | LcdPrintStr t => String.eqb s t
  | _ => false
  end.

Definition is_write (pin : Z) (level : bool) (e : Event) : bool :=
  match e with
  | DigitalWrite p l => (p =? pin) && Bool.eqb l level
  | _ => false
  end.

(** The levels sampled on [pin], in order. *)
Fixpoint levels_read (pin : Z) (tr : list Event) : list bool :=
  match tr with
  | [] => []
  | DigitalRead p l :: r =>
      if p =? pin then l :: levels_read pin r else levels_read pin r
  | _ :: r => levels_read pin r
  end.

(** The number of HIGH-to-LOW transitions in the sequence [prev :: l]. *)
Fixpoint falls (prev : bool) (l : list bool) : nat :=
  match l with
  | [] => O
  | x :: r => ((if prev && negb x then 1 else 0) + falls x r)%nat
  end.

(** ** [main.cpp] *)

Module Main.

Definition PIN_NS_RED : Z := 2.
Definition PIN_NS_YELLOW : Z := 4.
Definition PIN_NS_GREEN : Z := 5.

Definition PIN_EW_RED : Z := 18.
Definition PIN_EW_YELLOW : Z := 19.
Definition PIN_EW_GREEN : Z := 21.

Definition PIN_PED_RED : Z := 22.
Definition PIN_PED_GREEN : Z := 23.

Definition PIN_BTN_NS_TRAFFIC : Z := 12.
Definition PIN_BTN_EW_TRAFFIC : Z := 13.
Definition PIN_BTN_PED_REQUEST : Z := 14.

Definition YELLOW_TIME_SEC : Z := 3.
Definition PED_TIME_SEC : Z := 8.
Definition BASE_GREEN_SEC : Z := 10.

Inductive Phase :=
| PHASE_NS_GREEN
| PHASE_NS_YELLOW
| PHASE_EW_GREEN
| PHASE_EW_YELLOW
| PHASE_PED_GREEN.

Definition Phase_eqb (p q : Phase) : bool :=
  match p, q with
  | PHASE_NS_GREEN, PHASE_NS_GREEN
  | PHASE_NS_YELLOW, PHASE_NS_YELLOW
  | PHASE_EW_GREEN, PHASE_EW_GREEN
  | PHASE_EW_YELLOW, PHASE_EW_YELLOW
  | PHASE_PED_GREEN, PHASE_PED_GREEN => true
  | _, _ => false
  end.

(** The global variables of the sketch. *)
Record Globals := mkGlobals {
  currentPhase : Phase;
  trafficCountNS : Z;
  trafficCountEW : Z;
  pedRequest : bool;
  lastNsBtnState : bool;
  lastEwBtnState : bool;
  lastPedBtnState : bool
}.

(** Their initialisers. *)
Definition initial : Globals :=
  mkGlobals PHASE_NS_GREEN 0 0 false HIGH HIGH HIGH.

Definition set_currentPhase (p : Phase) (g : Globals) : Globals :=
  mkGlobals p (trafficCountNS g) (trafficCountEW g) (pedRequest g)
            (lastNsBtnState g) (lastEwBtnState g) (lastPedBtnState g).
Definition set_trafficCountNS (c : Z) (g : Globals) : Globals :=
  mkGlobals (currentPhase g) c (trafficCountEW g) (pedRequest g)
            (lastNsBtnState g) (lastEwBtnState g) (lastPedBtnState g).
Definition set_trafficCountEW (c : Z) (g : Globals) : Globals :=
  mkGlobals (currentPhase g) (trafficCountNS g) c (pedRequest g)
            (lastNsBtnState g) (lastEwBtnState g) (lastPedBtnState g).
Definition set_pedRequest (b : bool) (g : Globals) : Globals :=
  mkGlobals (currentPhase g) (trafficCountNS g) (trafficCountEW g) b
            (lastNsBtnState g) (lastEwBtnState g) (lastPedBtnState g).
Definition set_lastNsBtnState (b : bool) (g : Globals) : Globals :=
  mkGlobals (currentPhase g) (trafficCountNS g) (trafficCountEW g)
            (pedRequest g) b (lastEwBtnState g) (lastPedBtnState g).
Definition set_lastEwBtnState (b : bool) (g : Globals) : Globals :=
  mkGlobals (currentPhase g) (trafficCountNS g) (trafficCountEW g)
            (pedRequest g) (lastNsBtnState g) b (lastPedBtnState g).
Definition set_lastPedBtnState (b : bool) (g : Globals) : Globals :=
  mkGlobals (currentPhase g) (trafficCountNS g) (trafficCountEW g)
            (pedRequest g) (lastNsBtnState g) (lastEwBtnState g) b.

Definition Prog := M Globals.

Definition lcdShowTwoLines (line1 line2 : string) : Prog unit :=
  lcdClear ;;
  lcdSetCursor 0 0 ;;
  lcdPrint line1 ;;
  lcdSetCursor 0 1 ;;
  lcdPrint line2.

Definition setAllVehicleRed : Prog unit :=
  digitalWrite PIN_NS_RED HIGH ;;
  digitalWrite PIN_NS_YELLOW LOW ;;
  digitalWrite PIN_NS_GREEN LOW ;;
  digitalWrite PIN_EW_RED HIGH ;;
  digitalWrite PIN_EW_YELLOW LOW ;;
  digitalWrite PIN_EW_GREEN LOW.

Definition setNsGreenState : Prog unit :=
  setAllVehicleRed ;;
  digitalWrite PIN_NS_RED LOW ;;
  digitalWrite PIN_NS_GREEN HIGH.

Definition setNsYellowState : Prog unit :=
  setAllVehicleRed ;;
  digitalWrite PIN_NS_RED LOW ;;
  digitalWrite PIN_NS_YELLOW HIGH.

Definition setEwGreenState : Prog unit :=
  setAllVehicleRed ;;
  digitalWrite PIN_EW_RED LOW ;;
  digitalWrite PIN_EW_GREEN HIGH.

Definition setEwYellowState : Prog unit :=
  setAllVehicleRed ;;
  digitalWrite PIN_EW_RED LOW ;;
  digitalWrite PIN_EW_YELLOW HIGH.

Definition setPedestrianGreenState : Prog unit :=
  setAllVehicleRed ;;
  digitalWrite PIN_PED_RED LOW ;;
  digitalWrite PIN_PED_GREEN HIGH.

Definition setup : Prog unit :=
  emit (WireBegin 32 33) ;;
  emit LcdInit ;;
  emit LcdBacklight ;;
  lcdShowTwoLines "Traffic System" "Starting..." ;;
  delay 1000 ;;
  pinMode PIN_NS_RED OUTPUT ;;
  pinMode PIN_NS_YELLOW OUTPUT ;;
  pinMode PIN_NS_GREEN OUTPUT ;;
  pinMode PIN_EW_RED OUTPUT ;;
  pinMode PIN_EW_YELLOW OUTPUT ;;
  pinMode PIN_EW_GREEN OUTPUT ;;
  pinMode PIN_PED_RED OUTPUT ;;
  pinMode PIN_PED_GREEN OUTPUT ;;
  pinMode PIN_BTN_NS_TRAFFIC INPUT_PULLUP ;;
  pinMode PIN_BTN_EW_TRAFFIC INPUT_PULLUP ;;
  pinMode PIN_BTN_PED_REQUEST INPUT_PULLUP ;;
  setAllVehicleRed ;;
  digitalWrite PIN_PED_RED HIGH ;;
  digitalWrite PIN_PED_GREEN LOW ;;
  lcdShowTwoLines "Traffic System" "Ready" ;;
  delay 1000.

Definition isNsRed : Prog bool :=
  p <- gets currentPhase ;;
  ret (Phase_eqb p PHASE_EW_GREEN ||
       Phase_eqb p PHASE_EW_YELLOW ||
       Phase_eqb p PHASE_PED_GREEN).

Definition isEwRed : Prog bool :=
  p <- gets currentPhase ;;
  ret (Phase_eqb p PHASE_NS_GREEN ||
       Phase_eqb p PHASE_NS_YELLOW ||
       Phase_eqb p PHASE_PED_GREEN).

Definition computeNsGreenSeconds : Prog Z :=
  c <- gets trafficCountNS ;;
  let extra :=
    if 15 <=? c then 30
    else if 10 <=? c then 20
    else if 5 <=? c then 10
    else 0 in
  ret (BASE_GREEN_SEC + extra).

Definition computeEwGreenSeconds : Prog Z :=
  c <- gets trafficCountEW ;;
  let extra :=
    if 15 <=? c then 30
    else if 10 <=? c then 20
    else if 5 <=? c then 10
    else 0 in
  ret (BASE_GREEN_SEC + extra).

Section WithButtons.
(** The levels the three buttons show at every read. *)
Variable hw : nat -> Z -> bool.

Definition readButtons : Prog unit :=
  nsBtn <- digitalRead hw PIN_BTN_NS_TRAFFIC ;;
  lastNs <- gets lastNsBtnState ;;
  (if Bool.eqb nsBtn LOW && Bool.eqb lastNs HIGH then
     red <- isNsRed ;;
     (if red then
        modify (fun g => set_trafficCountNS (int_incr (trafficCountNS g)) g) ;;
        lcdClear ;;
        lcdSetCursor 0 0 ;;
        lcdPrint "NS RED: Count" ;;
        lcdSetCursor 0 1 ;;
        lcdPrint "NS=" ;;
        c <- gets trafficCountNS ;;
        lcdPrintInt c
      else
        lcdShowTwoLines "NS not RED" "No count") ;;
     delay 30
   else ret tt) ;;
  modify (set_lastNsBtnState nsBtn) ;;

  ewBtn <- digitalRead hw PIN_BTN_EW_TRAFFIC ;;
  lastEw <- gets lastEwBtnState ;;
  (if Bool.eqb ewBtn LOW && Bool.eqb lastEw HIGH then
     red <- isEwRed ;;
     (if red then
        modify (fun g => set_trafficCountEW (int_incr (trafficCountEW g)) g) ;;
        lcdClear ;;
        lcdSetCursor 0 0 ;;
        lcdPrint "EW RED: Count" ;;
        lcdSetCursor 0 1 ;;
        lcdPrint "EW=" ;;
        c <- gets trafficCountEW ;;
        lcdPrintInt c
      else
        lcdShowTwoLines "EW not RED" "No count") ;;
     delay 30
   else ret tt) ;;
  modify (set_lastEwBtnState ewBtn) ;;

  pedBtn <- digitalRead hw PIN_BTN_PED_REQUEST ;;
  lastPed <- gets lastPedBtnState ;;
  (if Bool.eqb pedBtn LOW && Bool.eqb lastPed HIGH then
     modify (set_pedRequest true) ;;
     lcdShowTwoLines "Pedestrian Request" "Recieved" ;;
     delay 30
   else ret tt) ;;
  modify (set_lastPedBtnState pedBtn).

Definition waitOneSecondWithButtons : Prog unit :=
  repeatM 50 (readButtons ;; delay 20).

Definition phaseNsGreen : Prog unit :=
  modify (set_currentPhase PHASE_NS_GREEN) ;;
  totalSecs <- computeNsGreenSeconds ;;
  let baseSecs := BASE_GREEN_SEC in
  let extraSecs := totalSecs - baseSecs in
  let extraSecs := if extraSecs <? 0 then 0 else extraSecs in
  setNsGreenState ;;
  countdown (Z.to_nat totalSecs) (fun remaining =>
    lcdClear ;;
    lcdSetCursor 0 0 ;;
    lcdPrint "NS Green " ;;
    lcdPrintInt baseSecs ;;
    lcdPrint "+" ;;
    lcdPrintInt extraSecs ;;
    lcdPrint "s" ;;
    lcdSetCursor 0 1 ;;
    lcdPrint "T=" ;;
    lcdPrintInt remaining ;;
    lcdPrint " EW=" ;;
    c <- gets trafficCountEW ;;
    lcdPrintInt c ;;
    waitOneSecondWithButtons) ;;
  modify (set_trafficCountNS 0).

Definition phaseNsYellow : Prog unit :=
  modify (set_currentPhase PHASE_NS_YELLOW) ;;
  countdown (Z.to_nat YELLOW_TIME_SEC) (fun remaining =>
    lcdClear ;;
    lcdSetCursor 0 0 ;;
    lcdPrint "NS Yellow T=" ;;
    lcdPrintInt remaining ;;
    lcdPrint "s" ;;
    lcdSetCursor 0 1 ;;
    lcdPrint "EW=" ;;
    c <- gets trafficCountEW ;;
    lcdPrintInt c ;;
    setNsYellowState ;;
    waitOneSecondWithButtons).

Definition phaseEwGreen : Prog unit :=
  modify (set_currentPhase PHASE_EW_GREEN) ;;
  totalSecs <- computeEwGreenSeconds ;;
  let baseSecs := BASE_GREEN_SEC in
  let extraSecs := totalSecs - baseSecs in
  let extraSecs := if extraSecs <? 0 then 0 else extraSecs in
  setEwGreenState ;;
  countdown (Z.to_nat totalSecs) (fun remaining =>
    lcdClear ;;
    lcdSetCursor 0 0 ;;
    lcdPrint "EW Green " ;;
    lcdPrintInt baseSecs ;;
    lcdPrint "+" ;;
    lcdPrintInt extraSecs ;;
    lcdPrint "s" ;;
    lcdSetCursor 0 1 ;;
    lcdPrint "T=" ;;
    lcdPrintInt remaining ;;
    lcdPrint " NS=" ;;
    c <- gets trafficCountNS ;;
    lcdPrintInt c ;;
    waitOneSecondWithButtons) ;;
  modify (set_trafficCountEW 0).

Definition phaseEwYellow : Prog unit :=
  modify (set_currentPhase PHASE_EW_YELLOW) ;;
  countdown (Z.to_nat YELLOW_TIME_SEC) (fun remaining =>
    lcdClear ;;
    lcdSetCursor 0 0 ;;
    lcdPrint "EW Yellow T=" ;;
    lcdPrintInt remaining ;;
    lcdPrint "s" ;;
    lcdSetCursor 0 1 ;;
    lcdPrint "NS=" ;;
    c <- gets trafficCountNS ;;
    lcdPrintInt c ;;
    setEwYellowState ;;
    waitOneSecondWithButtons).

Definition phasePedestrianIfRequested : Prog unit :=
  req <- gets pedRequest ;;
  if negb req then ret tt
  else
    modify (set_currentPhase PHASE_PED_GREEN) ;;
    setPedestrianGreenState ;;
    countdown (Z.to_nat PED_TIME_SEC) (fun remaining =>
      lcdClear ;;
      lcdSetCursor 0 0 ;;
      lcdPrint "PEDESTRIAN" ;;
      lcdSetCursor 0 1 ;;
      lcdPrint "T=" ;;
      lcdPrintInt remaining ;;
      lcdPrint " WALK" ;;
      waitOneSecondWithButtons) ;;
    setAllVehicleRed ;;
    digitalWrite PIN_PED_RED HIGH ;;
    digitalWrite PIN_PED_GREEN LOW ;;
    lcdShowTwoLines "PEDESTRIAN" "STOP" ;;
    delay 500 ;;
    modify (set_pedRequest false).

(** One pass of Arduino's [loop]. *)
Definition loop : Prog unit :=
  phaseNsGreen ;;
  phaseNsYellow ;;
  phasePedestrianIfRequested ;;
  phaseEwGreen ;;
  phaseEwYellow ;;
  phasePedestrianIfRequested.
End WithButtons.

End Main.

(** ** [main_withlcd.cpp] *)

Module WithLcd.

Definition PIN_NS_RED : Z := 2.
Definition PIN_NS_YELLOW : Z := 4.
Definition PIN_NS_GREEN : Z := 5.

Definition PIN_EW_RED : Z := 18.
Definition PIN_EW_YELLOW : Z := 19.
Definition PIN_EW_GREEN : Z := 21.

Definition PIN_PED_RED : Z := 22.
Definition PIN_PED_GREEN : Z := 23.

Definition PIN_BTN_NS_TRAFFIC : Z := 12.
Definition PIN_BTN_EW_TRAFFIC : Z := 13.
Definition PIN_BTN_PED_REQUEST : Z := 14.

Definition YELLOW_TIME_SEC : Z := 3.
Definition PED_TIME_SEC : Z := 8.
Definition MAX_TRAFFIC_COUNT : Z := 10.

(** The global variables of the sketch: this one keeps no phase. *)
Record Globals := mkGlobals {
  trafficCountNS : Z;
  trafficCountEW : Z;
  pedRequest : bool;
  lastNsBtnState : bool;
  lastEwBtnState : bool;
  lastPedBtnState : bool
}.

Definition initial : Globals := mkGlobals 0 0 false HIGH HIGH HIGH.

Definition set_trafficCountNS (c : Z) (g : Globals) : Globals :=
  mkGlobals c (trafficCountEW g) (pedRequest g)
            (lastNsBtnState g) (lastEwBtnState g) (lastPedBtnState g).
Definition set_trafficCountEW (c : Z) (g : Globals) : Globals :=
  mkGlobals (trafficCountNS g) c (pedRequest g)
            (lastNsBtnState g) (lastEwBtnState g) (lastPedBtnState g).
Definition set_pedRequest (b : bool) (g : Globals) : Globals :=
  mkGlobals (trafficCountNS g) (trafficCountEW g) b
            (lastNsBtnState g) (lastEwBtnState g) (lastPedBtnState g).
Definition set_lastNsBtnState (b : bool) (g : Globals) : Globals :=
  mkGlobals (trafficCountNS g) (trafficCountEW g)
            (pedRequest g) b (lastEwBtnState g) (lastPedBtnState g).
Definition set_lastEwBtnState (b : bool) (g : Globals) : Globals :=
  mkGlobals (trafficCountNS g) (trafficCountEW g)
            (pedRequest g) (lastNsBtnState g) b (lastPedBtnState g).
Definition set_lastPedBtnState (b : bool) (g : Globals) : Globals :=
  mkGlobals (trafficCountNS g) (trafficCountEW g)
            (pedRequest g) (lastNsBtnState g) (lastEwBtnState g) b.

Definition Prog := M Globals.

Definition lcdShowTwoLines (line1 line2 : string) : Prog unit :=
  lcdClear ;;
  lcdSetCursor 0 0 ;;
  lcdPrint line1 ;;
  lcdSetCursor 0 1 ;;
  lcdPrint line2.

Definition setAllVehicleRed : Prog unit :=
  digitalWrite PIN_NS_RED HIGH ;;
  digitalWrite PIN_NS_YELLOW LOW ;;
  digitalWrite PIN_NS_GREEN LOW ;;
  digitalWrite PIN_EW_RED HIGH ;;
  digitalWrite PIN_EW_YELLOW LOW ;;
  digitalWrite PIN_EW_GREEN LOW.

Definition setNsGreenState : Prog unit :=
  setAllVehicleRed ;;
  digitalWrite PIN_NS_RED LOW ;;
  digitalWrite PIN_NS_GREEN HIGH.

Definition setNsYellowState : Prog unit :=
  setAllVehicleRed ;;
  digitalWrite PIN_NS_RED LOW ;;
  digitalWrite PIN_NS_YELLOW HIGH.

Definition setEwGreenState : Prog unit :=
  setAllVehicleRed ;;
  digitalWrite PIN_EW_RED LOW ;;
  digitalWrite PIN_EW_GREEN HIGH.

Definition setEwYellowState : Prog unit :=
  setAllVehicleRed ;;
  digitalWrite PIN_EW_RED LOW ;;
  digitalWrite PIN_EW_YELLOW HIGH.

Definition setPedestrianGreenState : Prog unit :=
  setAllVehicleRed ;;
  digitalWrite PIN_PED_RED LOW ;;
  digitalWrite PIN_PED_GREEN HIGH.

Definition setup : Prog unit :=
  emit LcdInit ;;
  emit LcdBacklight ;;
  lcdShowTwoLines "Traffic System" "Starting..." ;;
  pinMode PIN_NS_RED OUTPUT ;;
  pinMode PIN_NS_YELLOW OUTPUT ;;
  pinMode PIN_NS_GREEN OUTPUT ;;
  pinMode PIN_EW_RED OUTPUT ;;
  pinMode PIN_EW_YELLOW OUTPUT ;;
  pinMode PIN_EW_GREEN OUTPUT ;;
  pinMode PIN_PED_RED OUTPUT ;;
  pinMode PIN_PED_GREEN OUTPUT ;;
  pinMode PIN_BTN_NS_TRAFFIC INPUT_PULLUP ;;
  pinMode PIN_BTN_EW_TRAFFIC INPUT_PULLUP ;;
  pinMode PIN_BTN_PED_REQUEST INPUT_PULLUP ;;
  setAllVehicleRed ;;
  digitalWrite PIN_PED_RED HIGH ;;
  digitalWrite PIN_PED_GREEN LOW ;;
  lcdShowTwoLines "Traffic System" "Ready." ;;
  delay 1500.

Definition computeNsGreenSeconds : Prog Z :=
  c <- gets trafficCountNS ;;
  if c <=? 3 then ret 10
  else if c <=? 7 then ret 20
  else ret 30.

Definition computeEwGreenSeconds : Prog Z :=
  c <- gets trafficCountEW ;;
  if c <=? 3 then ret 10
  else if c <=? 7 then ret 20
  else ret 30.

Section WithButtons.
(** The levels the three buttons show at every read. *)
Variable hw : nat -> Z -> bool.

Definition readButtons : Prog unit :=
  currentNs <- digitalRead hw PIN_BTN_NS_TRAFFIC ;;
  lastNs <- gets lastNsBtnState ;;
  (if Bool.eqb currentNs LOW && Bool.eqb lastNs HIGH then
     c <- gets trafficCountNS ;;
     (if c <? MAX_TRAFFIC_COUNT then
        modify (fun g => set_trafficCountNS (int_incr (trafficCountNS g)) g)
      else ret tt) ;;
     lcdClear ;;
     lcdSetCursor 0 0 ;;
     lcdPrint "NS traffic cnt" ;;
     lcdSetCursor 0 1 ;;
     lcdPrint "NS = " ;;
     c <- gets trafficCountNS ;;
     lcdPrintInt c ;;
     delay 400
   else ret tt) ;;
  modify (set_lastNsBtnState currentNs) ;;

  currentEw <- digitalRead hw PIN_BTN_EW_TRAFFIC ;;
  lastEw <- gets lastEwBtnState ;;
  (if Bool.eqb currentEw LOW && Bool.eqb lastEw HIGH then
     c <- gets trafficCountEW ;;
     (if c <? MAX_TRAFFIC_COUNT then
        modify (fun g => set_trafficCountEW (int_incr (trafficCountEW g)) g)
      else ret tt) ;;
     lcdClear ;;
     lcdSetCursor 0 0 ;;
     lcdPrint "EW traffic cnt" ;;
     lcdSetCursor 0 1 ;;
     lcdPrint "EW = " ;;
     c <- gets trafficCountEW ;;
     lcdPrintInt c ;;
     delay 400
   else ret tt) ;;
  modify (set_lastEwBtnState currentEw) ;;

  currentPed <- digitalRead hw PIN_BTN_PED_REQUEST ;;
  lastPed <- gets lastPedBtnState ;;
  (if Bool.eqb currentPed LOW && Bool.eqb lastPed HIGH then
     modify (set_pedRequest true) ;;
     lcdShowTwoLines "Pedestrian Req" "Stored." ;;
     delay 400
   else ret tt) ;;
  modify (set_lastPedBtnState currentPed).

Definition phaseNsGreen : Prog unit :=
  greenSeconds <- computeNsGreenSeconds ;;
  lcdClear ;;
  lcdSetCursor 0 0 ;;
  lcdPrint "NS GREEN" ;;
  lcdSetCursor 0 1 ;;
  lcdPrint "T=" ;;
  lcdPrintInt greenSeconds ;;
  lcdPrint "s  " ;;
  setNsGreenState ;;
  repeatM (Z.to_nat greenSeconds) (readButtons ;; delay 1000) ;;
  modify (set_trafficCountNS 0).

Definition phaseNsYellow : Prog unit :=
  lcdShowTwoLines "NS YELLOW" "T=3s" ;;
  setNsYellowState ;;
  repeatM (Z.to_nat YELLOW_TIME_SEC) (readButtons ;; delay 1000).

Definition phaseEwGreen : Prog unit :=
  greenSeconds <- computeEwGreenSeconds ;;
  lcdClear ;;
  lcdSetCursor 0 0 ;;
  lcdPrint "EW GREEN" ;;
  lcdSetCursor 0 1 ;;
  lcdPrint "T=" ;;
  lcdPrintInt greenSeconds ;;
  lcdPrint "s  " ;;
  setEwGreenState ;;
  repeatM (Z.to_nat greenSeconds) (readButtons ;; delay 1000) ;;
  modify (set_trafficCountEW 0).

Definition phaseEwYellow : Prog unit :=
  lcdShowTwoLines "EW YELLOW" "T=3s" ;;
  setEwYellowState ;;
  repeatM (Z.to_nat YELLOW_TIME_SEC) (readButtons ;; delay 1000).

Definition phasePedestrianIfRequested : Prog unit :=
  req <- gets pedRequest ;;
  if negb req then ret tt
  else
    lcdShowTwoLines "PEDESTRIAN" "GREEN WALK" ;;
    setPedestrianGreenState ;;
    repeatM (Z.to_nat PED_TIME_SEC) (readButtons ;; delay 1000) ;;
    setAllVehicleRed ;;
    digitalWrite PIN_PED_RED HIGH ;;
    digitalWrite PIN_PED_GREEN LOW ;;
    lcdShowTwoLines "PEDESTRIAN" "STOP" ;;
    modify (set_pedRequest false) ;;
    delay 500.

(** One pass of Arduino's [loop]. *)
Definition loop : Prog unit :=
  phaseNsGreen ;;
  phaseNsYellow ;;
  phasePedestrianIfRequested ;;
  phaseEwGreen ;;
  phaseEwYellow ;;
  phasePedestrianIfRequested.
End WithButtons.

End WithLcd.

(** ** What the lamps show *)

(** The three pins of a vehicle signal head. *)
Record Head := mkHead { red_pin : Z; yellow_pin : Z; green_pin : Z }.

Definition NS : Head :=
  mkHead Main.PIN_NS_RED Main.PIN_NS_YELLOW Main.PIN_NS_GREEN.
Definition EW : Head :=
  mkHead Main.PIN_EW_RED Main.PIN_EW_YELLOW Main.PIN_EW_GREEN.

(** The head shows red and nothing else. *)
Definition shows_red (h : Head) (g : Gpio) : bool :=
  g (red_pin h) && negb (g (yellow_pin h)) && negb (g (green_pin h)).

(** The head shows yellow and nothing else. *)
Definition shows_yellow (h : Head) (g : Gpio) : bool :=
  negb (g (red_pin h)) && g (yellow_pin h) && negb (g (green_pin h)).

(** The head shows green and nothing else. *)
Definition shows_green (h : Head) (g : Gpio) : bool :=
  negb (g (red_pin h)) && negb (g (yellow_pin h)) && g (green_pin h).

(** The green or the yellow lamp of the head is lit. *)
Definition shows_go (h : Head) (g : Gpio) : bool :=
  g (yellow_pin h) || g (green_pin h).

(** The pedestrian head shows green and not red. *)
Definition ped_walk (g : Gpio) : bool :=
  g Main.PIN_PED_GREEN && negb (g Main.PIN_PED_RED).

(** The number of lamps lit on a head. *)
Definition lamps_lit (h : Head) (g : Gpio) : nat :=
  ((if g (red_pin h) then 1 else 0) +
   (if g (yellow_pin h) then 1 else 0) +
   (if g (green_pin h) then 1 else 0))%nat.

(** At most one axis has a green or yellow lamp lit, and no head has its
    green and its yellow lit together. *)
Definition go_safe (g : Gpio) : bool :=
  negb (shows_go NS g && shows_go EW g) &&
  negb (g (yellow_pin NS) && g (green_pin NS)) &&
  negb (g (yellow_pin EW) && g (green_pin EW)).

(** No two colours are lit together anywhere: [go_safe], and every head has
    at most one lamp lit. *)
Definition conflict_free (g : Gpio) : bool :=
  go_safe g && (lamps_lit NS g <=? 1)%nat && (lamps_lit EW g <=? 1)%nat.

(** The six writes of [setAllVehicleRed]. *)
Definition baseline : list Event :=
  [ DigitalWrite Main.PIN_NS_RED HIGH;
    DigitalWrite Main.PIN_NS_YELLOW LOW;
    DigitalWrite Main.PIN_NS_GREEN LOW;
    DigitalWrite Main.PIN_EW_RED HIGH;
    DigitalWrite Main.PIN_EW_YELLOW LOW;
    DigitalWrite Main.PIN_EW_GREEN LOW ].

(** The five operations that set the lamps of a phase, in either sketch. *)
Definition main_set_ops : list (Main.Prog unit) :=
  [ Main.setNsGreenState; Main.setNsYellowState; Main.setEwGreenState;
    Main.setEwYellowState; Main.setPedestrianGreenState ].

Definition withlcd_set_ops : list (WithLcd.Prog unit) :=
  [ WithLcd.setNsGreenState; WithLcd.setNsYellowState;
    WithLcd.setEwGreenState; WithLcd.setEwYellowState;
    WithLcd.setPedestrianGreenState ].

(** The pins once [setup] has run on a board with every pin low. *)
Definition after_setup : Gpio :=
  replay (fun _ => LOW) (out (Main.setup (mkWorld Main.initial 0))).

(** ** Press events in a trace

    Every press event of [main.cpp] puts one of these captions on the
    display, and nothing else prints them. *)

Definition ns_counted (tr : list Event) : nat :=
  count_events (is_print "NS RED: Count") tr.
Definition ns_ignored (tr : list Event) : nat :=
  count_events (is_print "NS not RED") tr.
Definition ew_counted (tr : list Event) : nat :=
  count_events (is_print "EW RED: Count") tr.
Definition ew_ignored (tr : list Event) : nat :=
  count_events (is_print "EW not RED") tr.
Definition ped_presses (tr : list Event) : nat :=
  count_events (is_print "Pedestrian Request") tr.

Definition ns_presses (tr : list Event) : nat :=
  (ns_counted tr + ns_ignored tr)%nat.
Definition ew_presses (tr : list Event) : nat :=
  (ew_counted tr + ew_ignored tr)%nat.

(** The number of times the pedestrian green lamp is switched on. *)
Definition ped_runs (tr : list Event) : nat :=
  count_events (is_write Main.PIN_PED_GREEN HIGH) tr.

(** The lamp each of the five operations switches off and the one it
    switches on after the baseline, in the order of [main_set_ops]. *)
Definition phase_lamps : list (Z * Z) :=
  [ (Main.PIN_NS_RED, Main.PIN_NS_GREEN);
    (Main.PIN_NS_RED, Main.PIN_NS_YELLOW);
    (Main.PIN_EW_RED, Main.PIN_EW_GREEN);
    (Main.PIN_EW_RED, Main.PIN_EW_YELLOW);
    (Main.PIN_PED_RED, Main.PIN_PED_GREEN) ].

Definition two_step (lamp : Z * Z) : list Event :=
  baseline ++ [DigitalWrite (fst lamp) LOW; DigitalWrite (snd lamp) HIGH].

(** The world in which [main.cpp] starts. *)
Definition boot : World Main.Globals := mkWorld Main.initial 0.

(** ** Summaries of a run *)

(** [m] relates the world it starts in, the world it ends in and the events
    it emits by [P], from every world. *)
Definition Steps {G A : Type}
           (P : World G -> World G -> list Event -> Prop) (m : M G A) : Prop :=
  forall w, P w (post (m w)) (out (m w)).

(** The value fits an [int]. *)
Definition in_int (c : Z) : Prop := INT_MIN <= c <= INT_MAX.

(** Events that neither sample a button, nor show a press caption of
    [main.cpp], nor switch the pedestrian green lamp on. *)
Definition quiet (e : Event) : bool :=
  negb (is_print "NS RED: Count" e || is_print "NS not RED" e ||
        is_print "EW RED: Count" e || is_print "EW not RED" e ||
        is_print "Pedestrian Request" e ||
        is_write Main.PIN_PED_GREEN HIGH e) &&
  match e with
  | DigitalRead _ _ => false
  | _ => true
  end.

(** What polling the traffic buttons within one phase amounts to: the phase
    stays, the stored levels follow the samples, every HIGH-to-LOW transition
    of the samples is one press event, the press events of an axis that
    is red are the counted ones, and each counted press is one [++]. *)
Record Polled (w w' : World Main.Globals) (tr : list Event) : Prop := mkPolled {
  polled_phase :
    Main.currentPhase (globals w') = Main.currentPhase (globals w);
  polled_lastNs :
    Main.lastNsBtnState (globals w') =
    last (levels_read Main.PIN_BTN_NS_TRAFFIC tr)
         (Main.lastNsBtnState (globals w));
  polled_lastEw :
    Main.lastEwBtnState (globals w') =
    last (levels_read Main.PIN_BTN_EW_TRAFFIC tr)
         (Main.lastEwBtnState (globals w));
  polled_ns_presses :
    ns_presses tr =
    falls (Main.lastNsBtnState (globals w))
          (levels_read Main.PIN_BTN_NS_TRAFFIC tr);
  polled_ew_presses :
    ew_presses tr =
    falls (Main.lastEwBtnState (globals w))
          (levels_read Main.PIN_BTN_EW_TRAFFIC tr);
  polled_ns_counted :
    ns_counted tr = if val (Main.isNsRed w) then ns_presses tr else O;
  polled_ew_counted :
    ew_counted tr = if val (Main.isEwRed w) then ew_presses tr else O;
  polled_countNS :
    Main.trafficCountNS (globals w') =
    Nat.iter (ns_counted tr) int_incr (Main.trafficCountNS (globals w));
  polled_countEW :
    Main.trafficCountEW (globals w') =
    Nat.iter (ew_counted tr) int_incr (Main.trafficCountEW (globals w))
}.

(** What a run that is not a pedestrian phase does to the request latch:
    it is set by a press event and by nothing else, and never cleared. *)
Record PedTrack (w w' : World Main.Globals) (tr : list Event) : Prop :=
  mkPedTrack {
  ped_latch :
    Main.pedRequest (globals w') =
    Main.pedRequest (globals w) || (0 <? ped_presses tr)%nat;
  ped_last :
    Main.lastPedBtnState (globals w') =
    last (levels_read Main.PIN_BTN_PED_REQUEST tr)
         (Main.lastPedBtnState (globals w));
  ped_edges :
    ped_presses tr =
    falls (Main.lastPedBtnState (globals w))
          (levels_read Main.PIN_BTN_PED_REQUEST tr);
  ped_no_run : ped_runs tr = O
}.

(** A stretch of a phase in which the buttons are polled and nothing else
    happens to the globals. *)
Definition Dwelling (m : Main.Prog unit) : Prop :=
  Steps Polled m /\ Steps PedTrack m.

(** The world with another phase, another NS count, another EW count, and
    another request latch. *)
Definition with_phase (p : Main.Phase) (w : World Main.Globals) :=
  mkWorld (Main.set_currentPhase p (globals w)) (reads w).
Definition with_countNS (c : Z) (w : World Main.Globals) :=
  mkWorld (Main.set_trafficCountNS c (globals w)) (reads w).
Definition with_countEW (c : Z) (w : World Main.Globals) :=
  mkWorld (Main.set_trafficCountEW c (globals w)) (reads w).
Definition with_pedRequest (b : bool) (w : World Main.Globals) :=
  mkWorld (Main.set_pedRequest b (globals w)) (reads w).



(** The press events of [main_withlcd.cpp], by their captions. *)
Definition lcd_ns_presses (tr : list Event) : nat :=
  count_events (is_print "NS traffic cnt") tr.
Definition lcd_ew_presses (tr : list Event) : nat :=
  count_events (is_print "EW traffic cnt") tr.
Definition lcd_ped_presses (tr : list Event) : nat :=
  count_events (is_print "Pedestrian Req") tr.

(** What polling the buttons amounts to in [main_withlcd.cpp]: the stored
    levels follow the samples and every HIGH-to-LOW transition of the
    samples is one press event. *)
Record LcdPolled (w w' : World WithLcd.Globals) (tr : list Event) : Prop :=
  mkLcdPolled {
  lcd_lastNs :
    WithLcd.lastNsBtnState (globals w') =
    last (levels_read WithLcd.PIN_BTN_NS_TRAFFIC tr)
         (WithLcd.lastNsBtnState (globals w));
  lcd_lastEw :
    WithLcd.lastEwBtnState (globals w') =
    last (levels_read WithLcd.PIN_BTN_EW_TRAFFIC tr)
         (WithLcd.lastEwBtnState (globals w));
  lcd_lastPed :
    WithLcd.lastPedBtnState (globals w') =
    last (levels_read WithLcd.PIN_BTN_PED_REQUEST tr)
         (WithLcd.lastPedBtnState (globals w));
  lcd_ns_edges :
    lcd_ns_presses tr =
    falls (WithLcd.lastNsBtnState (globals w))
          (levels_read WithLcd.PIN_BTN_NS_TRAFFIC tr);
  lcd_ew_edges :
    lcd_ew_presses tr =
    falls (WithLcd.lastEwBtnState (globals w))
          (levels_read WithLcd.PIN_BTN_EW_TRAFFIC tr);
  lcd_ped_edges :
    lcd_ped_presses tr =
    falls (WithLcd.lastPedBtnState (globals w))
          (levels_read WithLcd.PIN_BTN_PED_REQUEST tr)
}.

(** ** The lamps along a trace *)

(** The pedestrian green lamp is lit only while no vehicle lamp is green or
    yellow. *)
Definition ped_safe (g : Gpio) : bool :=
  implb (g Main.PIN_PED_GREEN)
        (negb (shows_go NS g) && negb (shows_go EW g)).

(** What must hold after every single write. *)
Definition safe_lamps (g : Gpio) : bool := go_safe g && ped_safe g.

(** What holds between two phases: the go lamps are safe and the pedestrian
    green lamp is off. *)
Definition safe_rest (g : Gpio) : bool :=
  go_safe g && negb (g Main.PIN_PED_GREEN).

(** Neither axis has a green or yellow lamp lit. *)
Definition no_go (g : Gpio) : bool :=
  negb (shows_go NS g) && negb (shows_go EW g).

(** Both vehicle heads show red and the pedestrian head shows red too. *)
Definition all_stop (g : Gpio) : bool :=
  shows_red NS g && shows_red EW g &&
  g Main.PIN_PED_RED && negb (g Main.PIN_PED_GREEN).

(** From pins satisfying [I], the pins satisfy [J] after every event of the
    trace and [K] at its end. *)
Definition Moves (I J K : Gpio -> bool) (tr : list Event) : Prop :=
  forall g0, I g0 = true ->
             forallb J (scan g0 tr) = true /\ K (replay g0 tr) = true.

Definition Keeps (I J : Gpio -> bool) (tr : list Event) : Prop :=
  Moves I J I tr.

Definition not_write (e : Event) : bool :=
  match e with
  | DigitalWrite _ _ => false
  | _ => true
  end.

(** The lamps of the four vehicle phases. *)
Definition vehicle_lamps : list (Z * Z) :=
  [ (Main.PIN_NS_RED, Main.PIN_NS_GREEN);
    (Main.PIN_NS_RED, Main.PIN_NS_YELLOW);
    (Main.PIN_EW_RED, Main.PIN_EW_GREEN);
    (Main.PIN_EW_RED, Main.PIN_EW_YELLOW) ].

(** The writes that end a pedestrian phase. *)
Definition ped_stop : list Event :=
  baseline ++ [ DigitalWrite Main.PIN_PED_RED HIGH;
                DigitalWrite Main.PIN_PED_GREEN LOW ].

(** [Keeps I J] as a summary of a run. *)
Definition LampP (I J : Gpio -> bool) {G : Type}
  : World G -> World G -> list Event -> Prop :=
  fun _ _ tr => Keeps I J tr.

(** A trace in which the lamps stay as they are: it keeps whatever holds. *)
Definition Still (tr : list Event) : Prop :=
  forall I J : Gpio -> bool,
    (forall g, I g = true -> J g = true) -> Keeps I J tr.

(** ** Time and polls along a trace *)

(** The milliseconds spent in [delay]. *)
Fixpoint elapsed (tr : list Event) : Z :=
  match tr with
  | [] => 0
  | Delay ms :: r => ms + elapsed r
  | _ :: r => elapsed r
  end.

(** The calls of [readButtons]: each samples the NS button once. *)
Definition polls (tr : list Event) : Z :=
  Z.of_nat (List.length (levels_read Main.PIN_BTN_NS_TRAFFIC tr)).

(** The press events of the three buttons, in either sketch. *)
Definition press_events (tr : list Event) : Z :=
  Z.of_nat (ns_presses tr + ew_presses tr + ped_presses tr).
Definition lcd_press_events (tr : list Event) : Z :=
  Z.of_nat (lcd_ns_presses tr + lcd_ew_presses tr + lcd_ped_presses tr).

(** The time left when the pause that follows every press event is taken
    off: 30 ms in [main.cpp], 400 ms in [main_withlcd.cpp]. *)
Definition net30 (tr : list Event) : Z := elapsed tr - 30 * press_events tr.
Definition net400 (tr : list Event) : Z :=
  elapsed tr - 400 * lcd_press_events tr.

(** Whatever the world, the trace of [m] measures [k]. *)
Definition Costs {G A : Type} (mu : list Event -> Z) (k : Z) (m : M G A)
  : Prop :=
  forall w, mu (out (m w)) = k.

(** ** Counts and latch in [main_withlcd.cpp] *)

(** A count [c] after [n] press events: one more for each up to the
    maximum, where it stays; a count beyond the maximum stays as it is. *)
Definition capped (c : Z) (n : nat) : Z :=
  Z.max c (Z.min WithLcd.MAX_TRAFFIC_COUNT (c + Z.of_nat n)).

(** The counts that the sketch can reach. *)
Definition within_cap (c : Z) : Prop := 0 <= c <= WithLcd.MAX_TRAFFIC_COUNT.

(** What a run that resets nothing does to a count: it takes the press
    events whose caption is [p], as far as the maximum allows. *)
Definition LcdCount (count : WithLcd.Globals -> Z) (p : Event -> bool)
           (w w' : World WithLcd.Globals) (tr : list Event) : Prop :=
  in_int (count (globals w)) ->
  count (globals w') = capped (count (globals w)) (count_events p tr).

Definition CountsNS := LcdCount WithLcd.trafficCountNS
                                (is_print "NS traffic cnt").
Definition CountsEW := LcdCount WithLcd.trafficCountEW
                                (is_print "EW traffic cnt").

(** What a run that is not a pedestrian phase does to the latch. *)
Record LcdLatch (w w' : World WithLcd.Globals) (tr : list Event) : Prop :=
  mkLcdLatch {
  lcd_latch :
    WithLcd.pedRequest (globals w') =
    WithLcd.pedRequest (globals w) || (0 <? lcd_ped_presses tr)%nat;
  lcd_no_run : ped_runs tr = O
}.

(** Events that are neither the caption of a pedestrian press nor the
    switching on of the pedestrian green lamp. *)
Definition latch_quiet (e : Event) : bool :=
  negb (is_print "Pedestrian Req" e || is_write Main.PIN_PED_GREEN HIGH e).

(** Wherever [m] starts, it ends in a world that satisfies [Q]. *)
Definition Ends {G A : Type} (Q : World G -> Prop) (m : M G A) : Prop :=
  forall w, Q (post (m w)).

(** The pedestrian phases started along a trace, as an integer. *)
Definition ped_starts (tr : list Event) : Z := Z.of_nat (ped_runs tr).

(** ** The pins and their modes *)

Definition lamp_pins : list Z :=
  [ Main.PIN_NS_RED; Main.PIN_NS_YELLOW; Main.PIN_NS_GREEN;
    Main.PIN_EW_RED; Main.PIN_EW_YELLOW; Main.PIN_EW_GREEN;
    Main.PIN_PED_RED; Main.PIN_PED_GREEN ].

Definition button_pins : list Z :=
  [ Main.PIN_BTN_NS_TRAFFIC; Main.PIN_BTN_EW_TRAFFIC;
    Main.PIN_BTN_PED_REQUEST ].

(** The mode each pin was last given, if any. *)
Definition Modes := Z -> option PinModeKind.

Definition unset : Modes := fun _ => None.

Definition set_mode (e : Event) (m : Modes) : Modes :=
  match e with
  | PinMode p k => fun q => if q =? p then Some k else m q
  | _ => m
  end.

Definition modes_after (m : Modes) (tr : list Event) : Modes :=
  fold_left (fun m e => set_mode e m) tr m.

Definition is_output (o : option PinModeKind) : bool :=
  match o with
  | Some OUTPUT => true
  | _ => false
  end.

Definition is_input (o : option PinModeKind) : bool :=
  match o with
  | Some INPUT_PULLUP => true
  | _ => false
  end.

(** A write goes to a pin that is an output, a read to a pin that is an
    input with pull-up. *)
Definition pin_use_ok (m : Modes) (e : Event) : bool :=
  match e with
  | DigitalWrite p _ => is_output (m p)
  | DigitalRead p _ => is_input (m p)
  | _ => true
  end.

Fixpoint well_configured (m : Modes) (tr : list Event) : bool :=
  match tr with
  | [] => true
  | e :: r => pin_use_ok m e && well_configured (set_mode e m) r
  end.

(** The lamps are outputs and the buttons inputs with pull-up. *)
Definition configured (m : Modes) : Prop :=
  forallb (fun p => is_output (m p)) lamp_pins = true /\
  forallb (fun p => is_input (m p)) button_pins = true.

(** What [loop] is made of: writes to the lamps, reads of the buttons, the
    display and pauses; nothing that [setup] does to initialise. *)
Definition plain (e : Event) : bool :=
  match e with
  | PinMode _ _ | WireBegin _ _ | LcdInit | LcdBacklight => false
  | DigitalWrite p _ => existsb (Z.eqb p) lamp_pins
  | DigitalRead p _ => existsb (Z.eqb p) button_pins
  | _ => true
  end.

(** Every event of the run satisfies [ok]. *)
Definition Only (ok : Event -> bool) {G : Type}
  : World G -> World G -> list Event -> Prop :=
  fun _ _ tr => forallb ok tr = true.

(** ** What the display counts down *)

(** The integers printed right after the caption [cap]; [armed] tells
    whether the event just before the trace was that caption. *)
Fixpoint ints_after (cap : string) (armed : bool) (tr : list Event)
  : list Z :=
  match tr with
  | [] => []
  | e :: r =>
      match e with
      | LcdPrintInt n => if armed then [n] else []
      | _ => []
      end ++ ints_after cap (is_print cap e) r
  end.

Definition shown_after (cap : string) (tr : list Event) : list Z :=
  ints_after cap false tr.

(** Whether the trace, or else what came before it, ends in the caption. *)
Definition armed_end (cap : string) (armed : bool) (tr : list Event) : bool :=
  fold_left (fun _ e => is_print cap e) tr armed.

Definition silent (cap : string) (e : Event) : bool := negb (is_print cap e).

(** Wherever [m] starts, the integers it prints after [cap] are [l], and
    it does not end on the caption. *)
Definition Shows (cap : string) (l : list Z) {G A : Type} (m : M G A)
  : Prop :=
  forall w, ints_after cap false (out (m w)) = l /\
            armed_end cap false (out (m w)) = false.

(** [n], [n - 1], ..., 1. *)
Fixpoint count_down (n : nat) : list Z :=
  match n with
  | O => []
  | S k => Z.of_nat (S k) :: count_down k
  end.

(** * Properties *)

(** ** The lamps after each output-setting operation *)

Section Lamps.
Variable g0 : Gpio.
Variable w : World Main.Globals.

Let after (op : Main.Prog unit) : Gpio := replay g0 (out (op w)).

Lemma setAllVehicleRed_lamps :
  shows_red NS (after Main.setAllVehicleRed) = true /\
  shows_red EW (after Main.setAllVehicleRed) = true.
Proof. split; reflexivity. Qed.

Lemma setNsGreenState_lamps :
  shows_green NS (after Main.setNsGreenState) = true /\
  shows_red EW (after Main.setNsGreenState) = true.
Proof. split; reflexivity. Qed.

Lemma setNsYellowState_lamps :
  shows_yellow NS (after Main.setNsYellowState) = true /\
  shows_red EW (after Main.setNsYellowState) = true.
Proof. split; reflexivity. Qed.

Lemma setEwGreenState_lamps :
  shows_green EW (after Main.setEwGreenState) = true /\
  shows_red NS (after Main.setEwGreenState) = true.
Proof. split; reflexivity. Qed.

Lemma setEwYellowState_lamps :
  shows_yellow EW (after Main.setEwYellowState) = true /\
  shows_red NS (after Main.setEwYellowState) = true.
Proof. split; reflexivity. Qed.

Lemma setPedestrianGreenState_lamps :
  shows_red NS (after Main.setPedestrianGreenState) = true /\
  shows_red EW (after Main.setPedestrianGreenState) = true /\
  ped_walk (after Main.setPedestrianGreenState) = true.
Proof. repeat split; reflexivity. Qed.
End Lamps.

(** C1. After each of the output-setting operations, whatever the pins
    showed before, at most one vehicle axis has green or yellow lit and the
    other axis then shows red only; [setNsGreenState] leaves NS green and EW
    red, [setNsYellowState] NS yellow and EW red, [setEwGreenState] and
    [setEwYellowState] the same with the axes exchanged,
    [setAllVehicleRed] both axes red, and [setPedestrianGreenState], the
    projection of the pedestrian phase, both axes red and the pedestrian
    head green. *)
Theorem signal_projection_exclusive :
  forall (g0 : Gpio) (w : World Main.Globals),
    let after (op : Main.Prog unit) := replay g0 (out (op w)) in
    Forall (fun op =>
              implb (shows_go NS (after op)) (shows_red EW (after op)) = true /\
              implb (shows_go EW (after op)) (shows_red NS (after op)) = true /\
              shows_go NS (after op) && shows_go EW (after op) = false)
           (Main.setAllVehicleRed :: main_set_ops) /\
    (shows_green NS (after Main.setNsGreenState) = true /\
     shows_red EW (after Main.setNsGreenState) = true) /\
    (shows_yellow NS (after Main.setNsYellowState) = true /\
     shows_red EW (after Main.setNsYellowState) = true) /\
    (shows_green EW (after Main.setEwGreenState) = true /\
     shows_red NS (after Main.setEwGreenState) = true) /\
    (shows_yellow EW (after Main.setEwYellowState) = true /\
     shows_red NS (after Main.setEwYellowState) = true) /\
    (shows_red NS (after Main.setAllVehicleRed) = true /\
     shows_red EW (after Main.setAllVehicleRed) = true) /\
    (shows_red NS (after Main.setPedestrianGreenState) = true /\
     shows_red EW (after Main.setPedestrianGreenState) = true /\
     ped_walk (after Main.setPedestrianGreenState) = true /\
     shows_go NS (after Main.setPedestrianGreenState) = false /\
     shows_go EW (after Main.setPedestrianGreenState) = false).
Proof.
  intros g0 w after. split.
  - unfold main_set_ops. repeat constructor.
  - split; [apply setNsGreenState_lamps|].
    split; [apply setNsYellowState_lamps|].
    split; [apply setEwGreenState_lamps|].
    split; [apply setEwYellowState_lamps|].
    split; [apply setAllVehicleRed_lamps|].
    destruct (setPedestrianGreenState_lamps g0 w) as (H1 & H2 & H3).
    repeat split; first [assumption | reflexivity].
Qed.

(** ** The order of the writes *)

(** A property of the right list of a [Forall2] carries over to the left. *)
Lemma Forall2_Forall_l {A B} (R : A -> B -> Prop) (P : A -> Prop)
      (Q : B -> Prop) (l : list A) (l' : list B) :
  Forall2 R l l' ->
  (forall a b, R a b -> Q b -> P a) ->
  Forall Q l' -> Forall P l.
Proof.
  intros HR Himp. induction HR as [|a b l l' Hab _ IH]; intros HQ.
  - constructor.
  - inversion HQ; subst. constructor; eauto.
Qed.

Lemma main_two_step (w : World Main.Globals) :
  out (Main.setAllVehicleRed w) = baseline /\
  Forall2 (fun op lamp => out (op w) = two_step lamp) main_set_ops phase_lamps.
Proof. split; [reflexivity|]. repeat constructor. Qed.

Lemma withlcd_two_step (w : World WithLcd.Globals) :
  out (WithLcd.setAllVehicleRed w) = baseline /\
  Forall2 (fun op lamp => out (op w) = two_step lamp)
          withlcd_set_ops phase_lamps.
Proof. split; [reflexivity|]. repeat constructor. Qed.

(** From any pins, the six baseline writes end with both axes red. *)
Lemma baseline_all_red (g0 : Gpio) :
  shows_red NS (replay g0 baseline) = true /\
  shows_red EW (replay g0 baseline) = true.
Proof. split; reflexivity. Qed.

(** While the six baseline writes and the two writes of a phase are made,
    the go lamps never get worse than they were. *)
Lemma two_step_go_safe (g0 : Gpio) :
  go_safe g0 = true ->
  Forall (fun lamp => forallb go_safe (scan g0 (two_step lamp)) = true)
         phase_lamps.
Proof.
  intros Hsafe.
  unfold go_safe, shows_go in Hsafe; cbn in Hsafe.
  repeat constructor;
    cbn; unfold go_safe, shows_go, write_pin; cbn;
    destruct (g0 Main.PIN_NS_YELLOW), (g0 Main.PIN_NS_GREEN),
      (g0 Main.PIN_EW_YELLOW), (g0 Main.PIN_EW_GREEN);
    try discriminate; reflexivity.
Qed.

(** C2, as the code has it.  Every [set...State] operation of both sketches
    writes the six pins of the all-red baseline first and only then switches
    one red lamp off and the lamp of the new phase on; after the baseline
    both axes show red; and if the go lamps were safe before (green or
    yellow on one axis at most, never green with yellow on a head), they are
    safe after every single write of the sequence.  Nothing is said of the
    red lamps, which the baseline lights while the green or yellow of the
    old phase is still on. *)
Theorem set_state_two_step_writes :
  forall (g0 : Gpio) (w : World Main.Globals) (w' : World WithLcd.Globals),
    go_safe g0 = true ->
    out (Main.setAllVehicleRed w) = baseline /\
    out (WithLcd.setAllVehicleRed w') = baseline /\
    Forall2 (fun op lamp => out (op w) = two_step lamp)
            main_set_ops phase_lamps /\
    Forall2 (fun op lamp => out (op w') = two_step lamp)
            withlcd_set_ops phase_lamps /\
    shows_red NS (replay g0 baseline) = true /\
    shows_red EW (replay g0 baseline) = true /\
    Forall (fun op => forallb go_safe (scan g0 (out (op w))) = true)
           main_set_ops /\
    Forall (fun op => forallb go_safe (scan g0 (out (op w'))) = true)
           withlcd_set_ops.
Proof.
  intros g0 w w' Hsafe.
  destruct (main_two_step w) as [Hb Hm].
  destruct (withlcd_two_step w') as [Hb' Hm'].
  pose proof (two_step_go_safe g0 Hsafe) as Hgo.
  repeat (split; [first [assumption | apply baseline_all_red]|]).
  split.
  - eapply Forall2_Forall_l; [exact Hm| |exact Hgo].
    cbv beta; intros op lamp Hop Hl; now rewrite Hop.
  - eapply Forall2_Forall_l; [exact Hm'| |exact Hgo].
    cbv beta; intros op lamp Hop Hl; now rewrite Hop.
Qed.

Lemma set_state_two_step_writes_witness :
  go_safe after_setup = true /\
  forallb go_safe
    (scan after_setup (out (Main.setNsGreenState boot))) = true.
Proof.
  split; [reflexivity|].
  pose proof (set_state_two_step_writes after_setup boot
                (mkWorld WithLcd.initial 0) eq_refl) as H.
  destruct H as (_ & _ & _ & _ & _ & _ & H & _).
  inversion H; assumption.
Defined.

(** C2, as stated, fails.  After [setNsGreenState] the lamps are free of
    conflict; the first write of the following [setNsYellowState] lights
    the NS red lamp while the NS green lamp is still lit. *)
Lemma baseline_red_overlaps_old_green :
  let g0 := replay after_setup (out (Main.setNsGreenState boot)) in
  let mid := scan g0 (out (Main.setNsYellowState boot)) in
  conflict_free g0 = true /\
  (exists g, nth_error mid 0 = Some g /\
             g Main.PIN_NS_RED = HIGH /\ g Main.PIN_NS_GREEN = HIGH /\
             conflict_free g = false) /\
  forallb conflict_free mid = false.
Proof.
  cbv zeta. split; [reflexivity|]. split; [|reflexivity].
  eexists. split; [reflexivity|]. repeat split; reflexivity.
Qed.

(** ** Lists of samples and of events *)

Lemma count_events_app (p : Event -> bool) (a b : list Event) :
  count_events p (a ++ b) = (count_events p a + count_events p b)%nat.
Proof. unfold count_events. now rewrite filter_app, length_app. Qed.

Lemma levels_read_app (pin : Z) (a b : list Event) :
  levels_read pin (a ++ b) = levels_read pin a ++ levels_read pin b.
Proof.
  induction a as [|e a IH]; [reflexivity|].
  destruct e; cbn; try exact IH.
  destruct (pin0 =? pin); cbn; now rewrite IH.
Qed.

Lemma last_cons_default {A} (x : A) (l : list A) (d : A) :
  last (x :: l) d = last l x.
Proof.
  revert x d. induction l as [|y l IH]; intros x d; [reflexivity|].
  change (last (x :: y :: l) d) with (last (y :: l) d).
  rewrite IH. symmetry. apply IH.
Qed.

Lemma last_app_default {A} (l1 l2 : list A) (d : A) :
  last (l1 ++ l2) d = last l2 (last l1 d).
Proof.
  revert d. induction l1 as [|x l1 IH]; intros d; [reflexivity|].
  rewrite <- app_comm_cons, !last_cons_default. apply IH.
Qed.

Lemma falls_app (prev : bool) (l1 l2 : list bool) :
  falls prev (l1 ++ l2) = (falls prev l1 + falls (last l1 prev) l2)%nat.
Proof.
  revert prev. induction l1 as [|x l1 IH]; intros prev; [reflexivity|].
  cbn [app falls]. rewrite IH, last_cons_default. lia.
Qed.

Lemma last_repeat {A} (x d : A) (k : nat) : last (repeat x (S k)) d = x.
Proof.
  revert d. induction k; intros d; [reflexivity|].
  change (repeat x (S (S k))) with (x :: repeat x (S k)).
  rewrite last_cons_default. apply IHk.
Qed.

(** While a button is held, or released after being held, nothing falls. *)
Lemma falls_held (k : nat) : falls LOW (repeat LOW k) = O.
Proof. induction k; [reflexivity|]. cbn. exact IHk. Qed.

Lemma falls_released (k : nat) : falls LOW (repeat HIGH k) = O /\
                                 falls HIGH (repeat HIGH k) = O.
Proof.
  assert (H : falls HIGH (repeat HIGH k) = O)
    by (induction k; [reflexivity|]; cbn; exact IHk).
  split; [|exact H]. destruct k; [reflexivity|exact H].
Qed.

(** One press-release cycle is one transition. *)
Lemma falls_press_release (a b c : nat) :
  falls HIGH (repeat HIGH a ++ repeat LOW (S b) ++ repeat HIGH c) = 1%nat.
Proof.
  rewrite falls_app, (proj2 (falls_released a)).
  replace (last (repeat HIGH a) HIGH) with HIGH
    by (destruct a; [reflexivity|now rewrite last_repeat]).
  rewrite falls_app, last_repeat, (proj1 (falls_released c)).
  cbn [repeat falls andb negb]. now rewrite falls_held.
Qed.

(** ** Rules for summaries

    A summary that holds of doing nothing and composes along sequencing holds
    of every program built from pieces of which it holds. *)

Section StepsRules.
Context {G : Type} (P : World G -> World G -> list Event -> Prop).
Hypothesis P_refl : forall w, P w w [].
Hypothesis P_trans :
  forall w w1 w2 t1 t2, P w w1 t1 -> P w1 w2 t2 -> P w w2 (t1 ++ t2).

Lemma steps_ret {A} (a : A) : Steps P (ret a).
Proof. intros w. apply P_refl. Qed.

Lemma steps_gets {A} (f : G -> A) : Steps P (gets f).
Proof. intros w. apply P_refl. Qed.

Lemma steps_bind {A B} (m : M G A) (f : A -> M G B) :
  Steps P m -> (forall a, Steps P (f a)) -> Steps P (bind m f).
Proof.
  intros Hm Hf w. unfold bind.
  pose proof (Hm w) as H1. destruct (m w) as [a w1 t1].
  pose proof (Hf a w1) as H2. destruct (f a w1) as [b w2 t2].
  cbn [post out] in *. eapply P_trans; eassumption.
Qed.

Lemma steps_repeatM (n : nat) (body : M G unit) :
  Steps P body -> Steps P (repeatM n body).
Proof.
  intros Hb. induction n as [|n IH]; cbn [repeatM].
  - apply steps_ret.
  - apply steps_bind; [exact Hb|intros _; exact IH].
Qed.

Lemma steps_countdown (n : nat) (body : Z -> M G unit) :
  (forall r, Steps P (body r)) -> Steps P (countdown n body).
Proof.
  intros Hb. induction n as [|n IH]; cbn [countdown].
  - apply steps_ret.
  - apply steps_bind; [apply Hb|intros _; exact IH].
Qed.
End StepsRules.

(** ** Polling the buttons in [main.cpp] *)

Lemma isNsRed_spec (w : World Main.Globals) :
  Main.isNsRed w =
  mkRes (match Main.currentPhase (globals w) with
         | Main.PHASE_EW_GREEN | Main.PHASE_EW_YELLOW
         | Main.PHASE_PED_GREEN => true
         | _ => false
         end) w [].
Proof.
  unfold Main.isNsRed, bind, gets, ret; cbn.
  destruct (Main.currentPhase (globals w)); reflexivity.
Qed.

Lemma isEwRed_spec (w : World Main.Globals) :
  Main.isEwRed w =
  mkRes (match Main.currentPhase (globals w) with
         | Main.PHASE_NS_GREEN | Main.PHASE_NS_YELLOW
         | Main.PHASE_PED_GREEN => true
         | _ => false
         end) w [].
Proof.
  unfold Main.isEwRed, bind, gets, ret; cbn.
  destruct (Main.currentPhase (globals w)); reflexivity.
Qed.

Lemma iter_incr_add (a b : nat) (c : Z) :
  Nat.iter (a + b) int_incr c = Nat.iter b int_incr (Nat.iter a int_incr c).
Proof. rewrite Nat.add_comm. apply Nat.iter_add. Qed.

Lemma Polled_refl (w : World Main.Globals) : Polled w w [].
Proof.
  constructor; try reflexivity.
  - now destruct (val (Main.isNsRed w)).
  - now destruct (val (Main.isEwRed w)).
Qed.

Lemma Polled_trans (w w1 w2 : World Main.Globals) (t1 t2 : list Event) :
  Polled w w1 t1 -> Polled w1 w2 t2 -> Polled w w2 (t1 ++ t2).
Proof.
  intros [Hp Hn He Hnp Hep Hnc Hec Hcn Hce]
         [Hp' Hn' He' Hnp' Hep' Hnc' Hec' Hcn' Hce'].
  assert (Hnsp : ns_presses (t1 ++ t2) = (ns_presses t1 + ns_presses t2)%nat)
    by (unfold ns_presses, ns_counted, ns_ignored;
        rewrite !count_events_app; lia).
  assert (Hewp : ew_presses (t1 ++ t2) = (ew_presses t1 + ew_presses t2)%nat)
    by (unfold ew_presses, ew_counted, ew_ignored;
        rewrite !count_events_app; lia).
  assert (Hnsc : ns_counted (t1 ++ t2) = (ns_counted t1 + ns_counted t2)%nat)
    by (unfold ns_counted; apply count_events_app).
  assert (Hewc : ew_counted (t1 ++ t2) = (ew_counted t1 + ew_counted t2)%nat)
    by (unfold ew_counted; apply count_events_app).
  rewrite isNsRed_spec in Hnc, Hnc'. rewrite isEwRed_spec in Hec, Hec'.
  cbn [val] in Hnc, Hnc', Hec, Hec'. rewrite Hp in Hnc', Hec'.
  constructor.
  - congruence.
  - now rewrite levels_read_app, last_app_default, <- Hn.
  - now rewrite levels_read_app, last_app_default, <- He.
  - now rewrite Hnsp, levels_read_app, falls_app, <- Hn, Hnp, Hnp'.
  - now rewrite Hewp, levels_read_app, falls_app, <- He, Hep, Hep'.
  - rewrite isNsRed_spec; cbn [val]. rewrite Hnsc, Hnsp, Hnc, Hnc'.
    now destruct (Main.currentPhase (globals w)).
  - rewrite isEwRed_spec; cbn [val]. rewrite Hewc, Hewp, Hec, Hec'.
    now destruct (Main.currentPhase (globals w)).
  - now rewrite Hnsc, iter_incr_add, <- Hcn.
  - now rewrite Hewc, iter_incr_add, <- Hce.
Qed.

Lemma quiet_counts (e : Event) :
  quiet e = true ->
  ns_counted [e] = O /\ ns_ignored [e] = O /\ ew_counted [e] = O /\
  ew_ignored [e] = O /\ ped_presses [e] = O /\ ped_runs [e] = O /\
  forall pin, levels_read pin [e] = [].
Proof.
  unfold quiet. rewrite andb_true_iff, negb_true_iff, !orb_false_iff.
  intros [(((((H1 & H2) & H3) & H4) & H5) & H6) H7].
  unfold ns_counted, ns_ignored, ew_counted, ew_ignored, ped_presses,
    ped_runs, count_events; cbn [filter].
  rewrite H1, H2, H3, H4, H5, H6. repeat split; try reflexivity.
  intros pin. destruct e; try reflexivity; discriminate.
Qed.

Lemma Polled_quiet (e : Event) : quiet e = true -> Steps Polled (emit e).
Proof.
  intros Hq w. apply quiet_counts in Hq.
  destruct Hq as (H1 & H2 & H3 & H4 & _ & _ & H7).
  unfold emit; cbn [post out].
  constructor; rewrite ?H7; try reflexivity;
    unfold ns_presses, ew_presses; rewrite ?H1, ?H2, ?H3, ?H4;
    try reflexivity.
  - now destruct (val (Main.isNsRed w)).
  - now destruct (val (Main.isEwRed w)).
Qed.

Lemma PedTrack_refl (w : World Main.Globals) : PedTrack w w [].
Proof. constructor; try reflexivity. cbn. now rewrite orb_false_r. Qed.

Lemma PedTrack_trans (w w1 w2 : World Main.Globals) (t1 t2 : list Event) :
  PedTrack w w1 t1 -> PedTrack w1 w2 t2 -> PedTrack w w2 (t1 ++ t2).
Proof.
  intros [Hl Hs He Hr] [Hl' Hs' He' Hr'].
  assert (Hpp : ped_presses (t1 ++ t2) = (ped_presses t1 + ped_presses t2)%nat)
    by (unfold ped_presses; apply count_events_app).
  constructor.
  - rewrite Hl', Hl, Hpp, <- orb_assoc. f_equal.
    destruct (ped_presses t1), (ped_presses t2); reflexivity.
  - now rewrite levels_read_app, last_app_default, <- Hs.
  - now rewrite Hpp, levels_read_app, falls_app, <- Hs, He, He'.
  - unfold ped_runs in *. now rewrite count_events_app, Hr, Hr'.
Qed.

Lemma PedTrack_quiet (e : Event) : quiet e = true -> Steps PedTrack (emit e).
Proof.
  intros Hq w. apply quiet_counts in Hq.
  destruct Hq as (_ & _ & _ & _ & H5 & H6 & H7).
  unfold emit; cbn [post out].
  constructor; rewrite ?H7, ?H5, ?H6; try reflexivity.
  cbn. now rewrite orb_false_r.
Qed.

(** Assignments to the phase and to the counters leave the latch alone. *)
Lemma PedTrack_modify (f : Main.Globals -> Main.Globals) :
  (forall g, Main.pedRequest (f g) = Main.pedRequest g /\
             Main.lastPedBtnState (f g) = Main.lastPedBtnState g) ->
  Steps PedTrack (modify f).
Proof.
  intros Hf w. unfold modify; cbn [post out globals].
  destruct (Hf (globals w)) as [H1 H2].
  constructor; cbn [globals levels_read last]; rewrite ?H1, ?H2;
    try reflexivity.
  cbn. now rewrite orb_false_r.
Qed.

(** The test the sketches make on a sampled level and the stored one. *)
Lemma pressed_edge (cur prev : bool) :
  Bool.eqb cur LOW && Bool.eqb prev HIGH = negb cur && prev.
Proof. now destruct cur, prev. Qed.

(** One call of [readButtons], spelt out: the three levels it samples, what
    becomes of every global variable, and the events it emits. *)
Lemma readButtons_run (hw : nat -> Z -> bool) (w : World Main.Globals) :
  let a := hw (reads w) Main.PIN_BTN_NS_TRAFFIC in
  let b := hw (S (reads w)) Main.PIN_BTN_EW_TRAFFIC in
  let c := hw (S (S (reads w))) Main.PIN_BTN_PED_REQUEST in
  let g := globals w in
  let nsEdge := negb a && Main.lastNsBtnState g in
  let ewEdge := negb b && Main.lastEwBtnState g in
  let pedEdge := negb c && Main.lastPedBtnState g in
  let nsRed := val (Main.isNsRed w) in
  let ewRed := val (Main.isEwRed w) in
  Main.readButtons hw w =
  mkRes tt
    (mkWorld
       (Main.mkGlobals
          (Main.currentPhase g)
          (if nsEdge && nsRed then int_incr (Main.trafficCountNS g)
           else Main.trafficCountNS g)
          (if ewEdge && ewRed then int_incr (Main.trafficCountEW g)
           else Main.trafficCountEW g)
          (Main.pedRequest g || pedEdge)
          a b c)
       (S (S (S (reads w)))))
    (DigitalRead Main.PIN_BTN_NS_TRAFFIC a ::
     (if nsEdge then
        (if nsRed then
           [LcdClear; LcdSetCursor 0 0; LcdPrintStr "NS RED: Count";
            LcdSetCursor 0 1; LcdPrintStr "NS=";
            LcdPrintInt (int_incr (Main.trafficCountNS g))]
         else
           [LcdClear; LcdSetCursor 0 0; LcdPrintStr "NS not RED";
            LcdSetCursor 0 1; LcdPrintStr "No count"]) ++ [Delay 30]
      else []) ++
     DigitalRead Main.PIN_BTN_EW_TRAFFIC b ::
     (if ewEdge then
        (if ewRed then
           [LcdClear; LcdSetCursor 0 0; LcdPrintStr "EW RED: Count";
            LcdSetCursor 0 1; LcdPrintStr "EW=";
            LcdPrintInt (int_incr (Main.trafficCountEW g))]
         else
           [LcdClear; LcdSetCursor 0 0; LcdPrintStr "EW not RED";
            LcdSetCursor 0 1; LcdPrintStr "No count"]) ++ [Delay 30]
      else []) ++
     DigitalRead Main.PIN_BTN_PED_REQUEST c ::
     (if pedEdge then
        [LcdClear; LcdSetCursor 0 0; LcdPrintStr "Pedestrian Request";
         LcdSetCursor 0 1; LcdPrintStr "Recieved"; Delay 30]
      else [])).
Proof.
  destruct w as [[p cn ce pr ln le lp] r]. cbv zeta. cbn [globals reads].
  rewrite isNsRed_spec, isEwRed_spec. cbn [val globals Main.currentPhase].
  unfold Main.readButtons.
  destruct p; cbn; rewrite pressed_edge;
    (destruct (negb (hw r Main.PIN_BTN_NS_TRAFFIC) && ln);
     cbn; rewrite pressed_edge;
     destruct (negb (hw (S r) Main.PIN_BTN_EW_TRAFFIC) && le);
     cbn; rewrite pressed_edge;
     destruct (negb (hw (S (S r)) Main.PIN_BTN_PED_REQUEST) && lp);
     cbn; rewrite ?orb_true_r, ?orb_false_r; reflexivity).
Qed.

Lemma readButtons_polled (hw : nat -> Z -> bool) :
  Steps Polled (Main.readButtons hw).
Proof.
  intros w. rewrite readButtons_run. cbv zeta. cbn [post out globals].
  rewrite isNsRed_spec, isEwRed_spec. cbn [val].
  destruct w as [[p cn ce pr ln le lp] r]; cbn [globals reads Main.currentPhase
    Main.trafficCountNS Main.trafficCountEW Main.pedRequest
    Main.lastNsBtnState Main.lastEwBtnState Main.lastPedBtnState].
  destruct p;
    (destruct (hw r Main.PIN_BTN_NS_TRAFFIC), ln,
       (hw (S r) Main.PIN_BTN_EW_TRAFFIC), le,
       (negb (hw (S (S r)) Main.PIN_BTN_PED_REQUEST) && lp);
     constructor; reflexivity).
Qed.

Lemma readButtons_pedtrack (hw : nat -> Z -> bool) :
  Steps PedTrack (Main.readButtons hw).
Proof.
  intros w. rewrite readButtons_run. cbv zeta. cbn [post out globals].
  rewrite isNsRed_spec, isEwRed_spec. cbn [val].
  destruct w as [[p cn ce pr ln le lp] r]; cbn [globals reads Main.currentPhase
    Main.trafficCountNS Main.trafficCountEW Main.pedRequest
    Main.lastNsBtnState Main.lastEwBtnState Main.lastPedBtnState].
  destruct p;
    (destruct (negb (hw r Main.PIN_BTN_NS_TRAFFIC) && ln),
       (negb (hw (S r) Main.PIN_BTN_EW_TRAFFIC) && le),
       (hw (S (S r)) Main.PIN_BTN_PED_REQUEST), lp;
     constructor; cbn; rewrite ?orb_true_r, ?orb_false_r; reflexivity).
Qed.

(** ** The dwell of a phase *)

(** One rule per shape of program; [emit_rule] is for the events that the
    summary ignores, [extra] for what is particular to the summary. *)
Ltac steps_with refl trans read emit_rule extra :=
  repeat
    lazymatch goal with
    | |- Steps _ (bind _ _) => apply (steps_bind _ trans); [|intros ?]
    | |- Steps _ (ret _) => apply (steps_ret _ refl)
    | |- Steps _ (gets _) => apply (steps_gets _ refl)
    | |- Steps _ (repeatM _ _) => apply (steps_repeatM _ refl trans)
    | |- Steps _ (countdown _ _) =>
        apply (steps_countdown _ refl trans); intros ?
    | |- Steps _ (Main.readButtons _) => apply read
    | |- Steps _ (Main.waitOneSecondWithButtons _) =>
        unfold Main.waitOneSecondWithButtons
    | |- Steps _ (Main.lcdShowTwoLines _ _) => unfold Main.lcdShowTwoLines
    | |- Steps _ Main.setAllVehicleRed => unfold Main.setAllVehicleRed
    | |- Steps _ Main.setNsGreenState => unfold Main.setNsGreenState
    | |- Steps _ Main.setNsYellowState => unfold Main.setNsYellowState
    | |- Steps _ Main.setEwGreenState => unfold Main.setEwGreenState
    | |- Steps _ Main.setEwYellowState => unfold Main.setEwYellowState
    | |- Steps _ (digitalWrite _ _) => unfold digitalWrite
    | |- Steps _ (delay _) => unfold delay
    | |- Steps _ lcdClear => unfold lcdClear
    | |- Steps _ (lcdSetCursor _ _) => unfold lcdSetCursor
    | |- Steps _ (lcdPrint _) => unfold lcdPrint
    | |- Steps _ (lcdPrintInt _) => unfold lcdPrintInt
    | |- Steps _ (emit _) => apply emit_rule; reflexivity
    | |- _ => extra
    end.

Ltac polled :=
  steps_with Polled_refl Polled_trans readButtons_polled Polled_quiet fail.

Ltac pedtrack :=
  steps_with PedTrack_refl PedTrack_trans readButtons_pedtrack PedTrack_quiet
    ltac:(apply PedTrack_modify; intros ?; split; reflexivity).

Ltac dwelling := split; [polled|pedtrack].

Lemma waitOneSecondWithButtons_dwelling (hw : nat -> Z -> bool) :
  Dwelling (Main.waitOneSecondWithButtons hw).
Proof. dwelling. Qed.

Lemma phaseNsYellow_run (hw : nat -> Z -> bool) (w : World Main.Globals) :
  exists dwell,
    Dwelling dwell /\
    Main.phaseNsYellow hw w = dwell (with_phase Main.PHASE_NS_YELLOW w).
Proof.
  unfold Main.phaseNsYellow. cbn.
  match goal with
  | |- context [countdown ?n ?b _] => exists (countdown n b)
  end.
  split.
  - dwelling.
  - unfold with_phase.
    now destruct (countdown _ _ _).
Qed.

Lemma bind_then_modify {G A} (m : M G A) (f : G -> G) (w : World G) :
  (m ;; modify f) w =
  mkRes tt (mkWorld (f (globals (post (m w)))) (reads (post (m w))))
        (out (m w)).
Proof.
  unfold bind, modify. destruct (m w) as [a w1 t1]; cbn.
  now rewrite app_nil_r.
Qed.

Lemma phaseEwYellow_run (hw : nat -> Z -> bool) (w : World Main.Globals) :
  exists dwell,
    Dwelling dwell /\
    Main.phaseEwYellow hw w = dwell (with_phase Main.PHASE_EW_YELLOW w).
Proof.
  unfold Main.phaseEwYellow. cbn.
  match goal with
  | |- context [countdown ?n ?b _] => exists (countdown n b)
  end.
  split.
  - dwelling.
  - unfold with_phase.
    now destruct (countdown _ _ _).
Qed.

Lemma phaseNsGreen_run (hw : nat -> Z -> bool) (w : World Main.Globals) :
  exists dwell,
    Dwelling dwell /\
    Main.phaseNsGreen hw w =
    mkRes tt
          (with_countNS 0 (post (dwell (with_phase Main.PHASE_NS_GREEN w))))
          (two_step (Main.PIN_NS_RED, Main.PIN_NS_GREEN) ++
           out (dwell (with_phase Main.PHASE_NS_GREEN w))).
Proof.
  unfold Main.phaseNsGreen. cbn -[Z.add Z.sub Z.ltb Z.leb Z.to_nat].
  rewrite bind_then_modify.
  match goal with
  | |- context [countdown ?n ?b _] => exists (countdown n b)
  end.
  split; [dwelling|reflexivity].
Qed.

Lemma phaseEwGreen_run (hw : nat -> Z -> bool) (w : World Main.Globals) :
  exists dwell,
    Dwelling dwell /\
    Main.phaseEwGreen hw w =
    mkRes tt
          (with_countEW 0 (post (dwell (with_phase Main.PHASE_EW_GREEN w))))
          (two_step (Main.PIN_EW_RED, Main.PIN_EW_GREEN) ++
           out (dwell (with_phase Main.PHASE_EW_GREEN w))).
Proof.
  unfold Main.phaseEwGreen. cbn -[Z.add Z.sub Z.ltb Z.leb Z.to_nat].
  rewrite bind_then_modify.
  match goal with
  | |- context [countdown ?n ?b _] => exists (countdown n b)
  end.
  split; [dwelling|reflexivity].
Qed.

(** With the latch clear, the insertion point returns at once; with the
    latch set, the phase is: lamps, dwell, lamps back, latch cleared. *)
Lemma phasePedestrian_skipped (hw : nat -> Z -> bool) (w : World Main.Globals) :
  Main.pedRequest (globals w) = false ->
  Main.phasePedestrianIfRequested hw w = mkRes tt w [].
Proof.
  intros H. unfold Main.phasePedestrianIfRequested, bind, gets; cbn.
  now rewrite H.
Qed.

Lemma phasePedestrian_run (hw : nat -> Z -> bool) (w : World Main.Globals) :
  Main.pedRequest (globals w) = true ->
  exists dwell,
    Dwelling dwell /\
    Main.phasePedestrianIfRequested hw w =
    mkRes tt
          (with_pedRequest false
             (post (dwell (with_phase Main.PHASE_PED_GREEN w))))
          (two_step (Main.PIN_PED_RED, Main.PIN_PED_GREEN) ++
           out (dwell (with_phase Main.PHASE_PED_GREEN w)) ++
           baseline ++
           [ DigitalWrite Main.PIN_PED_RED HIGH;
             DigitalWrite Main.PIN_PED_GREEN LOW;
             LcdClear; LcdSetCursor 0 0; LcdPrintStr "PEDESTRIAN";
             LcdSetCursor 0 1; LcdPrintStr "STOP"; Delay 500 ]).
Proof.
  intros H. unfold Main.phasePedestrianIfRequested.
  unfold bind at 1, gets at 1. rewrite H. cbn.
  match goal with
  | |- context [countdown ?n ?b] => exists (countdown n b)
  end.
  split.
  - dwelling.
  - unfold with_phase, with_pedRequest, bind.
    destruct (countdown _ _ _) as [[] w2 t2]. reflexivity.
Qed.

(** ** The adaptive green time *)

Lemma computeNsGreenSeconds_run (w : World Main.Globals) :
  let c := Main.trafficCountNS (globals w) in
  Main.computeNsGreenSeconds w =
  mkRes (if c <=? 4 then 10 else if c <=? 9 then 20
         else if c <=? 14 then 30 else 40) w [].
Proof.
  cbv zeta. unfold Main.computeNsGreenSeconds, bind, gets, ret; cbn [val post out].
  unfold Main.BASE_GREEN_SEC. f_equal.
  destruct (Z.leb_spec 15 (Main.trafficCountNS (globals w))),
    (Z.leb_spec 10 (Main.trafficCountNS (globals w))),
    (Z.leb_spec 5 (Main.trafficCountNS (globals w))),
    (Z.leb_spec (Main.trafficCountNS (globals w)) 4),
    (Z.leb_spec (Main.trafficCountNS (globals w)) 9),
    (Z.leb_spec (Main.trafficCountNS (globals w)) 14);
    try lia; reflexivity.
Qed.

Lemma computeEwGreenSeconds_run (w : World Main.Globals) :
  let c := Main.trafficCountEW (globals w) in
  Main.computeEwGreenSeconds w =
  mkRes (if c <=? 4 then 10 else if c <=? 9 then 20
         else if c <=? 14 then 30 else 40) w [].
Proof.
  cbv zeta. unfold Main.computeEwGreenSeconds, bind, gets, ret; cbn [val post out].
  unfold Main.BASE_GREEN_SEC. f_equal.
  destruct (Z.leb_spec 15 (Main.trafficCountEW (globals w))),
    (Z.leb_spec 10 (Main.trafficCountEW (globals w))),
    (Z.leb_spec 5 (Main.trafficCountEW (globals w))),
    (Z.leb_spec (Main.trafficCountEW (globals w)) 4),
    (Z.leb_spec (Main.trafficCountEW (globals w)) 9),
    (Z.leb_spec (Main.trafficCountEW (globals w)) 14);
    try lia; reflexivity.
Qed.

Lemma green_table_monotone (c1 c2 : Z) :
  c1 <= c2 ->
  (if c1 <=? 4 then 10 else if c1 <=? 9 then 20
   else if c1 <=? 14 then 30 else 40) <=
  (if c2 <=? 4 then 10 else if c2 <=? 9 then 20
   else if c2 <=? 14 then 30 else 40).
Proof.
  intros H.
  destruct (Z.leb_spec c1 4), (Z.leb_spec c1 9), (Z.leb_spec c1 14),
    (Z.leb_spec c2 4), (Z.leb_spec c2 9), (Z.leb_spec c2 14); lia.
Qed.

(** The simpler sketch has three tiers with lower thresholds. *)
Lemma withlcd_green_seconds (w : World WithLcd.Globals) :
  let c := WithLcd.trafficCountNS (globals w) in
  WithLcd.computeNsGreenSeconds w =
  mkRes (if c <=? 3 then 10 else if c <=? 7 then 20 else 30) w [].
Proof.
  cbv zeta. unfold WithLcd.computeNsGreenSeconds, bind, gets, ret; cbn.
  destruct (WithLcd.trafficCountNS (globals w) <=? 3); [reflexivity|].
  destruct (WithLcd.trafficCountNS (globals w) <=? 7); reflexivity.
Qed.

Lemma withlcd_ew_green_seconds (w : World WithLcd.Globals) :
  let c := WithLcd.trafficCountEW (globals w) in
  WithLcd.computeEwGreenSeconds w =
  mkRes (if c <=? 3 then 10 else if c <=? 7 then 20 else 30) w [].
Proof.
  cbv zeta. unfold WithLcd.computeEwGreenSeconds, bind, gets, ret; cbn.
  destruct (WithLcd.trafficCountEW (globals w) <=? 3); [reflexivity|].
  destruct (WithLcd.trafficCountEW (globals w) <=? 7); reflexivity.
Qed.

Lemma withlcd_green_table_monotone (c1 c2 : Z) :
  c1 <= c2 ->
  (if c1 <=? 3 then 10 else if c1 <=? 7 then 20 else 30) <=
  (if c2 <=? 3 then 10 else if c2 <=? 7 then 20 else 30).
Proof.
  intros H.
  destruct (Z.leb_spec c1 3), (Z.leb_spec c1 7),
    (Z.leb_spec c2 3), (Z.leb_spec c2 7); lia.
Qed.

(** C3.  For a count [c >= 0] the green time of either axis never
    decreases when the count grows, in both sketches.  In [main.cpp] it is
    10 for [c] in 0..4, 20 for 5..9, 30 for 10..14 and 40 from 15 on.  In
    [main_withlcd.cpp] the table is another one: 10 for [c] in 0..3, 20 for
    4..7 and 30 from 8 on. *)
Theorem green_seconds_breakpoints :
  forall (w w' : World Main.Globals) (v v' : World WithLcd.Globals),
    let ns := Main.trafficCountNS (globals w) in
    let ew := Main.trafficCountEW (globals w) in
    let ns' := Main.trafficCountNS (globals w') in
    let ew' := Main.trafficCountEW (globals w') in
    let lns := WithLcd.trafficCountNS (globals v) in
    let lew := WithLcd.trafficCountEW (globals v) in
    let lns' := WithLcd.trafficCountNS (globals v') in
    let lew' := WithLcd.trafficCountEW (globals v') in
    0 <= ns -> 0 <= ew ->
    (0 <= ns <= 4 -> val (Main.computeNsGreenSeconds w) = 10) /\
    (5 <= ns <= 9 -> val (Main.computeNsGreenSeconds w) = 20) /\
    (10 <= ns <= 14 -> val (Main.computeNsGreenSeconds w) = 30) /\
    (15 <= ns -> val (Main.computeNsGreenSeconds w) = 40) /\
    (0 <= ew <= 4 -> val (Main.computeEwGreenSeconds w) = 10) /\
    (5 <= ew <= 9 -> val (Main.computeEwGreenSeconds w) = 20) /\
    (10 <= ew <= 14 -> val (Main.computeEwGreenSeconds w) = 30) /\
    (15 <= ew -> val (Main.computeEwGreenSeconds w) = 40) /\
    (ns <= ns' ->
     val (Main.computeNsGreenSeconds w) <=
     val (Main.computeNsGreenSeconds w')) /\
    (ew <= ew' ->
     val (Main.computeEwGreenSeconds w) <=
     val (Main.computeEwGreenSeconds w')) /\
    ((0 <= lns <= 3 -> val (WithLcd.computeNsGreenSeconds v) = 10) /\
     (4 <= lns <= 7 -> val (WithLcd.computeNsGreenSeconds v) = 20) /\
     (8 <= lns -> val (WithLcd.computeNsGreenSeconds v) = 30) /\
     (0 <= lew <= 3 -> val (WithLcd.computeEwGreenSeconds v) = 10) /\
     (4 <= lew <= 7 -> val (WithLcd.computeEwGreenSeconds v) = 20) /\
     (8 <= lew -> val (WithLcd.computeEwGreenSeconds v) = 30) /\
     (lns <= lns' ->
      val (WithLcd.computeNsGreenSeconds v) <=
      val (WithLcd.computeNsGreenSeconds v')) /\
     (lew <= lew' ->
      val (WithLcd.computeEwGreenSeconds v) <=
      val (WithLcd.computeEwGreenSeconds v'))).
Proof.
  intros w w' v v' ns ew ns' ew' lns lew lns' lew' Hns Hew.
  rewrite !computeNsGreenSeconds_run, !computeEwGreenSeconds_run.
  rewrite !withlcd_green_seconds, !withlcd_ew_green_seconds.
  cbn [val]. fold ns ew ns' ew' lns lew lns' lew'.
  repeat split; intros H;
    try (apply green_table_monotone; exact H);
    try (apply withlcd_green_table_monotone; exact H);
    destruct (Z.leb_spec ns 4), (Z.leb_spec ns 9), (Z.leb_spec ns 14),
      (Z.leb_spec ew 4), (Z.leb_spec ew 9), (Z.leb_spec ew 14),
      (Z.leb_spec lns 3), (Z.leb_spec lns 7),
      (Z.leb_spec lew 3), (Z.leb_spec lew 7); lia.
Qed.

Lemma green_seconds_breakpoints_witness :
  let w := with_countEW 12 (with_countNS 6 boot) in
  let w' := with_countEW 15 (with_countNS 9 boot) in
  let v := mkWorld (WithLcd.mkGlobals 5 2 false HIGH HIGH HIGH) 0 in
  let v' := mkWorld (WithLcd.mkGlobals 8 4 false HIGH HIGH HIGH) 0 in
  (0 <= Main.trafficCountNS (globals w) /\
   0 <= Main.trafficCountEW (globals w)) /\
  (val (Main.computeNsGreenSeconds w) = 20 /\
   val (Main.computeEwGreenSeconds w) = 30 /\
   val (Main.computeNsGreenSeconds w) <=
     val (Main.computeNsGreenSeconds w') /\
   val (Main.computeEwGreenSeconds w) <=
     val (Main.computeEwGreenSeconds w')) /\
  (val (WithLcd.computeNsGreenSeconds v) = 20 /\
   val (WithLcd.computeEwGreenSeconds v) = 10 /\
   val (WithLcd.computeNsGreenSeconds v) <=
     val (WithLcd.computeNsGreenSeconds v') /\
   val (WithLcd.computeEwGreenSeconds v) <=
     val (WithLcd.computeEwGreenSeconds v')).
Proof.
  intros w w' v v'.
  assert (Hns : 0 <= Main.trafficCountNS (globals w)) by (cbn; lia).
  assert (Hew : 0 <= Main.trafficCountEW (globals w)) by (cbn; lia).
  destruct (green_seconds_breakpoints w w' v v' Hns Hew) as
    (_ & H1 & _ & _ & _ & _ & H2 & _ & H3 & H4 &
     _ & L1 & _ & L2 & _ & _ & L3 & L4).
  split; [split; assumption|]. split.
  - split; [apply H1|split; [apply H2|split; [apply H3|apply H4]]];
      cbn; lia.
  - split; [apply L1|split; [apply L2|split; [apply L3|apply L4]]];
      cbn; lia.
Defined.

(** C3, as stated, fails for [main_withlcd.cpp]: there a count of 4 gives
    20 seconds and not 10, a count of 8 gives 30 and not 20, and a count of
    15 gives 30 and not 40. *)
Lemma withlcd_green_seconds_off_the_table :
  let at_count (c : Z) :=
    mkWorld (WithLcd.set_trafficCountNS c WithLcd.initial) 0 in
  (WithLcd.trafficCountNS (globals (at_count 4)) = 4 /\
   val (WithLcd.computeNsGreenSeconds (at_count 4)) = 20) /\
  (WithLcd.trafficCountNS (globals (at_count 8)) = 8 /\
   val (WithLcd.computeNsGreenSeconds (at_count 8)) = 30) /\
  (WithLcd.trafficCountNS (globals (at_count 15)) = 15 /\
   val (WithLcd.computeNsGreenSeconds (at_count 15)) = 30) /\
  val (WithLcd.computeNsGreenSeconds (at_count 4)) <> 10 /\
  val (WithLcd.computeNsGreenSeconds (at_count 8)) <> 20 /\
  val (WithLcd.computeNsGreenSeconds (at_count 15)) <> 40.
Proof.
  cbv zeta. repeat split; try reflexivity; vm_compute; discriminate.
Qed.

(** ** Machine integers *)

Lemma wrap_int_small (z : Z) : in_int z -> wrap_int z = z.
Proof.
  unfold in_int, INT_MIN, INT_MAX, wrap_int. intros H.
  rewrite Z.mod_small; lia.
Qed.

Lemma int_incr_small (c : Z) :
  INT_MIN <= c < INT_MAX -> int_incr c = c + 1.
Proof.
  intros H. unfold int_incr. apply wrap_int_small.
  unfold in_int, INT_MIN, INT_MAX in *. lia.
Qed.

Lemma iter_incr_small (n : nat) (c : Z) :
  INT_MIN <= c -> c + Z.of_nat n <= INT_MAX ->
  Nat.iter n int_incr c = c + Z.of_nat n.
Proof.
  induction n as [|n IH]; intros Hlo Hhi.
  - cbn. lia.
  - rewrite Nat.iter_succ, IH by lia. rewrite int_incr_small by lia. lia.
Qed.

(** ** One press event *)

(** C4. One call of [readButtons] samples the three buttons; a button
    gives a press event when it reads LOW and its stored level is HIGH.  On
    a press event of the NS button the NS count goes up by exactly one if NS
    is red (the phase is EW green, EW yellow or pedestrian) and stays as it
    is otherwise, where the display shows "NS not RED"; likewise for EW.
    What becomes of a count depends on its own button only, and the latch
    changes on a pedestrian press event only: a traffic press event
    modifies no other counter and not the latch. *)
Theorem traffic_press_counted_iff_red :
  forall (hw : nat -> Z -> bool) (w : World Main.Globals),
    let g := globals w in
    let r := Main.readButtons hw w in
    let g' := globals (post r) in
    let nsPress :=
      negb (hw (reads w) Main.PIN_BTN_NS_TRAFFIC) && Main.lastNsBtnState g in
    let ewPress :=
      negb (hw (S (reads w)) Main.PIN_BTN_EW_TRAFFIC) &&
      Main.lastEwBtnState g in
    let pedPress :=
      negb (hw (S (S (reads w))) Main.PIN_BTN_PED_REQUEST) &&
      Main.lastPedBtnState g in
    let nsRed :=
      match Main.currentPhase g with
      | Main.PHASE_EW_GREEN | Main.PHASE_EW_YELLOW
      | Main.PHASE_PED_GREEN => true
      | _ => false
      end in
    let ewRed :=
      match Main.currentPhase g with
      | Main.PHASE_NS_GREEN | Main.PHASE_NS_YELLOW
      | Main.PHASE_PED_GREEN => true
      | _ => false
      end in
    INT_MIN <= Main.trafficCountNS g < INT_MAX ->
    INT_MIN <= Main.trafficCountEW g < INT_MAX ->
    val (Main.isNsRed w) = nsRed /\
    val (Main.isEwRed w) = ewRed /\
    Main.trafficCountNS g' =
      (if nsPress && nsRed then Main.trafficCountNS g + 1
       else Main.trafficCountNS g) /\
    Main.trafficCountEW g' =
      (if ewPress && ewRed then Main.trafficCountEW g + 1
       else Main.trafficCountEW g) /\
    Main.pedRequest g' = Main.pedRequest g || pedPress /\
    Main.currentPhase g' = Main.currentPhase g /\
    ns_presses (out r) = (if nsPress then 1 else 0)%nat /\
    ew_presses (out r) = (if ewPress then 1 else 0)%nat /\
    ns_ignored (out r) = (if nsPress && negb nsRed then 1 else 0)%nat /\
    ew_ignored (out r) = (if ewPress && negb ewRed then 1 else 0)%nat.
Proof.
  intros hw w g r g' nsPress ewPress pedPress nsRed ewRed Hns Hew.
  subst r g'. rewrite readButtons_run. cbv zeta.
  rewrite isNsRed_spec, isEwRed_spec. cbn [val post globals out].
  fold g nsPress ewPress pedPress nsRed ewRed.
  rewrite !int_incr_small by assumption.
  repeat split.
  - unfold ns_presses. now destruct nsPress, nsRed, ewPress, ewRed, pedPress.
  - unfold ew_presses. now destruct nsPress, nsRed, ewPress, ewRed, pedPress.
  - now destruct nsPress, nsRed, ewPress, ewRed, pedPress.
  - now destruct nsPress, nsRed, ewPress, ewRed, pedPress.
Qed.

Lemma traffic_press_counted_iff_red_witness :
  let hw : nat -> Z -> bool := fun _ pin => negb (pin =? Main.PIN_BTN_NS_TRAFFIC) in
  let w := with_phase Main.PHASE_EW_GREEN boot in
  INT_MIN <= Main.trafficCountNS (globals w) < INT_MAX /\
  INT_MIN <= Main.trafficCountEW (globals w) < INT_MAX /\
  Main.trafficCountNS (globals (post (Main.readButtons hw w))) = 1 /\
  Main.trafficCountEW (globals (post (Main.readButtons hw w))) = 0.
Proof.
  intros hw w.
  assert (Hns : INT_MIN <= Main.trafficCountNS (globals w) < INT_MAX)
    by (cbn; unfold INT_MIN, INT_MAX; lia).
  assert (Hew : INT_MIN <= Main.trafficCountEW (globals w) < INT_MAX)
    by (cbn; unfold INT_MIN, INT_MAX; lia).
  split; [exact Hns|]. split; [exact Hew|].
  destruct (traffic_press_counted_iff_red hw w Hns Hew)
    as (_ & _ & H1 & H2 & _).
  split; [exact H1|exact H2].
Defined.

(** ** Sequences of samples *)

Lemma bind_run {G A B} (m : M G A) (f : A -> M G B) (w : World G) :
  bind m f w =
  mkRes (val (f (val (m w)) (post (m w))))
        (post (f (val (m w)) (post (m w))))
        (out (m w) ++ out (f (val (m w)) (post (m w)))).
Proof.
  unfold bind. destruct (m w) as [a w1 t1]; cbn.
  now destruct (f a w1).
Qed.

Lemma readButtons_samples (hw : nat -> Z -> bool) (w : World Main.Globals) :
  levels_read Main.PIN_BTN_NS_TRAFFIC (out (Main.readButtons hw w)) =
    [hw (reads w) Main.PIN_BTN_NS_TRAFFIC] /\
  levels_read Main.PIN_BTN_EW_TRAFFIC (out (Main.readButtons hw w)) =
    [hw (S (reads w)) Main.PIN_BTN_EW_TRAFFIC] /\
  levels_read Main.PIN_BTN_PED_REQUEST (out (Main.readButtons hw w)) =
    [hw (S (S (reads w))) Main.PIN_BTN_PED_REQUEST].
Proof.
  rewrite readButtons_run. cbv zeta. cbn [out].
  destruct (negb _ && Main.lastNsBtnState _), (val (Main.isNsRed w)),
    (negb _ && Main.lastEwBtnState _), (val (Main.isEwRed w)),
    (negb _ && Main.lastPedBtnState _); repeat split; reflexivity.
Qed.

Lemma repeat_readButtons_samples (hw : nat -> Z -> bool) (n : nat) :
  forall w : World Main.Globals,
    let tr := out (repeatM n (Main.readButtons hw) w) in
    List.length (levels_read Main.PIN_BTN_NS_TRAFFIC tr) = n /\
    List.length (levels_read Main.PIN_BTN_EW_TRAFFIC tr) = n /\
    List.length (levels_read Main.PIN_BTN_PED_REQUEST tr) = n.
Proof.
  induction n as [|n IH]; intros w; [repeat split; reflexivity|].
  cbv zeta. change (repeatM (S n) (Main.readButtons hw)) with
    (bind (Main.readButtons hw) (fun _ => repeatM n (Main.readButtons hw))).
  rewrite bind_run. cbn [out]. rewrite !levels_read_app, !length_app.
  destruct (readButtons_samples hw w) as (H1 & H2 & H3).
  rewrite H1, H2, H3.
  destruct (IH (post (Main.readButtons hw w))) as (I1 & I2 & I3).
  cbv zeta in I1, I2, I3. rewrite I1, I2, I3. repeat split; reflexivity.
Qed.

(** The press events of [main.cpp] over consecutive calls. *)
Lemma main_press_events :
  forall (hw : nat -> Z -> bool) (n : nat) (w : World Main.Globals),
    let g := globals w in
    let r := repeatM n (Main.readButtons hw) w in
    let g' := globals (post r) in
    let ns := levels_read Main.PIN_BTN_NS_TRAFFIC (out r) in
    let ew := levels_read Main.PIN_BTN_EW_TRAFFIC (out r) in
    let ped := levels_read Main.PIN_BTN_PED_REQUEST (out r) in
    (List.length ns = n /\ List.length ew = n /\ List.length ped = n) /\
    (ns_presses (out r) = falls (Main.lastNsBtnState g) ns /\
     ew_presses (out r) = falls (Main.lastEwBtnState g) ew /\
     ped_presses (out r) = falls (Main.lastPedBtnState g) ped) /\
    (Main.lastNsBtnState g' = last ns (Main.lastNsBtnState g) /\
     Main.lastEwBtnState g' = last ew (Main.lastEwBtnState g) /\
     Main.lastPedBtnState g' = last ped (Main.lastPedBtnState g)).
Proof.
  intros hw n w g r g' ns ew ped.
  assert (HP : Polled w (post r) (out r))
    by (apply (steps_repeatM Polled Polled_refl Polled_trans);
        apply readButtons_polled).
  assert (HT : PedTrack w (post r) (out r))
    by (apply (steps_repeatM PedTrack PedTrack_refl PedTrack_trans);
        apply readButtons_pedtrack).
  destruct HP as [_ Hn He Hnp Hep _ _ _ _]. destruct HT as [_ Hl Hpp _].
  fold g g' ns in Hn, Hnp. fold g g' ew in He, Hep. fold g g' ped in Hl, Hpp.
  split; [apply repeat_readButtons_samples|].
  split; auto.
Qed.


(** The same for [main_withlcd.cpp]. *)

Lemma LcdPolled_refl (w : World WithLcd.Globals) : LcdPolled w w [].
Proof. constructor; reflexivity. Qed.

Lemma LcdPolled_trans (w w1 w2 : World WithLcd.Globals) (t1 t2 : list Event) :
  LcdPolled w w1 t1 -> LcdPolled w1 w2 t2 -> LcdPolled w w2 (t1 ++ t2).
Proof.
  intros [Hn He Hp Hnp Hep Hpp] [Hn' He' Hp' Hnp' Hep' Hpp'].
  unfold lcd_ns_presses, lcd_ew_presses, lcd_ped_presses in *.
  constructor.
  - now rewrite levels_read_app, last_app_default, <- Hn.
  - now rewrite levels_read_app, last_app_default, <- He.
  - now rewrite levels_read_app, last_app_default, <- Hp.
  - unfold lcd_ns_presses.
    now rewrite count_events_app, levels_read_app, falls_app, <- Hn, Hnp, Hnp'.
  - unfold lcd_ew_presses.
    now rewrite count_events_app, levels_read_app, falls_app, <- He, Hep, Hep'.
  - unfold lcd_ped_presses.
    now rewrite count_events_app, levels_read_app, falls_app, <- Hp, Hpp, Hpp'.
Qed.

Lemma withlcd_readButtons_call
      (hw : nat -> Z -> bool) (w : World WithLcd.Globals) :
  let r := WithLcd.readButtons hw w in
  LcdPolled w (post r) (out r) /\
  levels_read WithLcd.PIN_BTN_NS_TRAFFIC (out r) =
    [hw (reads w) WithLcd.PIN_BTN_NS_TRAFFIC] /\
  levels_read WithLcd.PIN_BTN_EW_TRAFFIC (out r) =
    [hw (S (reads w)) WithLcd.PIN_BTN_EW_TRAFFIC] /\
  levels_read WithLcd.PIN_BTN_PED_REQUEST (out r) =
    [hw (S (S (reads w))) WithLcd.PIN_BTN_PED_REQUEST].
Proof.
  destruct w as [[cn ce pr ln le lp] r]. cbv zeta. cbn [reads].
  unfold WithLcd.readButtons, WithLcd.lcdShowTwoLines, bind, gets, modify,
    ret, digitalRead, lcdClear, lcdSetCursor, lcdPrint, lcdPrintInt, delay,
    emit.
  destruct (hw r WithLcd.PIN_BTN_NS_TRAFFIC) eqn:Ha,
    (hw (S r) WithLcd.PIN_BTN_EW_TRAFFIC) eqn:Hb,
    (hw (S (S r)) WithLcd.PIN_BTN_PED_REQUEST) eqn:Hc, ln, le, lp;
    repeat first
      [ progress (cbn -[Z.ltb])
      | progress (rewrite ?Ha, ?Hb, ?Hc)
      | match goal with
        | |- context [if ?c <? ?m then _ else _] => destruct (c <? m)
        end ];
    (split; [constructor; reflexivity|repeat split; reflexivity]).
Qed.

Lemma withlcd_repeat_readButtons_samples (hw : nat -> Z -> bool) (n : nat) :
  forall w : World WithLcd.Globals,
    let tr := out (repeatM n (WithLcd.readButtons hw) w) in
    List.length (levels_read WithLcd.PIN_BTN_NS_TRAFFIC tr) = n /\
    List.length (levels_read WithLcd.PIN_BTN_EW_TRAFFIC tr) = n /\
    List.length (levels_read WithLcd.PIN_BTN_PED_REQUEST tr) = n.
Proof.
  induction n as [|n IH]; intros w; [repeat split; reflexivity|].
  cbv zeta. change (repeatM (S n) (WithLcd.readButtons hw)) with
    (bind (WithLcd.readButtons hw)
          (fun _ => repeatM n (WithLcd.readButtons hw))).
  rewrite bind_run. cbn [out]. rewrite !levels_read_app, !length_app.
  destruct (withlcd_readButtons_call hw w) as (_ & H1 & H2 & H3).
  rewrite H1, H2, H3.
  destruct (IH (post (WithLcd.readButtons hw w))) as (I1 & I2 & I3).
  cbv zeta in I1, I2, I3. rewrite I1, I2, I3. repeat split; reflexivity.
Qed.

Lemma withlcd_press_events :
  forall (hw : nat -> Z -> bool) (n : nat) (w : World WithLcd.Globals),
    let g := globals w in
    let r := repeatM n (WithLcd.readButtons hw) w in
    let g' := globals (post r) in
    let ns := levels_read WithLcd.PIN_BTN_NS_TRAFFIC (out r) in
    let ew := levels_read WithLcd.PIN_BTN_EW_TRAFFIC (out r) in
    let ped := levels_read WithLcd.PIN_BTN_PED_REQUEST (out r) in
    (List.length ns = n /\ List.length ew = n /\ List.length ped = n) /\
    (lcd_ns_presses (out r) = falls (WithLcd.lastNsBtnState g) ns /\
     lcd_ew_presses (out r) = falls (WithLcd.lastEwBtnState g) ew /\
     lcd_ped_presses (out r) = falls (WithLcd.lastPedBtnState g) ped) /\
    (WithLcd.lastNsBtnState g' = last ns (WithLcd.lastNsBtnState g) /\
     WithLcd.lastEwBtnState g' = last ew (WithLcd.lastEwBtnState g) /\
     WithLcd.lastPedBtnState g' = last ped (WithLcd.lastPedBtnState g)).
Proof.
  intros hw n w g r g' ns ew ped.
  assert (HP : LcdPolled w (post r) (out r))
    by (apply (steps_repeatM LcdPolled LcdPolled_refl LcdPolled_trans);
        intros w0; apply withlcd_readButtons_call).
  destruct HP as [Hn He Hp Hnp Hep Hpp].
  split; [apply withlcd_repeat_readButtons_samples|].
  split; auto.
Qed.

(** C5.  Over any number of consecutive calls of [readButtons], in either
    sketch and whatever the levels sampled: each call samples each button
    once; the press events of a button are exactly the HIGH-to-LOW
    transitions of its samples, the first sample being compared with the
    level stored before; and after the calls the stored level is the last
    sample, event or no event.  Hence one press-release cycle gives exactly
    one event, and a button held LOW, or released, gives none. *)
Theorem press_event_once_per_press :
  forall (hw : nat -> Z -> bool) (n : nat)
         (w : World Main.Globals) (v : World WithLcd.Globals),
    let g := globals w in
    let r := repeatM n (Main.readButtons hw) w in
    let ns := levels_read Main.PIN_BTN_NS_TRAFFIC (out r) in
    let ew := levels_read Main.PIN_BTN_EW_TRAFFIC (out r) in
    let ped := levels_read Main.PIN_BTN_PED_REQUEST (out r) in
    let h := globals v in
    let s := repeatM n (WithLcd.readButtons hw) v in
    let ns' := levels_read WithLcd.PIN_BTN_NS_TRAFFIC (out s) in
    let ew' := levels_read WithLcd.PIN_BTN_EW_TRAFFIC (out s) in
    let ped' := levels_read WithLcd.PIN_BTN_PED_REQUEST (out s) in
    ((List.length ns = n /\ List.length ew = n /\ List.length ped = n) /\
     (ns_presses (out r) = falls (Main.lastNsBtnState g) ns /\
      ew_presses (out r) = falls (Main.lastEwBtnState g) ew /\
      ped_presses (out r) = falls (Main.lastPedBtnState g) ped) /\
     (Main.lastNsBtnState (globals (post r)) =
        last ns (Main.lastNsBtnState g) /\
      Main.lastEwBtnState (globals (post r)) =
        last ew (Main.lastEwBtnState g) /\
      Main.lastPedBtnState (globals (post r)) =
        last ped (Main.lastPedBtnState g))) /\
    ((List.length ns' = n /\ List.length ew' = n /\ List.length ped' = n) /\
     (lcd_ns_presses (out s) = falls (WithLcd.lastNsBtnState h) ns' /\
      lcd_ew_presses (out s) = falls (WithLcd.lastEwBtnState h) ew' /\
      lcd_ped_presses (out s) = falls (WithLcd.lastPedBtnState h) ped') /\
     (WithLcd.lastNsBtnState (globals (post s)) =
        last ns' (WithLcd.lastNsBtnState h) /\
      WithLcd.lastEwBtnState (globals (post s)) =
        last ew' (WithLcd.lastEwBtnState h) /\
      WithLcd.lastPedBtnState (globals (post s)) =
        last ped' (WithLcd.lastPedBtnState h))) /\
    (forall a b c,
        Main.lastNsBtnState g = HIGH ->
        ns = repeat HIGH a ++ repeat LOW (S b) ++ repeat HIGH c ->
        ns_presses (out r) = 1%nat) /\
    (forall k,
        Main.lastNsBtnState g = LOW ->
        ns = repeat LOW k \/ ns = repeat HIGH k ->
        ns_presses (out r) = O).
Proof.
  intros hw n w v g r ns ew ped h s ns' ew' ped'.
  pose proof (main_press_events hw n w) as HM.
  pose proof (withlcd_press_events hw n v) as HL.
  cbv zeta in HM, HL. fold g r ns ew ped in HM. fold h s ns' ew' ped' in HL.
  split; [exact HM|]. split; [exact HL|].
  destruct HM as (_ & (Hnp & _) & _). split.
  - intros a b c Hhigh Hns. rewrite Hnp, Hhigh, Hns.
    apply falls_press_release.
  - intros k Hlow [Hns|Hns]; rewrite Hnp, Hlow, Hns.
    + apply falls_held.
    + apply falls_released.
Qed.

Lemma press_event_once_per_press_witness :
  let hw : nat -> Z -> bool :=
    fun k pin => negb ((pin =? Main.PIN_BTN_NS_TRAFFIC) &&
                       (3 <=? k)%nat && (k <=? 8)%nat) in
  let r := repeatM 5 (Main.readButtons hw) boot in
  Main.lastNsBtnState (globals boot) = HIGH /\
  levels_read Main.PIN_BTN_NS_TRAFFIC (out r) =
    repeat HIGH 1 ++ repeat LOW 2 ++ repeat HIGH 2 /\
  ns_presses (out r) = 1%nat.
Proof.
  intros hw r.
  assert (H1 : Main.lastNsBtnState (globals boot) = HIGH) by reflexivity.
  assert (H2 : levels_read Main.PIN_BTN_NS_TRAFFIC (out r) =
               repeat HIGH 1 ++ repeat LOW 2 ++ repeat HIGH 2)
    by (vm_compute; reflexivity).
  split; [exact H1|]. split; [exact H2|].
  destruct (press_event_once_per_press hw 5 boot (mkWorld WithLcd.initial 0))
    as (_ & _ & H & _).
  exact (H 1%nat 1%nat 2%nat H1 H2).
Defined.

(** ** The phases, one by one *)

Lemma Polled_lamps (w : World Main.Globals) (lamp : Z * Z) :
  Polled w w (two_step lamp).
Proof.
  constructor; try reflexivity.
  - now destruct (val (Main.isNsRed w)).
  - now destruct (val (Main.isEwRed w)).
Qed.

Lemma Polled_with_phase (p : Main.Phase) (w w' : World Main.Globals)
      (tr : list Event) :
  Polled (with_phase p w) w' tr ->
  Main.currentPhase (globals w') = p /\
  Main.lastNsBtnState (globals w') =
    last (levels_read Main.PIN_BTN_NS_TRAFFIC tr)
         (Main.lastNsBtnState (globals w)) /\
  Main.lastEwBtnState (globals w') =
    last (levels_read Main.PIN_BTN_EW_TRAFFIC tr)
         (Main.lastEwBtnState (globals w)) /\
  ns_presses tr =
    falls (Main.lastNsBtnState (globals w))
          (levels_read Main.PIN_BTN_NS_TRAFFIC tr) /\
  ew_presses tr =
    falls (Main.lastEwBtnState (globals w))
          (levels_read Main.PIN_BTN_EW_TRAFFIC tr) /\
  ns_counted tr =
    (match p with
     | Main.PHASE_EW_GREEN | Main.PHASE_EW_YELLOW
     | Main.PHASE_PED_GREEN => ns_presses tr
     | _ => O
     end) /\
  ew_counted tr =
    (match p with
     | Main.PHASE_NS_GREEN | Main.PHASE_NS_YELLOW
     | Main.PHASE_PED_GREEN => ew_presses tr
     | _ => O
     end) /\
  Main.trafficCountNS (globals w') =
    Nat.iter (ns_counted tr) int_incr (Main.trafficCountNS (globals w)) /\
  Main.trafficCountEW (globals w') =
    Nat.iter (ew_counted tr) int_incr (Main.trafficCountEW (globals w)).
Proof.
  intros [Hp Hn He Hnp Hep Hnc Hec Hcn Hce].
  rewrite isNsRed_spec in Hnc. rewrite isEwRed_spec in Hec.
  destruct w as [g r]. cbn in *.
  repeat split; try assumption.
  - rewrite Hnc. now destruct p.
  - rewrite Hec. now destruct p.
Qed.

Lemma PedTrack_with_phase (p : Main.Phase) (w w' : World Main.Globals)
      (tr : list Event) :
  PedTrack (with_phase p w) w' tr -> PedTrack w w' tr.
Proof. intros [H1 H2 H3 H4]. constructor; assumption. Qed.

(** C6.  When [phaseNsGreen] returns, the NS count is zero, and the EW
    count is what it was on entry plus the EW press events of the dwell,
    all of which are counted, EW being red; when [phaseEwGreen] returns, the
    EW count is zero and the NS count is what it was plus the NS press
    events of the dwell.  The increments are the [++] of [readButtons]; if
    they do not overflow an [int], the sum is exact. *)
Theorem green_phase_resets_own_counter_only :
  forall (hw : nat -> Z -> bool) (w : World Main.Globals),
    let g := globals w in
    let nsG := Main.phaseNsGreen hw w in
    let ewG := Main.phaseEwGreen hw w in
    (Main.trafficCountNS (globals (post nsG)) = 0 /\
     Main.trafficCountEW (globals (post nsG)) =
       Nat.iter (ew_presses (out nsG)) int_incr (Main.trafficCountEW g) /\
     ew_presses (out nsG) =
       falls (Main.lastEwBtnState g)
             (levels_read Main.PIN_BTN_EW_TRAFFIC (out nsG)) /\
     ew_ignored (out nsG) = O /\
     (INT_MIN <= Main.trafficCountEW g ->
      Main.trafficCountEW g + Z.of_nat (ew_presses (out nsG)) <= INT_MAX ->
      Main.trafficCountEW (globals (post nsG)) =
        Main.trafficCountEW g + Z.of_nat (ew_presses (out nsG)))) /\
    (Main.trafficCountEW (globals (post ewG)) = 0 /\
     Main.trafficCountNS (globals (post ewG)) =
       Nat.iter (ns_presses (out ewG)) int_incr (Main.trafficCountNS g) /\
     ns_presses (out ewG) =
       falls (Main.lastNsBtnState g)
             (levels_read Main.PIN_BTN_NS_TRAFFIC (out ewG)) /\
     ns_ignored (out ewG) = O /\
     (INT_MIN <= Main.trafficCountNS g ->
      Main.trafficCountNS g + Z.of_nat (ns_presses (out ewG)) <= INT_MAX ->
      Main.trafficCountNS (globals (post ewG)) =
        Main.trafficCountNS g + Z.of_nat (ns_presses (out ewG)))).
Proof.
  intros hw w g nsG ewG. split.
  - destruct (phaseNsGreen_run hw w) as (dwell & [HP _] & Heq).
    subst nsG. rewrite Heq. cbn [post out].
    specialize (HP (with_phase Main.PHASE_NS_GREEN w)).
    pose proof (Polled_trans _ _ _ _ _
                  (Polled_lamps _ (Main.PIN_NS_RED, Main.PIN_NS_GREEN)) HP)
      as HQ.
    apply Polled_with_phase in HQ.
    destruct HQ as (_ & _ & _ & _ & Hep & _ & Hec & _ & Hce).
    fold g in Hep, Hce.
    assert (Hig : ew_ignored
                    (two_step (Main.PIN_NS_RED, Main.PIN_NS_GREEN) ++
                     out (dwell (with_phase Main.PHASE_NS_GREEN w))) = O)
      by (unfold ew_presses in Hec; lia).
    rewrite <- Hec.
    split; [reflexivity|]. split; [exact Hce|]. split; [now rewrite Hec|].
    split; [exact Hig|].
    intros Hlo Hhi. cbn [globals with_countNS Main.set_trafficCountNS
                           Main.trafficCountEW].
    cbn [globals with_countNS Main.set_trafficCountNS Main.trafficCountEW]
      in Hce.
    rewrite Hce. apply iter_incr_small; assumption.
  - destruct (phaseEwGreen_run hw w) as (dwell & [HP _] & Heq).
    subst ewG. rewrite Heq. cbn [post out].
    specialize (HP (with_phase Main.PHASE_EW_GREEN w)).
    pose proof (Polled_trans _ _ _ _ _
                  (Polled_lamps _ (Main.PIN_EW_RED, Main.PIN_EW_GREEN)) HP)
      as HQ.
    apply Polled_with_phase in HQ.
    destruct HQ as (_ & _ & _ & Hnp & _ & Hnc & _ & Hcn & _).
    fold g in Hnp, Hcn.
    assert (Hig : ns_ignored
                    (two_step (Main.PIN_EW_RED, Main.PIN_EW_GREEN) ++
                     out (dwell (with_phase Main.PHASE_EW_GREEN w))) = O)
      by (unfold ns_presses in Hnc; lia).
    rewrite <- Hnc.
    split; [reflexivity|]. split; [exact Hcn|]. split; [now rewrite Hnc|].
    split; [exact Hig|].
    intros Hlo Hhi. cbn [globals with_countEW Main.set_trafficCountEW
                           Main.trafficCountNS].
    cbn [globals with_countEW Main.set_trafficCountEW Main.trafficCountNS]
      in Hcn.
    rewrite Hcn. apply iter_incr_small; assumption.
Qed.

Lemma green_phase_resets_own_counter_only_witness :
  let hw : nat -> Z -> bool :=
    fun k pin => negb ((pin =? Main.PIN_BTN_EW_TRAFFIC) &&
                       (4 <=? k)%nat && (k <=? 10)%nat) in
  let nsG := Main.phaseNsGreen hw boot in
  INT_MIN <= Main.trafficCountEW (globals boot) /\
  Main.trafficCountEW (globals boot) + Z.of_nat (ew_presses (out nsG))
    <= INT_MAX /\
  Main.trafficCountEW (globals (post nsG)) =
    Main.trafficCountEW (globals boot) + Z.of_nat (ew_presses (out nsG)).
Proof.
  intros hw nsG.
  assert (H1 : INT_MIN <= Main.trafficCountEW (globals boot))
    by (vm_compute; discriminate).
  assert (H2 : Main.trafficCountEW (globals boot) +
               Z.of_nat (ew_presses (out nsG)) <= INT_MAX)
    by (vm_compute; discriminate).
  split; [exact H1|]. split; [exact H2|].
  destruct (green_phase_resets_own_counter_only hw boot)
    as ((_ & _ & _ & _ & H) & _).
  exact (H H1 H2).
Defined.

Lemma PedTrack_lamps (w : World Main.Globals) (lamp : Z * Z) :
  snd lamp <> Main.PIN_PED_GREEN -> PedTrack w w (two_step lamp).
Proof.
  intros H. constructor; try reflexivity.
  - cbn. now rewrite orb_false_r.
  - unfold ped_runs, count_events, two_step, baseline. cbn.
    destruct (Z.eqb_spec (snd lamp) Main.PIN_PED_GREEN); [contradiction|].
    now rewrite andb_false_r.
Qed.

Lemma PedTrack_post (f : Main.Globals -> Main.Globals)
      (w w' : World Main.Globals) (tr : list Event) :
  (forall g, Main.pedRequest (f g) = Main.pedRequest g /\
             Main.lastPedBtnState (f g) = Main.lastPedBtnState g) ->
  PedTrack w w' tr -> PedTrack w (mkWorld (f (globals w')) (reads w')) tr.
Proof.
  intros Hf [H1 H2 H3 H4]. destruct (Hf (globals w')) as [F1 F2].
  constructor; cbn [globals]; congruence.
Qed.

(** The four vehicle phases set the latch on a press and never clear it. *)
Lemma vehicle_phases_pedtrack (hw : nat -> Z -> bool) :
  Steps PedTrack (Main.phaseNsGreen hw) /\
  Steps PedTrack (Main.phaseNsYellow hw) /\
  Steps PedTrack (Main.phaseEwGreen hw) /\
  Steps PedTrack (Main.phaseEwYellow hw).
Proof.
  split; [|split; [|split]]; intros w.
  - destruct (phaseNsGreen_run hw w) as (dwell & [_ HT] & Heq).
    rewrite Heq; cbn [post out].
    apply (PedTrack_post (Main.set_trafficCountNS 0)); [now split|].
    eapply PedTrack_trans;
      [apply PedTrack_lamps; discriminate|].
    apply (PedTrack_with_phase Main.PHASE_NS_GREEN), HT.
  - destruct (phaseNsYellow_run hw w) as (dwell & [_ HT] & Heq).
    rewrite Heq. apply (PedTrack_with_phase Main.PHASE_NS_YELLOW), HT.
  - destruct (phaseEwGreen_run hw w) as (dwell & [_ HT] & Heq).
    rewrite Heq; cbn [post out].
    apply (PedTrack_post (Main.set_trafficCountEW 0)); [now split|].
    eapply PedTrack_trans;
      [apply PedTrack_lamps; discriminate|].
    apply (PedTrack_with_phase Main.PHASE_EW_GREEN), HT.
  - destruct (phaseEwYellow_run hw w) as (dwell & [_ HT] & Heq).
    rewrite Heq. apply (PedTrack_with_phase Main.PHASE_EW_YELLOW), HT.
Qed.

(** The pedestrian phase, when it runs: the green lamp is switched on once,
    the dwell polls the buttons with both axes red, and at the end the
    latch is cleared whatever was pressed meanwhile. *)
Lemma phasePedestrian_served (hw : nat -> Z -> bool) (w : World Main.Globals) :
  Main.pedRequest (globals w) = true ->
  let p := Main.phasePedestrianIfRequested hw w in
  Main.pedRequest (globals (post p)) = false /\
  ped_runs (out p) = 1%nat /\
  Main.currentPhase (globals (post p)) = Main.PHASE_PED_GREEN /\
  Main.lastPedBtnState (globals (post p)) =
    last (levels_read Main.PIN_BTN_PED_REQUEST (out p))
         (Main.lastPedBtnState (globals w)) /\
  ped_presses (out p) =
    falls (Main.lastPedBtnState (globals w))
          (levels_read Main.PIN_BTN_PED_REQUEST (out p)) /\
  (ns_ignored (out p) = O /\ ew_ignored (out p) = O) /\
  Main.trafficCountNS (globals (post p)) =
    Nat.iter (ns_presses (out p)) int_incr (Main.trafficCountNS (globals w)) /\
  Main.trafficCountEW (globals (post p)) =
    Nat.iter (ew_presses (out p)) int_incr (Main.trafficCountEW (globals w)) /\
  ns_presses (out p) =
    falls (Main.lastNsBtnState (globals w))
          (levels_read Main.PIN_BTN_NS_TRAFFIC (out p)) /\
  ew_presses (out p) =
    falls (Main.lastEwBtnState (globals w))
          (levels_read Main.PIN_BTN_EW_TRAFFIC (out p)).
Proof.
  intros Hreq p.
  destruct (phasePedestrian_run hw w Hreq) as (dwell & [HP HT] & Heq).
  subst p. rewrite Heq. cbn [post out].
  specialize (HP (with_phase Main.PHASE_PED_GREEN w)).
  specialize (HT (with_phase Main.PHASE_PED_GREEN w)).
  set (d := dwell (with_phase Main.PHASE_PED_GREEN w)) in *.
  set (tail := baseline ++ _).
  assert (HPt : Polled (post d) (post d) tail)
    by (constructor; try reflexivity;
        [now destruct (val (Main.isNsRed (post d)))
        |now destruct (val (Main.isEwRed (post d)))]).
  pose proof (Polled_trans _ _ _ _ _
                (Polled_lamps _ (Main.PIN_PED_RED, Main.PIN_PED_GREEN))
                (Polled_trans _ _ _ _ _ HP HPt)) as HQ.
  apply Polled_with_phase in HQ.
  destruct HQ as (Hph & _ & _ & Hnp & Hep & Hnc & Hec & Hcn & Hce).
  destruct HT as [_ Hl Hpp Hr].
  assert (Hruns : ped_runs (two_step (Main.PIN_PED_RED, Main.PIN_PED_GREEN)
                            ++ out d ++ tail) = 1%nat)
    by (unfold ped_runs in *; rewrite !count_events_app, Hr; reflexivity).
  assert (Hlv : levels_read Main.PIN_BTN_PED_REQUEST
                  (two_step (Main.PIN_PED_RED, Main.PIN_PED_GREEN)
                   ++ out d ++ tail) =
                levels_read Main.PIN_BTN_PED_REQUEST (out d))
    by (rewrite !levels_read_app; cbn; now rewrite app_nil_r).
  assert (Hpr : ped_presses (two_step (Main.PIN_PED_RED, Main.PIN_PED_GREEN)
                             ++ out d ++ tail) = ped_presses (out d))
    by (unfold ped_presses; rewrite !count_events_app; cbn; lia).
  rewrite Hlv, Hpr.
  split; [reflexivity|]. split; [exact Hruns|]. split; [exact Hph|].
  split; [exact Hl|]. split; [exact Hpp|].
  split; [unfold ns_presses, ew_presses in Hnc, Hec; lia|].
  rewrite <- Hnc, <- Hec. rewrite Hnc at 2. rewrite Hec at 2.
  repeat split; assumption.
Qed.

(** ** The cycle *)

Lemma then_run {G A B} (m : M G A) (k : M G B) (w : World G) :
  (m ;; k) w =
  mkRes (val (k (post (m w)))) (post (k (post (m w))))
        (out (m w) ++ out (k (post (m w)))).
Proof. apply bind_run. Qed.

Lemma ped_runs_app (a b : list Event) :
  ped_runs (a ++ b) = (ped_runs a + ped_runs b)%nat.
Proof. apply count_events_app. Qed.

(** At an insertion point the pedestrian phase runs if and only if the
    latch is set, and the latch is clear afterwards either way. *)
Lemma insertion_point (hw : nat -> Z -> bool) (w : World Main.Globals) :
  let p := Main.phasePedestrianIfRequested hw w in
  ped_runs (out p) = (if Main.pedRequest (globals w) then 1 else 0)%nat /\
  Main.pedRequest (globals (post p)) = false /\
  (Main.pedRequest (globals w) = false -> p = mkRes tt w []).
Proof.
  intros p. subst p. destruct (Main.pedRequest (globals w)) eqn:Hreq.
  - destruct (phasePedestrian_served hw w Hreq) as (H1 & H2 & _).
    repeat split; [exact H2|exact H1|discriminate].
  - rewrite (phasePedestrian_skipped hw w Hreq). cbn.
    repeat split; auto.
Qed.

(** C7.  One pass of [loop] is NS green, NS yellow, an insertion point, EW
    green, EW yellow, an insertion point.  The pedestrian green lamp is
    never switched on by a vehicle phase; at each insertion point the
    pedestrian phase runs if and only if the latch is set there, and leaves
    the latch clear.  So when a pedestrian press event arrives during NS
    green and none during the EW half of the cycle, the pedestrian phase
    runs right after NS yellow, the latch is clear after it, and it runs
    once in the pass. *)
Theorem pedestrian_phase_iff_latched :
  forall (hw : nat -> Z -> bool) (w : World Main.Globals),
    let g1 := Main.phaseNsGreen hw w in
    let y1 := Main.phaseNsYellow hw (post g1) in
    let p1 := Main.phasePedestrianIfRequested hw (post y1) in
    let g2 := Main.phaseEwGreen hw (post p1) in
    let y2 := Main.phaseEwYellow hw (post g2) in
    let p2 := Main.phasePedestrianIfRequested hw (post y2) in
    (post (Main.loop hw w) = post p2 /\
     out (Main.loop hw w) =
       out g1 ++ out y1 ++ out p1 ++ out g2 ++ out y2 ++ out p2) /\
    (ped_runs (out g1) = O /\ ped_runs (out y1) = O /\
     ped_runs (out g2) = O /\ ped_runs (out y2) = O) /\
    (ped_runs (out p1) =
       (if Main.pedRequest (globals (post y1)) then 1 else 0)%nat /\
     ped_runs (out p2) =
       (if Main.pedRequest (globals (post y2)) then 1 else 0)%nat) /\
    (Main.pedRequest (globals (post p1)) = false /\
     Main.pedRequest (globals (post p2)) = false) /\
    ((1 <= ped_presses (out g1))%nat ->
     ped_presses (out g2) = O -> ped_presses (out y2) = O ->
     ped_runs (out p1) = 1%nat /\
     ped_runs (out p2) = O /\
     ped_runs (out (Main.loop hw w)) = 1%nat).
Proof.
  intros hw w g1 y1 p1 g2 y2 p2.
  destruct (vehicle_phases_pedtrack hw) as (Tg1 & Ty1 & Tg2 & Ty2).
  pose proof (Tg1 w) as Hg1. pose proof (Ty1 (post g1)) as Hy1.
  pose proof (Tg2 (post p1)) as Hg2. pose proof (Ty2 (post g2)) as Hy2.
  fold g1 in Hg1. fold y1 in Hy1. fold g2 in Hg2. fold y2 in Hy2.
  destruct (insertion_point hw (post y1)) as (R1 & L1 & _).
  destruct (insertion_point hw (post y2)) as (R2 & L2 & _).
  fold p1 in R1, L1. fold p2 in R2, L2.
  assert (Hloop : Main.loop hw w =
                  mkRes (val p2) (post p2)
                        (out g1 ++ out y1 ++ out p1 ++ out g2 ++ out y2 ++
                         out p2))
    by (unfold Main.loop; rewrite !then_run; reflexivity).
  split; [now rewrite Hloop|].
  split; [repeat split; eapply ped_no_run; eassumption|].
  split; [split; assumption|]. split; [split; assumption|].
  intros Hpress Hq2 Hq3.
  assert (Hl1 : Main.pedRequest (globals (post y1)) = true).
  { rewrite (ped_latch _ _ _ Hy1), (ped_latch _ _ _ Hg1).
    destruct (ped_presses (out g1)); [lia|]. cbn. now rewrite orb_true_r. }
  assert (Hl2 : Main.pedRequest (globals (post y2)) = false).
  { rewrite (ped_latch _ _ _ Hy2), (ped_latch _ _ _ Hg2), L1, Hq2, Hq3.
    reflexivity. }
  rewrite Hl1 in R1. rewrite Hl2 in R2.
  split; [exact R1|]. split; [exact R2|].
  rewrite Hloop. cbn [out]. rewrite !ped_runs_app, R1, R2.
  rewrite (ped_no_run _ _ _ Hg1), (ped_no_run _ _ _ Hy1),
    (ped_no_run _ _ _ Hg2), (ped_no_run _ _ _ Hy2). reflexivity.
Qed.

Lemma pedestrian_phase_iff_latched_witness :
  let hw : nat -> Z -> bool :=
    fun k pin => negb ((pin =? Main.PIN_BTN_PED_REQUEST) &&
                       (30 <=? k)%nat && (k <=? 40)%nat) in
  let g1 := Main.phaseNsGreen hw boot in
  let y1 := Main.phaseNsYellow hw (post g1) in
  let p1 := Main.phasePedestrianIfRequested hw (post y1) in
  let g2 := Main.phaseEwGreen hw (post p1) in
  let y2 := Main.phaseEwYellow hw (post g2) in
  let p2 := Main.phasePedestrianIfRequested hw (post y2) in
  (1 <= ped_presses (out g1))%nat /\
  ped_presses (out g2) = O /\ ped_presses (out y2) = O /\
  ped_runs (out p1) = 1%nat /\
  ped_runs (out p2) = O /\
  ped_runs (out (Main.loop hw boot)) = 1%nat.
Proof.
  intros hw g1 y1 p1 g2 y2 p2.
  assert (H1 : (1 <= ped_presses (out g1))%nat)
    by (vm_compute; apply le_n).
  assert (H2 : ped_presses (out g2) = O) by (vm_compute; reflexivity).
  assert (H3 : ped_presses (out y2) = O) by (vm_compute; reflexivity).
  split; [exact H1|]. split; [exact H2|]. split; [exact H3|].
  destruct (pedestrian_phase_iff_latched hw boot) as (_ & _ & _ & _ & H).
  exact (H H1 H2 H3).
Defined.

(** ** Two presses are one request *)











(** ** Presses during the pedestrian phase *)

Lemma withlcd_pedestrian_clears_latch
      (hw : nat -> Z -> bool) (w : World WithLcd.Globals) :
  WithLcd.pedRequest
    (globals (post (WithLcd.phasePedestrianIfRequested hw w))) = false.
Proof.
  unfold WithLcd.phasePedestrianIfRequested.
  unfold bind at 1, gets at 1.
  destruct (WithLcd.pedRequest (globals w)) eqn:Hreq; cbn [negb].
  - unfold bind. cbn.
    now destruct (repeatM _ _ _) as [[] w2 t2].
  - cbn. exact Hreq.
Qed.

(** C9.  When the pedestrian phase runs, the latch is clear when it
    returns, whatever the pedestrian button did during the dwell: a press
    event sets the latch in any call of [readButtons], those of the dwell
    included, and the assignment that ends the phase clears it.  If no press event follows
    in the next green and yellow phases, the next insertion point does
    nothing at all.  The phase of [main_withlcd.cpp] clears the latch in the
    same way. *)
Theorem press_during_pedestrian_phase_is_lost :
  forall (hw : nat -> Z -> bool) (w : World Main.Globals)
         (v : World WithLcd.Globals),
    Main.pedRequest (globals w) = true ->
    let p := Main.phasePedestrianIfRequested hw w in
    let g := Main.phaseEwGreen hw (post p) in
    let y := Main.phaseEwYellow hw (post g) in
    let g' := Main.phaseNsGreen hw (post p) in
    let y' := Main.phaseNsYellow hw (post g') in
    ped_runs (out p) = 1%nat /\
    ped_presses (out p) =
      falls (Main.lastPedBtnState (globals w))
            (levels_read Main.PIN_BTN_PED_REQUEST (out p)) /\
    (forall w0 : World Main.Globals,
        Main.pedRequest (globals (post (Main.readButtons hw w0))) =
        Main.pedRequest (globals w0) ||
        negb (hw (S (S (reads w0))) Main.PIN_BTN_PED_REQUEST) &&
        Main.lastPedBtnState (globals w0)) /\
    Main.pedRequest (globals (post p)) = false /\
    (ped_presses (out g) = O -> ped_presses (out y) = O ->
     Main.phasePedestrianIfRequested hw (post y) = mkRes tt (post y) []) /\
    (ped_presses (out g') = O -> ped_presses (out y') = O ->
     Main.phasePedestrianIfRequested hw (post y') = mkRes tt (post y') []) /\
    WithLcd.pedRequest
      (globals (post (WithLcd.phasePedestrianIfRequested hw v))) = false.
Proof.
  intros hw w v Hreq p g y g' y'.
  destruct (phasePedestrian_served hw w Hreq) as (C & R & _ & _ & E & _).
  fold p in C, R, E.
  destruct (vehicle_phases_pedtrack hw) as (Tg1 & Ty1 & Tg2 & Ty2).
  split; [exact R|]. split; [exact E|]. split.
  { intros w0. rewrite readButtons_run. reflexivity. }
  split; [exact C|]. split; [|split].
  - intros Hg Hy. apply phasePedestrian_skipped.
    pose proof (ped_latch _ _ _ (Ty2 (post g))) as L2.
    pose proof (ped_latch _ _ _ (Tg2 (post p))) as L1.
    fold g in L1. fold y in L2. now rewrite L2, L1, Hg, Hy, C.
  - intros Hg Hy. apply phasePedestrian_skipped.
    pose proof (ped_latch _ _ _ (Ty1 (post g'))) as L2.
    pose proof (ped_latch _ _ _ (Tg1 (post p))) as L1.
    fold g' in L1. fold y' in L2. now rewrite L2, L1, Hg, Hy, C.
  - apply withlcd_pedestrian_clears_latch.
Qed.

(** A press and release of the pedestrian button in the middle of the
    pedestrian dwell: it gives a press event, and neither the phase that is
    running nor the next insertion point serves it. *)
Lemma press_during_pedestrian_phase_is_lost_witness :
  let hw : nat -> Z -> bool :=
    fun k pin => negb ((pin =? Main.PIN_BTN_PED_REQUEST) &&
                       (300 <=? k)%nat && (k <=? 330)%nat) in
  let w := with_pedRequest true boot in
  let p := Main.phasePedestrianIfRequested hw w in
  let g := Main.phaseEwGreen hw (post p) in
  let y := Main.phaseEwYellow hw (post g) in
  Main.pedRequest (globals w) = true /\
  ped_presses (out p) = 1%nat /\
  ped_presses (out g) = O /\ ped_presses (out y) = O /\
  Main.pedRequest (globals (post p)) = false /\
  Main.phasePedestrianIfRequested hw (post y) = mkRes tt (post y) [].
Proof.
  intros hw w p g y.
  assert (H0 : Main.pedRequest (globals w) = true) by reflexivity.
  assert (H1 : ped_presses (out p) = 1%nat) by (vm_compute; reflexivity).
  assert (H2 : ped_presses (out g) = O) by (vm_compute; reflexivity).
  assert (H3 : ped_presses (out y) = O) by (vm_compute; reflexivity).
  split; [exact H0|]. split; [exact H1|]. split; [exact H2|].
  split; [exact H3|].
  destruct (press_during_pedestrian_phase_is_lost
              hw w (mkWorld WithLcd.initial 0) H0)
    as (_ & _ & _ & C & N & _).
  split; [exact C|exact (N H2 H3)].
Defined.

(** C10.  In the pedestrian phase both [isNsRed] and [isEwRed] answer
    true, so a press event of either traffic button in a call of
    [readButtons] increments the count of its axis; and over the whole dwell
    of the pedestrian phase every press event of a traffic button is
    counted, none is ignored. *)
Theorem traffic_counted_during_pedestrian_phase :
  forall (hw : nat -> Z -> bool) (w : World Main.Globals),
    let g := globals w in
    let r := Main.readButtons hw w in
    let nsPress :=
      negb (hw (reads w) Main.PIN_BTN_NS_TRAFFIC) && Main.lastNsBtnState g in
    let ewPress :=
      negb (hw (S (reads w)) Main.PIN_BTN_EW_TRAFFIC) &&
      Main.lastEwBtnState g in
    let p := Main.phasePedestrianIfRequested hw w in
    (Main.currentPhase g = Main.PHASE_PED_GREEN ->
     val (Main.isNsRed w) = true /\
     val (Main.isEwRed w) = true /\
     Main.trafficCountNS (globals (post r)) =
       (if nsPress then int_incr (Main.trafficCountNS g)
        else Main.trafficCountNS g) /\
     Main.trafficCountEW (globals (post r)) =
       (if ewPress then int_incr (Main.trafficCountEW g)
        else Main.trafficCountEW g) /\
     (INT_MIN <= Main.trafficCountNS g < INT_MAX -> nsPress = true ->
      Main.trafficCountNS (globals (post r)) = Main.trafficCountNS g + 1) /\
     (INT_MIN <= Main.trafficCountEW g < INT_MAX -> ewPress = true ->
      Main.trafficCountEW (globals (post r)) = Main.trafficCountEW g + 1)) /\
    (Main.pedRequest g = true ->
     Main.currentPhase (globals (post p)) = Main.PHASE_PED_GREEN /\
     ns_ignored (out p) = O /\ ew_ignored (out p) = O /\
     Main.trafficCountNS (globals (post p)) =
       Nat.iter (ns_presses (out p)) int_incr (Main.trafficCountNS g) /\
     Main.trafficCountEW (globals (post p)) =
       Nat.iter (ew_presses (out p)) int_incr (Main.trafficCountEW g) /\
     ns_presses (out p) =
       falls (Main.lastNsBtnState g)
             (levels_read Main.PIN_BTN_NS_TRAFFIC (out p)) /\
     ew_presses (out p) =
       falls (Main.lastEwBtnState g)
             (levels_read Main.PIN_BTN_EW_TRAFFIC (out p))).
Proof.
  intros hw w g r nsPress ewPress p. split.
  - intros Hph. subst r. rewrite readButtons_run. cbv zeta.
    rewrite isNsRed_spec, isEwRed_spec. cbn [val post globals].
    fold g nsPress ewPress. rewrite Hph, !andb_true_r.
    cbn [Main.trafficCountNS Main.trafficCountEW].
    repeat split.
    + intros Hr Hp. rewrite Hp. now apply int_incr_small.
    + intros Hr Hp. rewrite Hp. now apply int_incr_small.
  - intros Hreq.
    destruct (phasePedestrian_served hw w Hreq)
      as (_ & _ & Hph & _ & _ & (I1 & I2) & C1 & C2 & P1 & P2).
    fold p g in Hph, I1, I2, C1, C2, P1, P2.
    repeat split; assumption.
Qed.

Lemma traffic_counted_during_pedestrian_phase_witness :
  let hw : nat -> Z -> bool :=
    fun k pin => negb ((pin =? Main.PIN_BTN_NS_TRAFFIC) &&
                       (300 <=? k)%nat && (k <=? 330)%nat) in
  let w := with_pedRequest true boot in
  let p := Main.phasePedestrianIfRequested hw w in
  Main.pedRequest (globals w) = true /\
  ns_presses (out p) = 1%nat /\
  Main.trafficCountNS (globals (post p)) =
    Nat.iter (ns_presses (out p)) int_incr (Main.trafficCountNS (globals w)) /\
  Main.trafficCountNS (globals (post p)) = 1.
Proof.
  intros hw w p.
  assert (H0 : Main.pedRequest (globals w) = true) by reflexivity.
  assert (H1 : ns_presses (out p) = 1%nat) by (vm_compute; reflexivity).
  split; [exact H0|]. split; [exact H1|].
  destruct (traffic_counted_during_pedestrian_phase hw w) as (_ & H).
  destruct (H H0) as (_ & _ & _ & C & _).
  split; [exact C|].
  transitivity
    (Nat.iter (ns_presses (out p)) int_incr (Main.trafficCountNS (globals w)));
    [exact C|].
  rewrite H1. reflexivity.
Defined.

(** * Further properties of the two sketches *)

(** ** Lamps along a trace *)

Lemma replay_app (g : Gpio) (a b : list Event) :
  replay g (a ++ b) = replay (replay g a) b.
Proof. apply fold_left_app. Qed.

Lemma scan_app (g : Gpio) (a b : list Event) :
  scan g (a ++ b) = scan g a ++ scan (replay g a) b.
Proof.
  revert g. induction a as [|e a IH]; intros g; [reflexivity|].
  cbn [app scan]. now rewrite IH.
Qed.

Lemma Moves_nil (I J : Gpio -> bool) : Moves I J I [].
Proof. intros g0 H. split; [reflexivity|exact H]. Qed.

Lemma Moves_app (I J K L : Gpio -> bool) (a b : list Event) :
  Moves I J K a -> Moves K J L b -> Moves I J L (a ++ b).
Proof.
  intros Ha Hb g0 H. destruct (Ha g0 H) as [A1 A2].
  destruct (Hb _ A2) as [B1 B2].
  rewrite scan_app, forallb_app, replay_app, A1, B1. now split.
Qed.

(** A trace without writes leaves the pins as they are. *)
Lemma no_writes_replay (g : Gpio) (tr : list Event) :
  forallb not_write tr = true -> replay g tr = g.
Proof.
  induction tr as [|e tr IH]; [reflexivity|].
  cbn [forallb]. rewrite andb_true_iff. intros [He Htr].
  destruct e; try discriminate; cbn; apply IH, Htr.
Qed.

Lemma no_writes_keeps (I J : Gpio -> bool) (tr : list Event) :
  (forall g, I g = true -> J g = true) ->
  forallb not_write tr = true -> Keeps I J tr.
Proof.
  intros IJ Hnw g0 H. split; [|now rewrite no_writes_replay].
  induction tr as [|e tr IH]; [reflexivity|].
  cbn [forallb] in Hnw. apply andb_true_iff in Hnw. destruct Hnw as [He Htr].
  destruct e; try discriminate; cbn [scan drive forallb];
    rewrite (IJ _ H); apply IH, Htr.
Qed.

(** ** One call of [readButtons] in [main_withlcd.cpp] *)

(** The three levels it samples, what becomes of every global variable, and
    the events it emits: the counts go up on a press event whatever the
    lamps show, but not beyond [MAX_TRAFFIC_COUNT]. *)
Lemma withlcd_readButtons_run
      (hw : nat -> Z -> bool) (w : World WithLcd.Globals) :
  let a := hw (reads w) WithLcd.PIN_BTN_NS_TRAFFIC in
  let b := hw (S (reads w)) WithLcd.PIN_BTN_EW_TRAFFIC in
  let c := hw (S (S (reads w))) WithLcd.PIN_BTN_PED_REQUEST in
  let g := globals w in
  let nsEdge := negb a && WithLcd.lastNsBtnState g in
  let ewEdge := negb b && WithLcd.lastEwBtnState g in
  let pedEdge := negb c && WithLcd.lastPedBtnState g in
  let ns' :=
    if nsEdge && (WithLcd.trafficCountNS g <? WithLcd.MAX_TRAFFIC_COUNT)
    then int_incr (WithLcd.trafficCountNS g) else WithLcd.trafficCountNS g in
  let ew' :=
    if ewEdge && (WithLcd.trafficCountEW g <? WithLcd.MAX_TRAFFIC_COUNT)
    then int_incr (WithLcd.trafficCountEW g) else WithLcd.trafficCountEW g in
  WithLcd.readButtons hw w =
  mkRes tt
    (mkWorld
       (WithLcd.mkGlobals ns' ew' (WithLcd.pedRequest g || pedEdge) a b c)
       (S (S (S (reads w)))))
    (DigitalRead WithLcd.PIN_BTN_NS_TRAFFIC a ::
     (if nsEdge then
        [LcdClear; LcdSetCursor 0 0; LcdPrintStr "NS traffic cnt";
         LcdSetCursor 0 1; LcdPrintStr "NS = "; LcdPrintInt ns'; Delay 400]
      else []) ++
     DigitalRead WithLcd.PIN_BTN_EW_TRAFFIC b ::
     (if ewEdge then
        [LcdClear; LcdSetCursor 0 0; LcdPrintStr "EW traffic cnt";
         LcdSetCursor 0 1; LcdPrintStr "EW = "; LcdPrintInt ew'; Delay 400]
      else []) ++
     DigitalRead WithLcd.PIN_BTN_PED_REQUEST c ::
     (if pedEdge then
        [LcdClear; LcdSetCursor 0 0; LcdPrintStr "Pedestrian Req";
         LcdSetCursor 0 1; LcdPrintStr "Stored."; Delay 400]
      else [])).
Proof.
  destruct w as [[cn ce pr ln le lp] r]. cbv zeta. cbn [globals reads].
  unfold WithLcd.readButtons, WithLcd.lcdShowTwoLines, bind, gets, modify,
    ret, digitalRead, lcdClear, lcdSetCursor, lcdPrint, lcdPrintInt, delay,
    emit, WithLcd.set_trafficCountNS, WithLcd.set_trafficCountEW,
    WithLcd.set_pedRequest, WithLcd.set_lastNsBtnState,
    WithLcd.set_lastEwBtnState, WithLcd.set_lastPedBtnState.
  repeat first
    [ progress (cbn -[Z.ltb])
    | progress (rewrite pressed_edge)
    | match goal with
      | H : negb ?a && ?l = _ |- context [negb ?a && ?l] => rewrite H
      end
    | match goal with
      | |- context [if negb ?a && ?l then _ else _] =>
          destruct (negb a && l) eqn:?
      end
    | match goal with
      | |- context [if ?c <? ?m then _ else _] => destruct (c <? m)
      end
    | progress (rewrite ?orb_true_r, ?orb_false_r) ];
    reflexivity.
Qed.

Lemma readButtons_no_writes (hw : nat -> Z -> bool) (w : World Main.Globals) :
  forallb not_write (out (Main.readButtons hw w)) = true.
Proof.
  rewrite readButtons_run. cbv zeta. cbn [out].
  destruct (negb _ && Main.lastNsBtnState _), (val (Main.isNsRed w)),
    (negb _ && Main.lastEwBtnState _), (val (Main.isEwRed w)),
    (negb _ && Main.lastPedBtnState _); reflexivity.
Qed.

Lemma withlcd_readButtons_no_writes
      (hw : nat -> Z -> bool) (w : World WithLcd.Globals) :
  forallb not_write (out (WithLcd.readButtons hw w)) = true.
Proof.
  rewrite withlcd_readButtons_run. cbv zeta. cbn [out].
  destruct (negb _ && WithLcd.lastNsBtnState _),
    (negb _ && WithLcd.lastEwBtnState _),
    (negb _ && WithLcd.lastPedBtnState _); reflexivity.
Qed.

Section LampRules.
Context {G : Type} (I J : Gpio -> bool).
Hypothesis IJ : forall g, I g = true -> J g = true.

Lemma LampP_refl (w : World G) : LampP I J w w [].
Proof. apply Moves_nil. Qed.

Lemma LampP_trans (w w1 w2 : World G) (t1 t2 : list Event) :
  LampP I J w w1 t1 -> LampP I J w1 w2 t2 -> LampP I J w w2 (t1 ++ t2).
Proof. apply Moves_app. Qed.

Lemma LampP_no_writes {A} (m : M G A) :
  (forall w, forallb not_write (out (m w)) = true) -> Steps (LampP I J) m.
Proof. intros H w. apply no_writes_keeps; [exact IJ|apply H]. Qed.

Lemma LampP_emit (e : Event) :
  not_write e = true -> Steps (LampP I J) (emit e : M G unit).
Proof.
  intros H. apply LampP_no_writes. intros w. cbn. now rewrite H.
Qed.

Lemma LampP_modify (f : G -> G) : Steps (LampP I J) (modify f).
Proof. intros w. apply Moves_nil. Qed.
End LampRules.

(** One rule per shape of program, for the lamps: [IJ] proves that [I]
    implies [J], [on_set] what the four vehicle [set...State] operations
    do, each taken as a whole. *)
Ltac lamp_steps IJ on_set :=
  repeat
    lazymatch goal with
    | |- Steps _ (bind _ _) => apply (steps_bind _ (LampP_trans _ _)); [|intros ?]
    | |- Steps _ (ret _) => apply (steps_ret _ (LampP_refl _ _))
    | |- Steps _ (gets _) => apply (steps_gets _ (LampP_refl _ _))
    | |- Steps _ (modify _) => apply LampP_modify
    | |- Steps _ (repeatM _ _) =>
        apply (steps_repeatM _ (LampP_refl _ _) (LampP_trans _ _))
    | |- Steps _ (countdown _ _) =>
        apply (steps_countdown _ (LampP_refl _ _) (LampP_trans _ _)); intros ?
    | |- Steps _ (Main.readButtons _) =>
        apply (LampP_no_writes _ _ IJ); apply readButtons_no_writes
    | |- Steps _ (WithLcd.readButtons _) =>
        apply (LampP_no_writes _ _ IJ); apply withlcd_readButtons_no_writes
    | |- Steps _ (Main.waitOneSecondWithButtons _) =>
        unfold Main.waitOneSecondWithButtons
    | |- Steps _ (Main.lcdShowTwoLines _ _) => unfold Main.lcdShowTwoLines
    | |- Steps _ (WithLcd.lcdShowTwoLines _ _) =>
        unfold WithLcd.lcdShowTwoLines
    | |- Steps _ Main.computeNsGreenSeconds =>
        unfold Main.computeNsGreenSeconds
    | |- Steps _ Main.computeEwGreenSeconds =>
        unfold Main.computeEwGreenSeconds
    | |- Steps _ WithLcd.computeNsGreenSeconds =>
        unfold WithLcd.computeNsGreenSeconds
    | |- Steps _ WithLcd.computeEwGreenSeconds =>
        unfold WithLcd.computeEwGreenSeconds
    | |- Steps _ Main.setNsGreenState => intros ?; on_set
    | |- Steps _ Main.setNsYellowState => intros ?; on_set
    | |- Steps _ Main.setEwGreenState => intros ?; on_set
    | |- Steps _ Main.setEwYellowState => intros ?; on_set
    | |- Steps _ WithLcd.setNsGreenState => intros ?; on_set
    | |- Steps _ WithLcd.setNsYellowState => intros ?; on_set
    | |- Steps _ WithLcd.setEwGreenState => intros ?; on_set
    | |- Steps _ WithLcd.setEwYellowState => intros ?; on_set
    | |- Steps _ (let _ := _ in _) => cbv zeta
    | |- Steps _ (if ?c then _ else _) => destruct c
    | |- Steps _ (delay _) => unfold delay
    | |- Steps _ lcdClear => unfold lcdClear
    | |- Steps _ (lcdSetCursor _ _) => unfold lcdSetCursor
    | |- Steps _ (lcdPrint _) => unfold lcdPrint
    | |- Steps _ (lcdPrintInt _) => unfold lcdPrintInt
    | |- Steps _ (emit _) => apply (LampP_emit _ _ IJ); reflexivity
    end.

(** ** The lamps over the whole cycle *)

Lemma safe_rest_safe_lamps (g : Gpio) :
  safe_rest g = true -> safe_lamps g = true.
Proof.
  unfold safe_rest, safe_lamps, ped_safe.
  destruct (go_safe g), (g Main.PIN_PED_GREEN); now cbn.
Qed.

Lemma no_go_safe_lamps (g : Gpio) : no_go g = true -> safe_lamps g = true.
Proof.
  unfold no_go, safe_lamps, ped_safe, go_safe, shows_go. cbn.
  destruct (g Main.PIN_NS_YELLOW), (g Main.PIN_NS_GREEN),
    (g Main.PIN_EW_YELLOW), (g Main.PIN_EW_GREEN), (g Main.PIN_PED_GREEN);
    now cbn.
Qed.

Ltac case_lamps g0 :=
  destruct (g0 Main.PIN_NS_YELLOW), (g0 Main.PIN_NS_GREEN),
    (g0 Main.PIN_EW_YELLOW), (g0 Main.PIN_EW_GREEN),
    (g0 Main.PIN_PED_GREEN).

(** A vehicle phase is set without ever lighting a second go lamp, and
    with the pedestrian green lamp off all along. *)
Lemma vehicle_set_safe :
  Forall (fun lamp => Keeps safe_rest safe_lamps (two_step lamp))
         vehicle_lamps.
Proof.
  apply Forall_forall. intros lamp Hin g0 H.
  unfold safe_rest, go_safe, shows_go in H; cbn in H.
  cbn in Hin.
  repeat (destruct Hin as [Hin|Hin]; [subst lamp|]); try contradiction;
    cbn; unfold safe_rest, safe_lamps, ped_safe, go_safe, shows_go, write_pin;
    cbn; case_lamps g0; try discriminate; split; reflexivity.
Qed.

(** The pedestrian green lamp is lit once both axes have no go lamp, and
    put out before anything else happens. *)
Lemma pedestrian_set_safe :
  Moves safe_rest safe_lamps no_go
        (two_step (Main.PIN_PED_RED, Main.PIN_PED_GREEN)) /\
  Moves no_go safe_lamps safe_rest ped_stop.
Proof.
  split; intros g0 H.
  - unfold safe_rest, go_safe, shows_go in H; cbn in H.
    cbn; unfold no_go, safe_lamps, ped_safe, go_safe, shows_go, write_pin;
      cbn; case_lamps g0; try discriminate; split; reflexivity.
  - unfold no_go, shows_go in H; cbn in H.
    cbn; unfold safe_rest, safe_lamps, ped_safe, go_safe, shows_go, write_pin;
      cbn; case_lamps g0; try discriminate; split; reflexivity.
Qed.

Lemma vehicle_set_keeps (lamp : Z * Z) :
  In lamp vehicle_lamps -> Keeps safe_rest safe_lamps (two_step lamp).
Proof.
  intros H. exact (proj1 (Forall_forall _ _) vehicle_set_safe lamp H).
Qed.

(** Solves the goal left by a [set...State] operation from what is known of
    the four vehicle lamps. *)
Ltac set_by H :=
  unfold LampP;
  first
    [ exact (H (Main.PIN_NS_RED, Main.PIN_NS_GREEN) (or_introl eq_refl))
    | exact (H (Main.PIN_NS_RED, Main.PIN_NS_YELLOW)
               (or_intror (or_introl eq_refl)))
    | exact (H (Main.PIN_EW_RED, Main.PIN_EW_GREEN)
               (or_intror (or_intror (or_introl eq_refl))))
    | exact (H (Main.PIN_EW_RED, Main.PIN_EW_YELLOW)
               (or_intror (or_intror (or_intror (or_introl eq_refl))))) ].

Lemma Still_no_writes (tr : list Event) :
  forallb not_write tr = true -> Still tr.
Proof. intros H I J IJ. now apply no_writes_keeps. Qed.

(** The shape of a pedestrian phase: captions, the pedestrian lamp set, a
    dwell without writes, the lamps put back, captions. *)
Lemma pedestrian_shape_safe (pre d post : list Event) :
  Still pre -> Still d -> Still post ->
  Keeps safe_rest safe_lamps
        (pre ++ two_step (Main.PIN_PED_RED, Main.PIN_PED_GREEN) ++ d ++
         ped_stop ++ post).
Proof.
  intros Hpre Hd Hpost. destruct pedestrian_set_safe as [Hon Hoff].
  eapply Moves_app; [apply Hpre, safe_rest_safe_lamps|].
  eapply Moves_app; [exact Hon|].
  eapply Moves_app; [apply Hd, no_go_safe_lamps|].
  eapply Moves_app; [exact Hoff|].
  apply Hpost, safe_rest_safe_lamps.
Qed.

Lemma phasePedestrian_trace (hw : nat -> Z -> bool) (w : World Main.Globals) :
  Main.pedRequest (globals w) = true ->
  exists d,
    Still d /\
    out (Main.phasePedestrianIfRequested hw w) =
    two_step (Main.PIN_PED_RED, Main.PIN_PED_GREEN) ++ d ++ ped_stop ++
    [ LcdClear; LcdSetCursor 0 0; LcdPrintStr "PEDESTRIAN";
      LcdSetCursor 0 1; LcdPrintStr "STOP"; Delay 500 ].
Proof.
  intros H. unfold Main.phasePedestrianIfRequested.
  unfold bind at 1, gets at 1. rewrite H. cbn.
  match goal with
  | |- context [countdown ?n ?b] =>
      exists (out (countdown n b (with_phase Main.PHASE_PED_GREEN w)))
  end.
  split.
  - intros I J IJ.
    match goal with
    | |- Keeps I J (out (?m ?v)) =>
        change (LampP I J v (post (m v)) (out (m v)));
        generalize v; change (Steps (LampP I J) m)
    end.
    lamp_steps IJ fail.
  - unfold with_phase, bind.
    destruct (countdown _ _ _) as [[] w2 t2]. reflexivity.
Qed.

Lemma withlcd_phasePedestrian_trace
      (hw : nat -> Z -> bool) (w : World WithLcd.Globals) :
  WithLcd.pedRequest (globals w) = true ->
  exists d,
    Still d /\
    out (WithLcd.phasePedestrianIfRequested hw w) =
    [ LcdClear; LcdSetCursor 0 0; LcdPrintStr "PEDESTRIAN";
      LcdSetCursor 0 1; LcdPrintStr "GREEN WALK" ] ++
    two_step (Main.PIN_PED_RED, Main.PIN_PED_GREEN) ++ d ++ ped_stop ++
    [ LcdClear; LcdSetCursor 0 0; LcdPrintStr "PEDESTRIAN";
      LcdSetCursor 0 1; LcdPrintStr "STOP"; Delay 500 ].
Proof.
  intros H. unfold WithLcd.phasePedestrianIfRequested.
  unfold bind at 1, gets at 1. rewrite H. cbn.
  match goal with
  | |- context [repeatM ?n ?b] => exists (out (repeatM n b w))
  end.
  split.
  - intros I J IJ.
    match goal with
    | |- Keeps I J (out (?m ?v)) =>
        change (LampP I J v (post (m v)) (out (m v)));
        generalize v; change (Steps (LampP I J) m)
    end.
    lamp_steps IJ fail.
  - unfold bind.
    destruct (repeatM _ _ _) as [[] w2 t2]. reflexivity.
Qed.

Lemma main_phases_lamps (hw : nat -> Z -> bool) :
  Steps (LampP safe_rest safe_lamps) (Main.phaseNsGreen hw) /\
  Steps (LampP safe_rest safe_lamps) (Main.phaseNsYellow hw) /\
  Steps (LampP safe_rest safe_lamps) (Main.phaseEwGreen hw) /\
  Steps (LampP safe_rest safe_lamps) (Main.phaseEwYellow hw) /\
  Steps (LampP safe_rest safe_lamps) (Main.phasePedestrianIfRequested hw).
Proof.
  split; [|split; [|split; [|split]]].
  - unfold Main.phaseNsGreen.
    lamp_steps safe_rest_safe_lamps ltac:(set_by vehicle_set_keeps).
  - unfold Main.phaseNsYellow.
    lamp_steps safe_rest_safe_lamps ltac:(set_by vehicle_set_keeps).
  - unfold Main.phaseEwGreen.
    lamp_steps safe_rest_safe_lamps ltac:(set_by vehicle_set_keeps).
  - unfold Main.phaseEwYellow.
    lamp_steps safe_rest_safe_lamps ltac:(set_by vehicle_set_keeps).
  - intros w. unfold LampP.
    destruct (Main.pedRequest (globals w)) eqn:Hreq.
    + destruct (phasePedestrian_trace hw w Hreq) as (d & Hd & Heq).
      rewrite Heq.
      apply (pedestrian_shape_safe [] d); try assumption;
        apply Still_no_writes; reflexivity.
    + rewrite (phasePedestrian_skipped hw w Hreq). apply Moves_nil.
Qed.

Lemma withlcd_phases_lamps (hw : nat -> Z -> bool) :
  Steps (LampP safe_rest safe_lamps) (WithLcd.phaseNsGreen hw) /\
  Steps (LampP safe_rest safe_lamps) (WithLcd.phaseNsYellow hw) /\
  Steps (LampP safe_rest safe_lamps) (WithLcd.phaseEwGreen hw) /\
  Steps (LampP safe_rest safe_lamps) (WithLcd.phaseEwYellow hw) /\
  Steps (LampP safe_rest safe_lamps) (WithLcd.phasePedestrianIfRequested hw).
Proof.
  split; [|split; [|split; [|split]]].
  - unfold WithLcd.phaseNsGreen.
    lamp_steps safe_rest_safe_lamps ltac:(set_by vehicle_set_keeps).
  - unfold WithLcd.phaseNsYellow.
    lamp_steps safe_rest_safe_lamps ltac:(set_by vehicle_set_keeps).
  - unfold WithLcd.phaseEwGreen.
    lamp_steps safe_rest_safe_lamps ltac:(set_by vehicle_set_keeps).
  - unfold WithLcd.phaseEwYellow.
    lamp_steps safe_rest_safe_lamps ltac:(set_by vehicle_set_keeps).
  - intros w. unfold LampP.
    destruct (WithLcd.pedRequest (globals w)) eqn:Hreq.
    + destruct (withlcd_phasePedestrian_trace hw w Hreq) as (d & Hd & Heq).
      rewrite Heq.
      apply pedestrian_shape_safe; try assumption;
        apply Still_no_writes; reflexivity.
    + unfold WithLcd.phasePedestrianIfRequested, bind, gets.
      rewrite Hreq. apply Moves_nil.
Qed.

(** X2.  Over any number of passes of [loop] in [main.cpp], started with
    safe go lamps and the pedestrian green lamp off, as [setup] leaves them:
    after every single event, green or yellow is lit on one axis at most,
    never green with yellow on one head, and the pedestrian green lamp is
    lit only while no vehicle lamp is green or yellow; and the passes end
    as they started. *)
Theorem main_cycle_lamps_safe :
  forall (hw : nat -> Z -> bool) (n : nat) (w : World Main.Globals)
         (g0 : Gpio),
    safe_rest g0 = true ->
    let tr := out (repeatM n (Main.loop hw) w) in
    forallb safe_lamps (scan g0 tr) = true /\
    safe_rest (replay g0 tr) = true.
Proof.
  intros hw n w g0 H tr. subst tr.
  destruct (main_phases_lamps hw) as (H1 & H2 & H3 & H4 & H5).
  assert (HL : Steps (LampP safe_rest safe_lamps) (Main.loop hw))
    by (unfold Main.loop;
        do 5 (apply (steps_bind _ (LampP_trans _ _)); [assumption|intros _]);
        assumption).
  exact (steps_repeatM _ (LampP_refl _ _) (LampP_trans _ _) n _ HL w g0 H).
Qed.

Lemma main_cycle_lamps_safe_witness :
  let hw : nat -> Z -> bool :=
    fun k pin => negb ((pin =? Main.PIN_BTN_PED_REQUEST) &&
                       (30 <=? k)%nat && (k <=? 40)%nat) in
  let tr := out (repeatM 2 (Main.loop hw) boot) in
  safe_rest after_setup = true /\
  forallb safe_lamps (scan after_setup tr) = true /\
  safe_rest (replay after_setup tr) = true.
Proof.
  intros hw tr.
  assert (H : safe_rest after_setup = true) by reflexivity.
  split; [exact H|].
  exact (main_cycle_lamps_safe hw 2 boot after_setup H).
Defined.

(** X3.  The same for [main_withlcd.cpp]. *)
Theorem withlcd_cycle_lamps_safe :
  forall (hw : nat -> Z -> bool) (n : nat) (w : World WithLcd.Globals)
         (g0 : Gpio),
    safe_rest g0 = true ->
    let tr := out (repeatM n (WithLcd.loop hw) w) in
    forallb safe_lamps (scan g0 tr) = true /\
    safe_rest (replay g0 tr) = true.
Proof.
  intros hw n w g0 H tr. subst tr.
  destruct (withlcd_phases_lamps hw) as (H1 & H2 & H3 & H4 & H5).
  assert (HL : Steps (LampP safe_rest safe_lamps) (WithLcd.loop hw))
    by (unfold WithLcd.loop;
        do 5 (apply (steps_bind _ (LampP_trans _ _)); [assumption|intros _]);
        assumption).
  exact (steps_repeatM _ (LampP_refl _ _) (LampP_trans _ _) n _ HL w g0 H).
Qed.

Lemma withlcd_cycle_lamps_safe_witness :
  let hw : nat -> Z -> bool :=
    fun k pin => negb ((pin =? WithLcd.PIN_BTN_PED_REQUEST) &&
                       (3 <=? k)%nat && (k <=? 8)%nat) in
  let v := mkWorld WithLcd.initial 0 in
  let g0 := replay (fun _ => LOW) (out (WithLcd.setup v)) in
  let tr := out (repeatM 2 (WithLcd.loop hw) v) in
  safe_rest g0 = true /\
  forallb safe_lamps (scan g0 tr) = true /\
  safe_rest (replay g0 tr) = true.
Proof.
  intros hw v g0 tr.
  assert (H : safe_rest g0 = true) by reflexivity.
  split; [exact H|].
  exact (withlcd_cycle_lamps_safe hw 2 v g0 H).
Defined.

(** ** Cross traffic is held at red *)

Lemma still_run {G A} (m : M G A) :
  (forall I J : Gpio -> bool,
      (forall g, I g = true -> J g = true) -> Steps (LampP I J) m) ->
  forall w, Still (out (m w)).
Proof. intros H w I J IJ. exact (H I J IJ w). Qed.

Lemma phaseNsGreen_trace (hw : nat -> Z -> bool) (w : World Main.Globals) :
  exists d,
    Still d /\
    out (Main.phaseNsGreen hw w) =
    baseline ++ [ DigitalWrite Main.PIN_NS_RED LOW;
                  DigitalWrite Main.PIN_NS_GREEN HIGH ] ++ d.
Proof.
  unfold Main.phaseNsGreen. cbn -[Z.add Z.sub Z.ltb Z.leb Z.to_nat].
  rewrite bind_then_modify.
  match goal with
  | |- context [countdown ?n ?b ?v] => exists (out (countdown n b v))
  end.
  split; [|reflexivity].
  apply still_run. intros I J IJ. lamp_steps IJ fail.
Qed.

Lemma phaseEwGreen_trace (hw : nat -> Z -> bool) (w : World Main.Globals) :
  exists d,
    Still d /\
    out (Main.phaseEwGreen hw w) =
    baseline ++ [ DigitalWrite Main.PIN_EW_RED LOW;
                  DigitalWrite Main.PIN_EW_GREEN HIGH ] ++ d.
Proof.
  unfold Main.phaseEwGreen. cbn -[Z.add Z.sub Z.ltb Z.leb Z.to_nat].
  rewrite bind_then_modify.
  match goal with
  | |- context [countdown ?n ?b ?v] => exists (out (countdown n b v))
  end.
  split; [|reflexivity].
  apply still_run. intros I J IJ. lamp_steps IJ fail.
Qed.

(** The writes of a phase of one axis leave the other axis at red. *)
Lemma other_axis_stays_red :
  (forall lamp, In lamp vehicle_lamps ->
                fst lamp = Main.PIN_NS_RED ->
                Keeps (shows_red EW) (shows_red EW) (two_step lamp)) /\
  (forall lamp, In lamp vehicle_lamps ->
                fst lamp = Main.PIN_EW_RED ->
                Keeps (shows_red NS) (shows_red NS) (two_step lamp)).
Proof.
  split; intros lamp Hin Hfst g0 H; cbn in Hin;
    repeat (destruct Hin as [Hin|Hin]; [subst lamp|]); try contradiction;
    try discriminate;
    unfold shows_red in H; cbn in H;
    cbn; unfold shows_red, write_pin; cbn;
    [ destruct (g0 Main.PIN_EW_RED), (g0 Main.PIN_EW_YELLOW),
        (g0 Main.PIN_EW_GREEN)
    | destruct (g0 Main.PIN_EW_RED), (g0 Main.PIN_EW_YELLOW),
        (g0 Main.PIN_EW_GREEN)
    | destruct (g0 Main.PIN_NS_RED), (g0 Main.PIN_NS_YELLOW),
        (g0 Main.PIN_NS_GREEN)
    | destruct (g0 Main.PIN_NS_RED), (g0 Main.PIN_NS_YELLOW),
        (g0 Main.PIN_NS_GREEN) ];
    try discriminate; split; reflexivity.
Qed.

Ltac red_by H :=
  unfold LampP;
  first
    [ exact (H (Main.PIN_NS_RED, Main.PIN_NS_GREEN)
               (or_introl eq_refl) eq_refl)
    | exact (H (Main.PIN_NS_RED, Main.PIN_NS_YELLOW)
               (or_intror (or_introl eq_refl)) eq_refl)
    | exact (H (Main.PIN_EW_RED, Main.PIN_EW_GREEN)
               (or_intror (or_intror (or_introl eq_refl))) eq_refl)
    | exact (H (Main.PIN_EW_RED, Main.PIN_EW_YELLOW)
               (or_intror (or_intror (or_intror (or_introl eq_refl))))
               eq_refl) ].

(** A write to a pin of another head leaves a head at red. *)
Lemma write_elsewhere (h : Head) (pin : Z) (level : bool) :
  pin <> red_pin h -> pin <> yellow_pin h -> pin <> green_pin h ->
  Keeps (shows_red h) (shows_red h) [DigitalWrite pin level].
Proof.
  intros Hr Hy Hg g0 H. cbn. unfold shows_red, write_pin in *.
  destruct (Z.eqb_spec (red_pin h) pin); [congruence|].
  destruct (Z.eqb_spec (yellow_pin h) pin); [congruence|].
  destruct (Z.eqb_spec (green_pin h) pin); [congruence|].
  rewrite H. split; reflexivity.
Qed.

(** The pins from the end of the baseline on. *)
Lemma scan_after_baseline (g0 : Gpio) (r : list Event) :
  skipn 5 (scan g0 (baseline ++ r)) =
  replay g0 baseline :: scan (replay g0 baseline) r.
Proof. rewrite scan_app. reflexivity. Qed.

Lemma red_after_baseline (h : Head) (g0 : Gpio) (r : list Event) :
  shows_red h (replay g0 baseline) = true ->
  Keeps (shows_red h) (shows_red h) r ->
  forallb (shows_red h) (skipn 5 (scan g0 (baseline ++ r))) = true.
Proof.
  intros Hb Hr. rewrite scan_after_baseline. cbn [forallb]. rewrite Hb.
  exact (proj1 (Hr _ Hb)).
Qed.

(** X4.  Whatever the pins show when [phaseNsGreen] is entered, from its
    sixth write on, which completes the baseline, and until the following
    [phaseNsYellow] returns, the EW head shows red and nothing else after
    every single event; likewise the NS head through [phaseEwGreen] and
    [phaseEwYellow]. *)
Theorem cross_traffic_held_at_red :
  forall (hw : nat -> Z -> bool) (w : World Main.Globals) (g0 : Gpio),
    forallb (shows_red EW)
      (skipn 5 (scan g0 (out ((Main.phaseNsGreen hw ;;
                               Main.phaseNsYellow hw) w)))) = true /\
    forallb (shows_red NS)
      (skipn 5 (scan g0 (out ((Main.phaseEwGreen hw ;;
                               Main.phaseEwYellow hw) w)))) = true.
Proof.
  intros hw w g0. destruct other_axis_stays_red as [Hns Hew]. split.
  - rewrite then_run. cbn [out].
    destruct (phaseNsGreen_trace hw w) as (d & Hd & Heq). rewrite Heq.
    rewrite <- !app_assoc.
    assert (HY : Steps (LampP (shows_red EW) (shows_red EW))
                       (Main.phaseNsYellow hw))
      by (unfold Main.phaseNsYellow;
          lamp_steps (fun (g : Gpio) (H : shows_red EW g = true) => H)
                     ltac:(red_by Hns)).
    apply red_after_baseline; [apply baseline_all_red|].
    change ([DigitalWrite Main.PIN_NS_RED LOW;
             DigitalWrite Main.PIN_NS_GREEN HIGH] ++ ?r)
      with ([DigitalWrite Main.PIN_NS_RED LOW] ++
            [DigitalWrite Main.PIN_NS_GREEN HIGH] ++ r).
    eapply Moves_app; [apply write_elsewhere; discriminate|].
    eapply Moves_app; [apply write_elsewhere; discriminate|].
    eapply Moves_app; [apply Hd; auto|]. apply HY.
  - rewrite then_run. cbn [out].
    destruct (phaseEwGreen_trace hw w) as (d & Hd & Heq). rewrite Heq.
    rewrite <- !app_assoc.
    assert (HY : Steps (LampP (shows_red NS) (shows_red NS))
                       (Main.phaseEwYellow hw))
      by (unfold Main.phaseEwYellow;
          lamp_steps (fun (g : Gpio) (H : shows_red NS g = true) => H)
                     ltac:(red_by Hew)).
    apply red_after_baseline; [apply baseline_all_red|].
    change ([DigitalWrite Main.PIN_EW_RED LOW;
             DigitalWrite Main.PIN_EW_GREEN HIGH] ++ ?r)
      with ([DigitalWrite Main.PIN_EW_RED LOW] ++
            [DigitalWrite Main.PIN_EW_GREEN HIGH] ++ r).
    eapply Moves_app; [apply write_elsewhere; discriminate|].
    eapply Moves_app; [apply write_elsewhere; discriminate|].
    eapply Moves_app; [apply Hd; auto|]. apply HY.
Qed.

(** ** Where every lamp stands at rest *)

Lemma all_stop_safe_rest (g : Gpio) : all_stop g = true -> safe_rest g = true.
Proof.
  unfold all_stop, safe_rest, go_safe, shows_red, shows_go. cbn.
  destruct (g Main.PIN_NS_RED), (g Main.PIN_NS_YELLOW), (g Main.PIN_NS_GREEN),
    (g Main.PIN_EW_RED), (g Main.PIN_EW_YELLOW), (g Main.PIN_EW_GREEN),
    (g Main.PIN_PED_RED), (g Main.PIN_PED_GREEN); now cbn.
Qed.

Lemma all_stop_after_ped_stop (g0 : Gpio) (a d tail : list Event) :
  forallb not_write tail = true ->
  all_stop (replay g0 (a ++ d ++ ped_stop ++ tail)) = true.
Proof.
  intros H. rewrite !replay_app, (no_writes_replay _ tail H). reflexivity.
Qed.

(** X1.  Whatever the pins show before, [setup] leaves both vehicle heads
    and the pedestrian head at red and nothing else lit, in either sketch;
    and so does the pedestrian phase whenever it runs, while with the latch
    clear it touches nothing.  Such pins are safe to start any phase
    from. *)
Theorem setup_and_pedestrian_phase_end_all_stop :
  forall (hw : nat -> Z -> bool) (w : World Main.Globals)
         (v : World WithLcd.Globals) (g0 : Gpio),
    all_stop (replay g0 (out (Main.setup w))) = true /\
    all_stop (replay g0 (out (WithLcd.setup v))) = true /\
    (if Main.pedRequest (globals w)
     then all_stop
            (replay g0 (out (Main.phasePedestrianIfRequested hw w))) = true
     else out (Main.phasePedestrianIfRequested hw w) = []) /\
    (if WithLcd.pedRequest (globals v)
     then all_stop
            (replay g0 (out (WithLcd.phasePedestrianIfRequested hw v))) = true
     else out (WithLcd.phasePedestrianIfRequested hw v) = []) /\
    safe_rest (replay g0 (out (Main.setup w))) = true /\
    safe_rest (replay g0 (out (WithLcd.setup v))) = true.
Proof.
  intros hw w v g0.
  assert (S1 : all_stop (replay g0 (out (Main.setup w))) = true)
    by reflexivity.
  assert (S2 : all_stop (replay g0 (out (WithLcd.setup v))) = true)
    by reflexivity.
  split; [exact S1|]. split; [exact S2|]. split; [|split].
  - destruct (Main.pedRequest (globals w)) eqn:Hreq.
    + destruct (phasePedestrian_trace hw w Hreq) as (d & _ & Heq).
      rewrite Heq. now apply all_stop_after_ped_stop.
    + now rewrite (phasePedestrian_skipped hw w Hreq).
  - destruct (WithLcd.pedRequest (globals v)) eqn:Hreq.
    + destruct (withlcd_phasePedestrian_trace hw v Hreq) as (d & _ & Heq).
      rewrite Heq.
      rewrite (app_assoc _ (two_step _)).
      now apply all_stop_after_ped_stop.
    + unfold WithLcd.phasePedestrianIfRequested, bind, gets.
      now rewrite Hreq.
  - split; apply all_stop_safe_rest; assumption.
Qed.

(** ** Every request is served at the next insertion point *)

(** X5.  In one pass of [loop] in [main.cpp], the pedestrian phase runs at
    the first insertion point if and only if the latch was set on entry or
    the pedestrian button gave a press event during NS green or NS yellow,
    and at the second if and only if it gave one during EW green or EW
    yellow; the pass ends with the latch clear.  Press events that arrive
    while a pedestrian phase is running play no part. *)
Theorem pedestrian_request_served_at_next_insertion_point :
  forall (hw : nat -> Z -> bool) (w : World Main.Globals),
    let g1 := Main.phaseNsGreen hw w in
    let y1 := Main.phaseNsYellow hw (post g1) in
    let p1 := Main.phasePedestrianIfRequested hw (post y1) in
    let g2 := Main.phaseEwGreen hw (post p1) in
    let y2 := Main.phaseEwYellow hw (post g2) in
    let p2 := Main.phasePedestrianIfRequested hw (post y2) in
    let first :=
      Main.pedRequest (globals w) ||
      (0 <? ped_presses (out g1 ++ out y1))%nat in
    let second := (0 <? ped_presses (out g2 ++ out y2))%nat in
    ped_runs (out p1) = (if first then 1 else 0)%nat /\
    ped_runs (out p2) = (if second then 1 else 0)%nat /\
    ped_runs (out (Main.loop hw w)) =
      ((if first then 1 else 0) + (if second then 1 else 0))%nat /\
    Main.pedRequest (globals (post (Main.loop hw w))) = false.
Proof.
  intros hw w g1 y1 p1 g2 y2 p2 first second.
  destruct (vehicle_phases_pedtrack hw) as (Tg1 & Ty1 & Tg2 & Ty2).
  pose proof (PedTrack_trans _ _ _ _ _ (Tg1 w) (Ty1 (post g1))) as H1.
  pose proof (PedTrack_trans _ _ _ _ _ (Tg2 (post p1)) (Ty2 (post g2))) as H2.
  fold g1 in H1. fold y1 in H1. fold g2 in H2. fold y2 in H2.
  destruct (insertion_point hw (post y1)) as (R1 & L1 & _).
  destruct (insertion_point hw (post y2)) as (R2 & L2 & _).
  fold p1 in R1, L1. fold p2 in R2, L2.
  rewrite (ped_latch _ _ _ H1) in R1. fold first in R1.
  rewrite (ped_latch _ _ _ H2), L1 in R2. cbn [orb] in R2. fold second in R2.
  assert (Hloop : Main.loop hw w =
                  mkRes (val p2) (post p2)
                        (out g1 ++ out y1 ++ out p1 ++ out g2 ++ out y2 ++
                         out p2))
    by (unfold Main.loop; rewrite !then_run; reflexivity).
  split; [exact R1|]. split; [exact R2|]. rewrite Hloop. cbn [out post].
  split; [|exact L2].
  pose proof (ped_no_run _ _ _ H1) as N1.
  pose proof (ped_no_run _ _ _ H2) as N2.
  rewrite ped_runs_app in N1, N2. rewrite !ped_runs_app, R1, R2. lia.
Qed.

(** ** How long a phase lasts *)

Section CostRules.
Context {G : Type} (mu : list Event -> Z).
Hypothesis mu_nil : mu [] = 0.
Hypothesis mu_app : forall a b, mu (a ++ b) = mu a + mu b.

Lemma costs_ret {A} (a : A) : Costs mu 0 (ret a : M G A).
Proof. intros w. exact mu_nil. Qed.

Lemma costs_gets {A} (f : G -> A) : Costs mu 0 (gets f).
Proof. intros w. exact mu_nil. Qed.

Lemma costs_modify (f : G -> G) : Costs mu 0 (modify f).
Proof. intros w. exact mu_nil. Qed.

Lemma costs_emit (e : Event) : Costs mu (mu [e]) (emit e : M G unit).
Proof. intros w. reflexivity. Qed.

Lemma costs_bind {A B} (m : M G A) (f : A -> M G B) (a b : Z) :
  Costs mu a m -> (forall x, Costs mu b (f x)) -> Costs mu (a + b) (bind m f).
Proof.
  intros Hm Hf w. rewrite bind_run. cbn [out]. now rewrite mu_app, Hm, Hf.
Qed.

Lemma costs_repeatM (n : nat) (body : M G unit) (k : Z) :
  Costs mu k body -> Costs mu (Z.of_nat n * k) (repeatM n body).
Proof.
  intros Hb. induction n as [|n IH].
  - intros w. change (mu [] = Z.of_nat 0 * k). rewrite mu_nil. lia.
  - change (repeatM (S n) body) with (bind body (fun _ => repeatM n body)).
    intros w. rewrite (costs_bind _ _ k (Z.of_nat n * k) Hb (fun _ => IH)).
    lia.
Qed.

Lemma costs_countdown (n : nat) (body : Z -> M G unit) (k : Z) :
  (forall r, Costs mu k (body r)) ->
  Costs mu (Z.of_nat n * k) (countdown n body).
Proof.
  intros Hb. induction n as [|n IH].
  - intros w. change (mu [] = Z.of_nat 0 * k). rewrite mu_nil. lia.
  - change (countdown (S n) body)
      with (bind (body (Z.of_nat (S n))) (fun _ => countdown n body)).
    intros w.
    rewrite (costs_bind _ _ k (Z.of_nat n * k) (Hb _) (fun _ => IH)).
    lia.
Qed.

Lemma costs_eq {A} (m : M G A) (k k' : Z) :
  Costs mu k m -> k = k' -> Costs mu k' m.
Proof. intros H <-. exact H. Qed.
End CostRules.

Lemma elapsed_app (a b : list Event) : elapsed (a ++ b) = elapsed a + elapsed b.
Proof.
  induction a as [|e a IH]; [reflexivity|].
  destruct e; cbn [app elapsed]; rewrite IH; lia.
Qed.

Lemma polls_app (a b : list Event) : polls (a ++ b) = polls a + polls b.
Proof. unfold polls. rewrite levels_read_app, length_app. lia. Qed.

Lemma press_events_app (a b : list Event) :
  press_events (a ++ b) = press_events a + press_events b.
Proof.
  unfold press_events, ns_presses, ew_presses, ns_counted, ns_ignored,
    ew_counted, ew_ignored, ped_presses.
  rewrite !count_events_app. lia.
Qed.

Lemma lcd_press_events_app (a b : list Event) :
  lcd_press_events (a ++ b) = lcd_press_events a + lcd_press_events b.
Proof.
  unfold lcd_press_events, lcd_ns_presses, lcd_ew_presses, lcd_ped_presses.
  rewrite !count_events_app. lia.
Qed.

Lemma net30_app (a b : list Event) : net30 (a ++ b) = net30 a + net30 b.
Proof. unfold net30. rewrite elapsed_app, press_events_app. lia. Qed.

Lemma net400_app (a b : list Event) : net400 (a ++ b) = net400 a + net400 b.
Proof. unfold net400. rewrite elapsed_app, lcd_press_events_app. lia. Qed.

(** One call of [readButtons] takes the pause of each press event it
    handles and nothing more. *)
Lemma readButtons_costs (hw : nat -> Z -> bool) :
  Costs net30 0 (Main.readButtons hw) /\ Costs polls 1 (Main.readButtons hw).
Proof.
  split; intros w; rewrite readButtons_run; cbv zeta; cbn [out];
    destruct (negb _ && Main.lastNsBtnState _), (val (Main.isNsRed w)),
      (negb _ && Main.lastEwBtnState _), (val (Main.isEwRed w)),
      (negb _ && Main.lastPedBtnState _); reflexivity.
Qed.

Lemma withlcd_readButtons_costs (hw : nat -> Z -> bool) :
  Costs net400 0 (WithLcd.readButtons hw) /\
  Costs polls 1 (WithLcd.readButtons hw).
Proof.
  split; intros w; rewrite withlcd_readButtons_run; cbv zeta; cbn [out];
    destruct (negb _ && WithLcd.lastNsBtnState _),
      (negb _ && WithLcd.lastEwBtnState _),
      (negb _ && WithLcd.lastPedBtnState _); reflexivity.
Qed.

(** One rule per shape of program, for a measure: [read] is what a call of
    [readButtons] costs. *)
Ltac cost_steps nilr appr read :=
  repeat
    lazymatch goal with
    | |- Costs _ _ (bind _ _) => eapply (costs_bind _ appr); [|intros ?]
    | |- Costs _ _ (ret _) => apply (costs_ret _ nilr)
    | |- Costs _ _ (gets _) => apply (costs_gets _ nilr)
    | |- Costs _ _ (modify _) => apply (costs_modify _ nilr)
    | |- Costs _ _ (repeatM _ _) => eapply (costs_repeatM _ nilr appr)
    | |- Costs _ _ (countdown _ _) =>
        eapply (costs_countdown _ nilr appr); intros ?
    | |- Costs _ _ (Main.readButtons _) => apply read
    | |- Costs _ _ (WithLcd.readButtons _) => apply read
    | |- Costs _ _ (Main.waitOneSecondWithButtons _) =>
        unfold Main.waitOneSecondWithButtons
    | |- Costs _ _ (Main.lcdShowTwoLines _ _) => unfold Main.lcdShowTwoLines
    | |- Costs _ _ (WithLcd.lcdShowTwoLines _ _) =>
        unfold WithLcd.lcdShowTwoLines
    | |- Costs _ _ Main.setAllVehicleRed => unfold Main.setAllVehicleRed
    | |- Costs _ _ Main.setNsGreenState => unfold Main.setNsGreenState
    | |- Costs _ _ Main.setNsYellowState => unfold Main.setNsYellowState
    | |- Costs _ _ Main.setEwGreenState => unfold Main.setEwGreenState
    | |- Costs _ _ Main.setEwYellowState => unfold Main.setEwYellowState
    | |- Costs _ _ Main.setPedestrianGreenState =>
        unfold Main.setPedestrianGreenState
    | |- Costs _ _ WithLcd.setAllVehicleRed => unfold WithLcd.setAllVehicleRed
    | |- Costs _ _ WithLcd.setNsGreenState => unfold WithLcd.setNsGreenState
    | |- Costs _ _ WithLcd.setNsYellowState =>
        unfold WithLcd.setNsYellowState
    | |- Costs _ _ WithLcd.setEwGreenState => unfold WithLcd.setEwGreenState
    | |- Costs _ _ WithLcd.setEwYellowState =>
        unfold WithLcd.setEwYellowState
    | |- Costs _ _ WithLcd.setPedestrianGreenState =>
        unfold WithLcd.setPedestrianGreenState
    | |- Costs _ _ (digitalWrite _ _) => unfold digitalWrite
    | |- Costs _ _ (delay _) => unfold delay
    | |- Costs _ _ lcdClear => unfold lcdClear
    | |- Costs _ _ (lcdSetCursor _ _) => unfold lcdSetCursor
    | |- Costs _ _ (lcdPrint _) => unfold lcdPrint
    | |- Costs _ _ (lcdPrintInt _) => unfold lcdPrintInt
    | |- Costs _ _ (emit _) =>
        eapply costs_eq; [apply costs_emit|vm_compute; reflexivity]
    end.

Ltac net30_costs :=
  eapply costs_eq;
  [ cost_steps (eq_refl : net30 [] = 0) net30_app
               (fun hw => proj1 (readButtons_costs hw))
  | lia ].

Ltac net400_costs :=
  eapply costs_eq;
  [ cost_steps (eq_refl : net400 [] = 0) net400_app
               (fun hw => proj1 (withlcd_readButtons_costs hw))
  | lia ].

Ltac polls_costs read :=
  eapply costs_eq;
  [ cost_steps (eq_refl : polls [] = 0) polls_app read
  | lia ].

(** Turns a goal on the trace of [m] run in some world into one on [m]. *)
Ltac as_costs :=
  match goal with
  | |- ?mu (out (?m ?v)) = ?k => generalize v; change (Costs mu k m)
  end.

Lemma waitOneSecondWithButtons_costs (hw : nat -> Z -> bool) :
  Costs net30 1000 (Main.waitOneSecondWithButtons hw) /\
  Costs polls 50 (Main.waitOneSecondWithButtons hw).
Proof.
  split.
  - net30_costs.
  - polls_costs (fun hw => proj2 (readButtons_costs hw)).
Qed.

Lemma green_seconds_positive (w : World Main.Globals) :
  10 <= val (Main.computeNsGreenSeconds w) <= 40 /\
  10 <= val (Main.computeEwGreenSeconds w) <= 40.
Proof.
  rewrite computeNsGreenSeconds_run, computeEwGreenSeconds_run. cbn [val].
  repeat match goal with |- context [if ?b then _ else _] => destruct b end;
    lia.
Qed.

Lemma phaseNsGreen_costs (hw : nat -> Z -> bool) (w : World Main.Globals) :
  net30 (out (Main.phaseNsGreen hw w)) =
    1000 * val (Main.computeNsGreenSeconds w) /\
  polls (out (Main.phaseNsGreen hw w)) =
    50 * val (Main.computeNsGreenSeconds w).
Proof.
  pose proof (proj1 (green_seconds_positive w)) as Hpos.
  unfold Main.phaseNsGreen.
  match goal with
  | |- context [bind (modify ?f)
                     (fun _ => bind Main.computeNsGreenSeconds ?k)] =>
      assert (Hn : forall secs,
                 Costs net30 (Z.of_nat (Z.to_nat secs) * 1000) (k secs))
        by (intros secs; cbv beta zeta; net30_costs);
      assert (Hp : forall secs,
                 Costs polls (Z.of_nat (Z.to_nat secs) * 50) (k secs))
        by (intros secs; cbv beta zeta;
            polls_costs (fun hw => proj2 (readButtons_costs hw)))
  end.
  rewrite !(bind_run (modify _)), !(bind_run Main.computeNsGreenSeconds).
  cbn [out val post modify app].
  rewrite !computeNsGreenSeconds_run in *.
  cbn [out val post app globals Main.trafficCountNS Main.set_currentPhase]
    in *.
  rewrite Hn, Hp, Z2Nat.id by lia. split; lia.
Qed.

Lemma phaseEwGreen_costs (hw : nat -> Z -> bool) (w : World Main.Globals) :
  net30 (out (Main.phaseEwGreen hw w)) =
    1000 * val (Main.computeEwGreenSeconds w) /\
  polls (out (Main.phaseEwGreen hw w)) =
    50 * val (Main.computeEwGreenSeconds w).
Proof.
  pose proof (proj2 (green_seconds_positive w)) as Hpos.
  unfold Main.phaseEwGreen.
  match goal with
  | |- context [bind (modify ?f)
                     (fun _ => bind Main.computeEwGreenSeconds ?k)] =>
      assert (Hn : forall secs,
                 Costs net30 (Z.of_nat (Z.to_nat secs) * 1000) (k secs))
        by (intros secs; cbv beta zeta; net30_costs);
      assert (Hp : forall secs,
                 Costs polls (Z.of_nat (Z.to_nat secs) * 50) (k secs))
        by (intros secs; cbv beta zeta;
            polls_costs (fun hw => proj2 (readButtons_costs hw)))
  end.
  rewrite !(bind_run (modify _)), !(bind_run Main.computeEwGreenSeconds).
  cbn [out val post modify app].
  rewrite !computeEwGreenSeconds_run in *.
  cbn [out val post app globals Main.trafficCountEW Main.set_currentPhase]
    in *.
  rewrite Hn, Hp, Z2Nat.id by lia. split; lia.
Qed.

Lemma yellow_phases_cost (hw : nat -> Z -> bool) :
  (Costs net30 3000 (Main.phaseNsYellow hw) /\
   Costs polls 150 (Main.phaseNsYellow hw)) /\
  (Costs net30 3000 (Main.phaseEwYellow hw) /\
   Costs polls 150 (Main.phaseEwYellow hw)).
Proof.
  repeat split;
    unfold Main.phaseNsYellow, Main.phaseEwYellow;
    change (Z.to_nat Main.YELLOW_TIME_SEC) with 3%nat;
    first [net30_costs | polls_costs (fun hw => proj2 (readButtons_costs hw))].
Qed.

Lemma phasePedestrian_costs (hw : nat -> Z -> bool) (w : World Main.Globals) :
  Main.pedRequest (globals w) = true ->
  net30 (out (Main.phasePedestrianIfRequested hw w)) = 8500 /\
  polls (out (Main.phasePedestrianIfRequested hw w)) = 400.
Proof.
  intros Hreq. unfold Main.phasePedestrianIfRequested.
  rewrite !(bind_run (gets Main.pedRequest)).
  cbn [gets val post out app]. rewrite Hreq. cbn [negb].
  change (Z.to_nat Main.PED_TIME_SEC) with 8%nat.
  split; as_costs;
    first [net30_costs | polls_costs (fun hw => proj2 (readButtons_costs hw))].
Qed.

(** X6.  In [main.cpp] every phase lasts its whole seconds plus 30 ms for
    each press event that arrives in it, and polls the buttons fifty times a
    second: the green phases for the seconds computed on entry, the yellow
    phases for three, the pedestrian phase (when the latch is set) for eight
    and a closing half second.  With the latch clear the pedestrian phase
    takes no time at all. *)
Theorem phase_lasts_its_seconds_plus_press_pauses :
  forall (hw : nat -> Z -> bool) (w : World Main.Globals),
    let lasts (m : Main.Prog unit) (secs extra : Z) :=
      elapsed (out (m w)) =
        1000 * secs + extra + 30 * press_events (out (m w)) /\
      polls (out (m w)) = 50 * secs in
    lasts (Main.phaseNsGreen hw) (val (Main.computeNsGreenSeconds w)) 0 /\
    lasts (Main.phaseNsYellow hw) Main.YELLOW_TIME_SEC 0 /\
    lasts (Main.phaseEwGreen hw) (val (Main.computeEwGreenSeconds w)) 0 /\
    lasts (Main.phaseEwYellow hw) Main.YELLOW_TIME_SEC 0 /\
    (if Main.pedRequest (globals w)
     then lasts (Main.phasePedestrianIfRequested hw) Main.PED_TIME_SEC 500
     else out (Main.phasePedestrianIfRequested hw w) = []).
Proof.
  intros hw w lasts. subst lasts. cbv beta.
  destruct (phaseNsGreen_costs hw w) as [G1 G2].
  destruct (phaseEwGreen_costs hw w) as [G3 G4].
  destruct (yellow_phases_cost hw) as ([Y1 Y2] & [Y3 Y4]).
  specialize (Y1 w). specialize (Y2 w). specialize (Y3 w). specialize (Y4 w).
  unfold net30 in *. unfold Main.YELLOW_TIME_SEC, Main.PED_TIME_SEC.
  repeat split; try lia.
  destruct (Main.pedRequest (globals w)) eqn:Hreq.
  - destruct (phasePedestrian_costs hw w Hreq) as [P1 P2].
    unfold net30 in P1. split; lia.
  - now rewrite (phasePedestrian_skipped hw w Hreq).
Qed.

Lemma vehicle_phases_no_ped_run (hw : nat -> Z -> bool)
  (w : World Main.Globals) :
  ped_runs (out (Main.phaseNsGreen hw w)) = 0%nat /\
  ped_runs (out (Main.phaseNsYellow hw w)) = 0%nat /\
  ped_runs (out (Main.phaseEwGreen hw w)) = 0%nat /\
  ped_runs (out (Main.phaseEwYellow hw w)) = 0%nat.
Proof.
  destruct (vehicle_phases_pedtrack hw) as (T1 & T2 & T3 & T4).
  repeat split; eapply ped_no_run; [apply T1|apply T2|apply T3|apply T4].
Qed.

(** X7.  One pass of [loop] in [main.cpp] lasts the NS green seconds
    computed on entry, the EW green seconds computed when EW green starts,
    two yellow phases of three seconds, eight and a half seconds for every
    pedestrian phase that ran, and 30 ms for every press event. *)
Theorem cycle_duration :
  forall (hw : nat -> Z -> bool) (w : World Main.Globals),
    let first_half :=
      (Main.phaseNsGreen hw ;; Main.phaseNsYellow hw ;;
       Main.phasePedestrianIfRequested hw) w in
    let tr := out (Main.loop hw w) in
    elapsed tr =
      1000 * (val (Main.computeNsGreenSeconds w) +
              val (Main.computeEwGreenSeconds (post first_half)) +
              2 * Main.YELLOW_TIME_SEC) +
      (1000 * Main.PED_TIME_SEC + 500) * Z.of_nat (ped_runs tr) +
      30 * press_events tr.
Proof.
  intros hw w first_half tr. subst first_half tr.
  set (g1 := Main.phaseNsGreen hw w).
  set (y1 := Main.phaseNsYellow hw (post g1)).
  set (p1 := Main.phasePedestrianIfRequested hw (post y1)).
  set (g2 := Main.phaseEwGreen hw (post p1)).
  set (y2 := Main.phaseEwYellow hw (post g2)).
  set (p2 := Main.phasePedestrianIfRequested hw (post y2)).
  assert (Hhalf : post ((Main.phaseNsGreen hw ;; Main.phaseNsYellow hw ;;
                         Main.phasePedestrianIfRequested hw) w) = post p1)
    by (rewrite !then_run; reflexivity).
  assert (Hloop : out (Main.loop hw w) =
                  out g1 ++ out y1 ++ out p1 ++ out g2 ++ out y2 ++ out p2)
    by (unfold Main.loop; rewrite !then_run; reflexivity).
  rewrite Hhalf, Hloop.
  destruct (yellow_phases_cost hw) as ([Y1 _] & [Y2 _]).
  pose proof (proj1 (phaseNsGreen_costs hw w)) as E1.
  pose proof (Y1 (post g1)) as E2.
  pose proof (phasePedestrian_costs hw (post y1)) as E3.
  pose proof (phaseEwGreen_costs hw (post p1)) as [E4 _].
  pose proof (Y2 (post g2)) as E5.
  pose proof (phasePedestrian_costs hw (post y2)) as E6.
  pose proof (phasePedestrian_skipped hw (post y1)) as S1.
  pose proof (phasePedestrian_skipped hw (post y2)) as S2.
  destruct (vehicle_phases_no_ped_run hw w) as (N1 & _).
  destruct (vehicle_phases_no_ped_run hw (post g1)) as (_ & N2 & _).
  destruct (vehicle_phases_no_ped_run hw (post p1)) as (_ & _ & N3 & _).
  destruct (vehicle_phases_no_ped_run hw (post g2)) as (_ & _ & _ & N4).
  destruct (insertion_point hw (post y1)) as (R1 & _).
  destruct (insertion_point hw (post y2)) as (R2 & _).
  fold g1 in E1, N1. fold y1 in E2, N2. fold p1 in E3, R1, S1.
  fold g2 in E4, N3. fold y2 in E5, N4. fold p2 in E6, R2, S2.
  rewrite !elapsed_app, !press_events_app, !ped_runs_app.
  rewrite N1, N2, N3, N4, R1, R2.
  unfold net30, Main.YELLOW_TIME_SEC, Main.PED_TIME_SEC in *.
  destruct (Main.pedRequest (globals (post y1)));
    [destruct (E3 eq_refl) as [E3' _]|rewrite (f_equal out (S1 eq_refl))];
    (destruct (Main.pedRequest (globals (post y2)));
     [destruct (E6 eq_refl) as [E6' _]|rewrite (f_equal out (S2 eq_refl))]);
    cbn [out]; change (elapsed []) with 0; change (press_events []) with 0;
    lia.
Qed.

(** ** The other sketch: counts, latch and time *)

Lemma capped_none (c : Z) : capped c 0 = c.
Proof. unfold capped, WithLcd.MAX_TRAFFIC_COUNT. lia. Qed.

Lemma capped_more (c : Z) (n m : nat) :
  capped (capped c n) m = capped c (n + m).
Proof. unfold capped, WithLcd.MAX_TRAFFIC_COUNT. lia. Qed.

Lemma capped_in_int (c : Z) (n : nat) : in_int c -> in_int (capped c n).
Proof.
  unfold capped, in_int, INT_MIN, INT_MAX, WithLcd.MAX_TRAFFIC_COUNT. lia.
Qed.

Lemma capped_within (c : Z) (n : nat) :
  within_cap c ->
  capped c n = Z.min WithLcd.MAX_TRAFFIC_COUNT (c + Z.of_nat n) /\
  within_cap (capped c n).
Proof. unfold capped, within_cap, WithLcd.MAX_TRAFFIC_COUNT. lia. Qed.

Lemma within_cap_in_int (c : Z) : within_cap c -> in_int c.
Proof.
  unfold within_cap, in_int, INT_MIN, INT_MAX, WithLcd.MAX_TRAFFIC_COUNT. lia.
Qed.

Section LcdCountRules.
Variable count : WithLcd.Globals -> Z.
Variable p : Event -> bool.

Lemma LcdCount_refl (w : World WithLcd.Globals) : LcdCount count p w w [].
Proof. intros _. now rewrite capped_none. Qed.

Lemma LcdCount_trans (w w1 w2 : World WithLcd.Globals) (t1 t2 : list Event) :
  LcdCount count p w w1 t1 -> LcdCount count p w1 w2 t2 ->
  LcdCount count p w w2 (t1 ++ t2).
Proof.
  intros H1 H2 Hin. specialize (H1 Hin).
  rewrite H2 by (rewrite H1; now apply capped_in_int).
  now rewrite H1, capped_more, count_events_app.
Qed.

Lemma LcdCount_emit (e : Event) :
  p e = false -> Steps (LcdCount count p) (emit e).
Proof.
  intros He w _. unfold emit, count_events; cbn [post out filter].
  rewrite He. apply eq_sym, capped_none.
Qed.

Lemma LcdCount_modify (f : WithLcd.Globals -> WithLcd.Globals) :
  (forall g, count (f g) = count g) -> Steps (LcdCount count p) (modify f).
Proof.
  intros Hf w _. unfold modify; cbn [post out globals].
  rewrite Hf. apply eq_sym, capped_none.
Qed.
End LcdCountRules.

Lemma LcdLatch_refl (w : World WithLcd.Globals) : LcdLatch w w [].
Proof. constructor; [cbn; now rewrite orb_false_r|reflexivity]. Qed.

Lemma LcdLatch_trans (w w1 w2 : World WithLcd.Globals) (t1 t2 : list Event) :
  LcdLatch w w1 t1 -> LcdLatch w1 w2 t2 -> LcdLatch w w2 (t1 ++ t2).
Proof.
  intros [L1 R1] [L2 R2]. constructor.
  - rewrite L2, L1. unfold lcd_ped_presses. rewrite count_events_app.
    destruct (WithLcd.pedRequest (globals w)); cbn [orb]; [reflexivity|].
    destruct (count_events _ t1), (count_events _ t2); reflexivity.
  - now rewrite ped_runs_app, R1, R2.
Qed.

Lemma LcdLatch_emit (e : Event) :
  latch_quiet e = true -> Steps LcdLatch (emit e).
Proof.
  unfold latch_quiet. intros He w.
  apply negb_true_iff, orb_false_iff in He. destruct He as [H1 H2].
  unfold emit; cbn [post out].
  constructor; unfold lcd_ped_presses, ped_runs, count_events;
    cbn [filter]; rewrite ?H1, ?H2; cbn; now rewrite ?orb_false_r.
Qed.

Lemma LcdLatch_modify (f : WithLcd.Globals -> WithLcd.Globals) :
  (forall g, WithLcd.pedRequest (f g) = WithLcd.pedRequest g) ->
  Steps LcdLatch (modify f).
Proof.
  intros Hf w. unfold modify; cbn [post out globals].
  constructor; cbn [globals]; [rewrite Hf; cbn; now rewrite orb_false_r|].
  reflexivity.
Qed.

(** One call of [readButtons]: every press event of a traffic button is
    counted, whatever the lamps show, unless the count is at the maximum. *)
Lemma withlcd_readButtons_counts (hw : nat -> Z -> bool) :
  Steps CountsNS (WithLcd.readButtons hw) /\
  Steps CountsEW (WithLcd.readButtons hw) /\
  Steps LcdLatch (WithLcd.readButtons hw).
Proof.
  split; [|split]; intros w; [intros Hin|intros Hin|];
    rewrite withlcd_readButtons_run; cbv zeta; cbn [post out globals];
    destruct w as [[cn ce pr ln le lp] r];
    cbn [globals reads WithLcd.trafficCountNS WithLcd.trafficCountEW
         WithLcd.pedRequest WithLcd.lastNsBtnState WithLcd.lastEwBtnState
         WithLcd.lastPedBtnState] in *;
    destruct (negb (hw r WithLcd.PIN_BTN_NS_TRAFFIC) && ln),
      (negb (hw (S r) WithLcd.PIN_BTN_EW_TRAFFIC) && le),
      (negb (hw (S (S r)) WithLcd.PIN_BTN_PED_REQUEST) && lp);
    cbn [andb]; try (constructor; cbn; now rewrite ?orb_true_r, ?orb_false_r);
    try (cbn; rewrite ?capped_none; reflexivity);
    unfold WithLcd.MAX_TRAFFIC_COUNT;
    match goal with
    | |- context [?c <? 10] =>
        destruct (Z.ltb_spec c 10);
          [rewrite int_incr_small
             by (unfold in_int, INT_MIN, INT_MAX in *; lia)|];
          cbn; unfold capped, WithLcd.MAX_TRAFFIC_COUNT; lia
    end.
Qed.

(** One rule per shape of program of [main_withlcd.cpp]. *)
Ltac lcd_steps refl trans read emit_rule modify_rule :=
  repeat
    lazymatch goal with
    | |- Steps _ (bind _ _) => apply (steps_bind _ trans); [|intros ?]
    | |- Steps _ (ret _) => apply (steps_ret _ refl)
    | |- Steps _ (gets _) => apply (steps_gets _ refl)
    | |- Steps _ (repeatM _ _) => apply (steps_repeatM _ refl trans)
    | |- Steps _ (if ?b then _ else _) => destruct b
    | |- Steps _ (WithLcd.readButtons _) => apply read
    | |- Steps _ WithLcd.computeNsGreenSeconds =>
        unfold WithLcd.computeNsGreenSeconds
    | |- Steps _ WithLcd.computeEwGreenSeconds =>
        unfold WithLcd.computeEwGreenSeconds
    | |- Steps _ (WithLcd.lcdShowTwoLines _ _) =>
        unfold WithLcd.lcdShowTwoLines
    | |- Steps _ WithLcd.setAllVehicleRed => unfold WithLcd.setAllVehicleRed
    | |- Steps _ WithLcd.setNsGreenState => unfold WithLcd.setNsGreenState
    | |- Steps _ WithLcd.setNsYellowState => unfold WithLcd.setNsYellowState
    | |- Steps _ WithLcd.setEwGreenState => unfold WithLcd.setEwGreenState
    | |- Steps _ WithLcd.setEwYellowState => unfold WithLcd.setEwYellowState
    | |- Steps _ WithLcd.setPedestrianGreenState =>
        unfold WithLcd.setPedestrianGreenState
    | |- Steps _ (digitalWrite _ _) => unfold digitalWrite
    | |- Steps _ (delay _) => unfold delay
    | |- Steps _ lcdClear => unfold lcdClear
    | |- Steps _ (lcdSetCursor _ _) => unfold lcdSetCursor
    | |- Steps _ (lcdPrint _) => unfold lcdPrint
    | |- Steps _ (lcdPrintInt _) => unfold lcdPrintInt
    | |- Steps _ (emit _) => apply emit_rule; reflexivity
    | |- Steps _ (modify _) => apply modify_rule; try (intros ?; reflexivity)
    end.

Ltac counts_ns :=
  lcd_steps (LcdCount_refl WithLcd.trafficCountNS (is_print "NS traffic cnt"))
            (LcdCount_trans WithLcd.trafficCountNS (is_print "NS traffic cnt"))
            (fun hw => proj1 (withlcd_readButtons_counts hw))
            (LcdCount_emit WithLcd.trafficCountNS (is_print "NS traffic cnt"))
            (LcdCount_modify WithLcd.trafficCountNS
                             (is_print "NS traffic cnt")).

Ltac counts_ew :=
  lcd_steps (LcdCount_refl WithLcd.trafficCountEW (is_print "EW traffic cnt"))
            (LcdCount_trans WithLcd.trafficCountEW (is_print "EW traffic cnt"))
            (fun hw => proj1 (proj2 (withlcd_readButtons_counts hw)))
            (LcdCount_emit WithLcd.trafficCountEW (is_print "EW traffic cnt"))
            (LcdCount_modify WithLcd.trafficCountEW
                             (is_print "EW traffic cnt")).

Ltac lcd_latch :=
  lcd_steps LcdLatch_refl LcdLatch_trans
            (fun hw => proj2 (proj2 (withlcd_readButtons_counts hw)))
            LcdLatch_emit LcdLatch_modify.

(** Which count each phase leaves to the press events. *)
Lemma withlcd_phases_counts (hw : nat -> Z -> bool) :
  (Steps CountsEW (WithLcd.phaseNsGreen hw) /\
   Steps CountsNS (WithLcd.phaseEwGreen hw)) /\
  (Steps CountsNS (WithLcd.phaseNsYellow hw) /\
   Steps CountsEW (WithLcd.phaseNsYellow hw)) /\
  (Steps CountsNS (WithLcd.phaseEwYellow hw) /\
   Steps CountsEW (WithLcd.phaseEwYellow hw)) /\
  (Steps CountsNS (WithLcd.phasePedestrianIfRequested hw) /\
   Steps CountsEW (WithLcd.phasePedestrianIfRequested hw)).
Proof.
  unfold WithLcd.phaseNsGreen, WithLcd.phaseEwGreen, WithLcd.phaseNsYellow,
    WithLcd.phaseEwYellow, WithLcd.phasePedestrianIfRequested.
  repeat split;
    lazymatch goal with
    | |- Steps CountsNS _ => counts_ns
    | |- Steps CountsEW _ => counts_ew
    end.
Qed.

Lemma withlcd_vehicle_phases_latch (hw : nat -> Z -> bool) :
  Steps LcdLatch (WithLcd.phaseNsGreen hw) /\
  Steps LcdLatch (WithLcd.phaseNsYellow hw) /\
  Steps LcdLatch (WithLcd.phaseEwGreen hw) /\
  Steps LcdLatch (WithLcd.phaseEwYellow hw).
Proof.
  unfold WithLcd.phaseNsGreen, WithLcd.phaseEwGreen, WithLcd.phaseNsYellow,
    WithLcd.phaseEwYellow.
  split; [|split; [|split]]; lcd_latch.
Qed.

Lemma ends_bind {G A B} (Q : World G -> Prop) (m : M G A) (f : A -> M G B) :
  (forall a, Ends Q (f a)) -> Ends Q (bind m f).
Proof. intros H w. rewrite bind_run. cbn [post]. apply H. Qed.

Lemma withlcd_green_resets (hw : nat -> Z -> bool) :
  Ends (fun w => WithLcd.trafficCountNS (globals w) = 0)
       (WithLcd.phaseNsGreen hw) /\
  Ends (fun w => WithLcd.trafficCountEW (globals w) = 0)
       (WithLcd.phaseEwGreen hw).
Proof.
  unfold WithLcd.phaseNsGreen, WithLcd.phaseEwGreen.
  split; repeat (apply ends_bind; intros ?); intros w; reflexivity.
Qed.

(** X8.  In [main_withlcd.cpp] every press event of a traffic button is
    counted, whatever the lamps show, until the count is at
    [MAX_TRAFFIC_COUNT], where it stays: over any number of consecutive
    calls of [readButtons], a count that starts between 0 and the maximum
    ends at its start plus the press events of its button, or at the maximum
    if that is less.  The latch is set by a pedestrian press event and by
    nothing else. *)
Theorem withlcd_press_counted_up_to_maximum :
  forall (hw : nat -> Z -> bool) (n : nat) (w : World WithLcd.Globals),
    let g := globals w in
    let r := repeatM n (WithLcd.readButtons hw) w in
    let g' := globals (post r) in
    within_cap (WithLcd.trafficCountNS g) ->
    within_cap (WithLcd.trafficCountEW g) ->
    WithLcd.trafficCountNS g' =
      Z.min WithLcd.MAX_TRAFFIC_COUNT
            (WithLcd.trafficCountNS g + Z.of_nat (lcd_ns_presses (out r))) /\
    WithLcd.trafficCountEW g' =
      Z.min WithLcd.MAX_TRAFFIC_COUNT
            (WithLcd.trafficCountEW g + Z.of_nat (lcd_ew_presses (out r))) /\
    WithLcd.pedRequest g' =
      WithLcd.pedRequest g || (0 <? lcd_ped_presses (out r))%nat.
Proof.
  intros hw n w g r g' Hns Hew.
  destruct (withlcd_readButtons_counts hw) as (Rn & Re & Rl).
  pose proof (steps_repeatM _ (LcdCount_refl _ _) (LcdCount_trans _ _)
                n _ Rn w (within_cap_in_int _ Hns)) as Cn.
  pose proof (steps_repeatM _ (LcdCount_refl _ _) (LcdCount_trans _ _)
                n _ Re w (within_cap_in_int _ Hew)) as Ce.
  pose proof (steps_repeatM _ LcdLatch_refl LcdLatch_trans n _ Rl w) as Cl.
  fold r in Cn, Ce, Cl. fold g g' in Cn, Ce.
  split; [|split].
  - rewrite Cn. apply capped_within, Hns.
  - rewrite Ce. apply capped_within, Hew.
  - apply Cl.
Qed.

Lemma withlcd_press_counted_up_to_maximum_witness :
  let hw : nat -> Z -> bool :=
    fun k pin => negb ((pin =? WithLcd.PIN_BTN_NS_TRAFFIC) && Nat.even (k / 3))
  in
  let w := mkWorld (WithLcd.set_trafficCountNS 8 WithLcd.initial) 0 in
  let r := repeatM 8 (WithLcd.readButtons hw) w in
  within_cap (WithLcd.trafficCountNS (globals w)) /\
  within_cap (WithLcd.trafficCountEW (globals w)) /\
  lcd_ns_presses (out r) = 4%nat /\
  WithLcd.trafficCountNS (globals (post r)) = 10.
Proof.
  intros hw w r.
  assert (Hn : within_cap (WithLcd.trafficCountNS (globals w)))
    by (split; vm_compute; discriminate).
  assert (He : within_cap (WithLcd.trafficCountEW (globals w)))
    by (split; vm_compute; discriminate).
  assert (Hp : lcd_ns_presses (out r) = 4%nat) by (vm_compute; reflexivity).
  split; [exact Hn|]. split; [exact He|]. split; [exact Hp|].
  destruct (withlcd_press_counted_up_to_maximum hw 8 w Hn He) as (H & _).
  fold r in H. rewrite H, Hp. reflexivity.
Defined.

(** X9.  When a green phase of [main_withlcd.cpp] returns, the count of its
    own axis is zero, whatever was pressed meanwhile, and the count of the
    other axis is what it was plus that axis's press events of the phase,
    up to the maximum.  The yellow phases and the pedestrian phase reset
    nothing: both counts take their press events, up to the maximum. *)
Theorem withlcd_green_phase_resets_own_counter :
  forall (hw : nat -> Z -> bool) (w : World WithLcd.Globals),
    let after (m : WithLcd.Prog unit) (count : WithLcd.Globals -> Z) :=
      count (globals (post (m w))) in
    let taken (m : WithLcd.Prog unit) (count : WithLcd.Globals -> Z)
              (presses : list Event -> nat) :=
      after m count =
      Z.min WithLcd.MAX_TRAFFIC_COUNT
            (count (globals w) + Z.of_nat (presses (out (m w)))) in
    within_cap (WithLcd.trafficCountNS (globals w)) ->
    within_cap (WithLcd.trafficCountEW (globals w)) ->
    (after (WithLcd.phaseNsGreen hw) WithLcd.trafficCountNS = 0 /\
     taken (WithLcd.phaseNsGreen hw) WithLcd.trafficCountEW lcd_ew_presses) /\
    (after (WithLcd.phaseEwGreen hw) WithLcd.trafficCountEW = 0 /\
     taken (WithLcd.phaseEwGreen hw) WithLcd.trafficCountNS lcd_ns_presses) /\
    (taken (WithLcd.phaseNsYellow hw) WithLcd.trafficCountNS lcd_ns_presses /\
     taken (WithLcd.phaseNsYellow hw) WithLcd.trafficCountEW lcd_ew_presses) /\
    (taken (WithLcd.phaseEwYellow hw) WithLcd.trafficCountNS lcd_ns_presses /\
     taken (WithLcd.phaseEwYellow hw) WithLcd.trafficCountEW lcd_ew_presses) /\
    (taken (WithLcd.phasePedestrianIfRequested hw)
           WithLcd.trafficCountNS lcd_ns_presses /\
     taken (WithLcd.phasePedestrianIfRequested hw)
           WithLcd.trafficCountEW lcd_ew_presses).
Proof.
  intros hw w after taken Hns Hew. subst after taken. cbv beta.
  destruct (withlcd_phases_counts hw)
    as ([G1 G2] & [Y1 Y2] & [Y3 Y4] & [P1 P2]).
  destruct (withlcd_green_resets hw) as [Z1 Z2].
  pose proof (within_cap_in_int _ Hns) as Ins.
  pose proof (within_cap_in_int _ Hew) as Iew.
  repeat split;
    first
      [ apply Z1 | apply Z2
      | rewrite (G1 w Iew) | rewrite (G2 w Ins)
      | rewrite (Y1 w Ins) | rewrite (Y2 w Iew)
      | rewrite (Y3 w Ins) | rewrite (Y4 w Iew)
      | rewrite (P1 w Ins) | rewrite (P2 w Iew) ];
    apply capped_within; assumption.
Qed.

Lemma withlcd_green_phase_resets_own_counter_witness :
  let hw : nat -> Z -> bool :=
    fun k pin => negb ((pin =? WithLcd.PIN_BTN_EW_TRAFFIC) && Nat.even (k / 3))
  in
  let w := mkWorld (WithLcd.set_trafficCountNS 2 WithLcd.initial) 0 in
  let g := WithLcd.phaseNsGreen hw w in
  within_cap (WithLcd.trafficCountNS (globals w)) /\
  within_cap (WithLcd.trafficCountEW (globals w)) /\
  lcd_ew_presses (out g) = 5%nat /\
  WithLcd.trafficCountNS (globals (post g)) = 0 /\
  WithLcd.trafficCountEW (globals (post g)) = 5.
Proof.
  intros hw w g.
  assert (Hn : within_cap (WithLcd.trafficCountNS (globals w)))
    by (split; vm_compute; discriminate).
  assert (He : within_cap (WithLcd.trafficCountEW (globals w)))
    by (split; vm_compute; discriminate).
  assert (Hp : lcd_ew_presses (out g) = 5%nat) by (vm_compute; reflexivity).
  split; [exact Hn|]. split; [exact He|]. split; [exact Hp|].
  destruct (withlcd_green_phase_resets_own_counter hw w Hn He)
    as ((H1 & H2) & _).
  fold g in H1, H2. split; [exact H1|]. rewrite H2, Hp. reflexivity.
Defined.

Lemma withlcd_phases_within_cap (hw : nat -> Z -> bool) :
  let bounded (w : World WithLcd.Globals) :=
    within_cap (WithLcd.trafficCountNS (globals w)) /\
    within_cap (WithLcd.trafficCountEW (globals w)) in
  forall m,
    In m [WithLcd.phaseNsGreen hw; WithLcd.phaseNsYellow hw;
          WithLcd.phaseEwGreen hw; WithLcd.phaseEwYellow hw;
          WithLcd.phasePedestrianIfRequested hw] ->
    forall w, bounded w -> bounded (post (m w)).
Proof.
  intros bounded m Hin w [Hns Hew]. subst bounded. cbv beta.
  destruct (withlcd_phases_counts hw)
    as ([G1 G2] & [Y1 Y2] & [Y3 Y4] & [P1 P2]).
  destruct (withlcd_green_resets hw) as [Z1 Z2].
  pose proof (within_cap_in_int _ Hns) as Ins.
  pose proof (within_cap_in_int _ Hew) as Iew.
  assert (Hz : within_cap 0) by (split; vm_compute; discriminate).
  repeat (destruct Hin as [Hin|Hin]; [subst m|]); [..|destruct Hin].
  - rewrite (Z1 w), (G1 w Iew). split; [exact Hz|now apply capped_within].
  - rewrite (Y1 w Ins), (Y2 w Iew). split; now apply capped_within.
  - rewrite (Z2 w), (G2 w Ins). split; [now apply capped_within|exact Hz].
  - rewrite (Y3 w Ins), (Y4 w Iew). split; now apply capped_within.
  - rewrite (P1 w Ins), (P2 w Iew). split; now apply capped_within.
Qed.

(** X10.  In [main_withlcd.cpp] the two counts never leave the range from 0
    to [MAX_TRAFFIC_COUNT]: any number of passes of [loop] started with both
    counts in the range end with both in the range, whatever is pressed. *)
Theorem withlcd_counts_stay_within_maximum :
  forall (hw : nat -> Z -> bool) (n : nat) (w : World WithLcd.Globals),
    within_cap (WithLcd.trafficCountNS (globals w)) ->
    within_cap (WithLcd.trafficCountEW (globals w)) ->
    let w' := post (repeatM n (WithLcd.loop hw) w) in
    within_cap (WithLcd.trafficCountNS (globals w')) /\
    within_cap (WithLcd.trafficCountEW (globals w')).
Proof.
  intros hw n w Hns Hew w'. subst w'.
  set (bounded := fun (w w' : World WithLcd.Globals) (_ : list Event) =>
         within_cap (WithLcd.trafficCountNS (globals w)) /\
         within_cap (WithLcd.trafficCountEW (globals w)) ->
         within_cap (WithLcd.trafficCountNS (globals w')) /\
         within_cap (WithLcd.trafficCountEW (globals w'))).
  assert (Hrefl : forall w, bounded w w []) by (intros w0 H; exact H).
  assert (Htrans : forall w w1 w2 t1 t2,
             bounded w w1 t1 -> bounded w1 w2 t2 -> bounded w w2 (t1 ++ t2))
    by (intros w0 w1 w2 t1 t2 H1 H2 H; apply H2, H1, H).
  assert (Hphase : forall m,
             In m [WithLcd.phaseNsGreen hw; WithLcd.phaseNsYellow hw;
                   WithLcd.phaseEwGreen hw; WithLcd.phaseEwYellow hw;
                   WithLcd.phasePedestrianIfRequested hw] ->
             Steps bounded m)
    by (intros m Hin w0 H; exact (withlcd_phases_within_cap hw m Hin w0 H)).
  assert (Hloop : Steps bounded (WithLcd.loop hw))
    by (unfold WithLcd.loop;
        do 5 (apply (steps_bind _ Htrans);
              [apply Hphase; cbn [In]; tauto|intros _]);
        apply Hphase; cbn [In]; tauto).
  exact (steps_repeatM _ Hrefl Htrans n _ Hloop w (conj Hns Hew)).
Qed.

Lemma withlcd_counts_stay_within_maximum_witness :
  let hw : nat -> Z -> bool :=
    fun k pin => negb ((pin =? WithLcd.PIN_BTN_NS_TRAFFIC) && Nat.even (k / 3))
  in
  let w := post (WithLcd.setup (mkWorld WithLcd.initial 0)) in
  let w' := post (repeatM 2 (WithLcd.loop hw) w) in
  within_cap (WithLcd.trafficCountNS (globals w)) /\
  within_cap (WithLcd.trafficCountEW (globals w)) /\
  within_cap (WithLcd.trafficCountNS (globals w')) /\
  within_cap (WithLcd.trafficCountEW (globals w')).
Proof.
  intros hw w w'.
  assert (Hn : within_cap (WithLcd.trafficCountNS (globals w)))
    by (split; vm_compute; discriminate).
  assert (He : within_cap (WithLcd.trafficCountEW (globals w)))
    by (split; vm_compute; discriminate).
  split; [exact Hn|]. split; [exact He|].
  exact (withlcd_counts_stay_within_maximum hw 2 w Hn He).
Defined.

(** X11.  In [main_withlcd.cpp] the green time of either axis is 10 for a
    count up to 3, 20 for 4..7 and 30 from 8 on; it never decreases when
    the count grows; and computing it changes nothing and emits nothing. *)
Theorem withlcd_green_seconds_three_tiers :
  forall (w w' : World WithLcd.Globals),
    let ns := WithLcd.trafficCountNS (globals w) in
    let ew := WithLcd.trafficCountEW (globals w) in
    let ns' := WithLcd.trafficCountNS (globals w') in
    let ew' := WithLcd.trafficCountEW (globals w') in
    ((ns <= 3 -> val (WithLcd.computeNsGreenSeconds w) = 10) /\
     (4 <= ns <= 7 -> val (WithLcd.computeNsGreenSeconds w) = 20) /\
     (8 <= ns -> val (WithLcd.computeNsGreenSeconds w) = 30)) /\
    ((ew <= 3 -> val (WithLcd.computeEwGreenSeconds w) = 10) /\
     (4 <= ew <= 7 -> val (WithLcd.computeEwGreenSeconds w) = 20) /\
     (8 <= ew -> val (WithLcd.computeEwGreenSeconds w) = 30)) /\
    (ns <= ns' ->
     val (WithLcd.computeNsGreenSeconds w) <=
     val (WithLcd.computeNsGreenSeconds w')) /\
    (ew <= ew' ->
     val (WithLcd.computeEwGreenSeconds w) <=
     val (WithLcd.computeEwGreenSeconds w')) /\
    (post (WithLcd.computeNsGreenSeconds w) = w /\
     out (WithLcd.computeNsGreenSeconds w) = [] /\
     post (WithLcd.computeEwGreenSeconds w) = w /\
     out (WithLcd.computeEwGreenSeconds w) = []).
Proof.
  intros w w' ns ew ns' ew'.
  rewrite !withlcd_green_seconds, !withlcd_ew_green_seconds.
  cbn [val post out]. fold ns ew ns' ew'.
  split; [|split; [|split; [|split]]].
  - repeat split; intros H;
      destruct (Z.leb_spec ns 3), (Z.leb_spec ns 7); lia.
  - repeat split; intros H;
      destruct (Z.leb_spec ew 3), (Z.leb_spec ew 7); lia.
  - apply withlcd_green_table_monotone.
  - apply withlcd_green_table_monotone.
  - repeat split.
Qed.

Lemma withlcd_green_seconds_three_tiers_witness :
  let w := mkWorld (WithLcd.mkGlobals 5 2 false HIGH HIGH HIGH) 0 in
  let w' := mkWorld (WithLcd.mkGlobals 8 4 false HIGH HIGH HIGH) 0 in
  val (WithLcd.computeNsGreenSeconds w) = 20 /\
  val (WithLcd.computeEwGreenSeconds w) = 10 /\
  val (WithLcd.computeNsGreenSeconds w) <=
    val (WithLcd.computeNsGreenSeconds w') /\
  val (WithLcd.computeEwGreenSeconds w) <=
    val (WithLcd.computeEwGreenSeconds w').
Proof.
  intros w w'.
  destruct (withlcd_green_seconds_three_tiers w w')
    as ((_ & N & _) & (E & _) & Mn & Me & _).
  split; [apply N; cbn; lia|]. split; [apply E; cbn; lia|].
  split; [apply Mn; cbn; lia|apply Me; cbn; lia].
Defined.

Lemma ped_starts_app (a b : list Event) :
  ped_starts (a ++ b) = ped_starts a + ped_starts b.
Proof. unfold ped_starts. rewrite ped_runs_app. lia. Qed.

Lemma withlcd_readButtons_no_start (hw : nat -> Z -> bool) :
  Costs ped_starts 0 (WithLcd.readButtons hw).
Proof.
  intros w. unfold ped_starts.
  now rewrite (lcd_no_run _ _ _
                 (proj2 (proj2 (withlcd_readButtons_counts hw)) w)).
Qed.

Lemma withlcd_phasePedestrian_skipped
      (hw : nat -> Z -> bool) (w : World WithLcd.Globals) :
  WithLcd.pedRequest (globals w) = false ->
  WithLcd.phasePedestrianIfRequested hw w = mkRes tt w [].
Proof.
  intros H. unfold WithLcd.phasePedestrianIfRequested, bind, gets; cbn.
  now rewrite H.
Qed.

(** At an insertion point of [main_withlcd.cpp]. *)
Lemma withlcd_insertion_point
      (hw : nat -> Z -> bool) (w : World WithLcd.Globals) :
  let p := WithLcd.phasePedestrianIfRequested hw w in
  ped_runs (out p) = (if WithLcd.pedRequest (globals w) then 1 else 0)%nat /\
  WithLcd.pedRequest (globals (post p)) = false.
Proof.
  intros p. subst p. split; [|apply withlcd_pedestrian_clears_latch].
  destruct (WithLcd.pedRequest (globals w)) eqn:Hreq.
  - apply Nat2Z.inj. change (Z.of_nat (ped_runs ?t)) with (ped_starts t).
    unfold WithLcd.phasePedestrianIfRequested.
    rewrite (bind_run (gets WithLcd.pedRequest)).
    cbn [gets val post out app]. rewrite Hreq. cbn [negb].
    as_costs. eapply costs_eq;
      [ cost_steps (eq_refl : ped_starts [] = 0) ped_starts_app
                   withlcd_readButtons_no_start
      | change (Z.to_nat WithLcd.PED_TIME_SEC) with 8%nat; lia ].
  - now rewrite (withlcd_phasePedestrian_skipped hw w Hreq).
Qed.

(** X12.  In one pass of [loop] in [main_withlcd.cpp], the pedestrian phase
    runs at the first insertion point if and only if the latch was set on
    entry or the pedestrian button gave a press event during NS green or NS
    yellow, and at the second if and only if it gave one during EW green or
    EW yellow; the pass ends with the latch clear. *)
Theorem withlcd_pedestrian_request_served :
  forall (hw : nat -> Z -> bool) (w : World WithLcd.Globals),
    let g1 := WithLcd.phaseNsGreen hw w in
    let y1 := WithLcd.phaseNsYellow hw (post g1) in
    let p1 := WithLcd.phasePedestrianIfRequested hw (post y1) in
    let g2 := WithLcd.phaseEwGreen hw (post p1) in
    let y2 := WithLcd.phaseEwYellow hw (post g2) in
    let p2 := WithLcd.phasePedestrianIfRequested hw (post y2) in
    let first :=
      WithLcd.pedRequest (globals w) ||
      (0 <? lcd_ped_presses (out g1 ++ out y1))%nat in
    let second := (0 <? lcd_ped_presses (out g2 ++ out y2))%nat in
    ped_runs (out p1) = (if first then 1 else 0)%nat /\
    ped_runs (out p2) = (if second then 1 else 0)%nat /\
    ped_runs (out (WithLcd.loop hw w)) =
      ((if first then 1 else 0) + (if second then 1 else 0))%nat /\
    WithLcd.pedRequest (globals (post (WithLcd.loop hw w))) = false.
Proof.
  intros hw w g1 y1 p1 g2 y2 p2 first second.
  destruct (withlcd_vehicle_phases_latch hw) as (Tg1 & Ty1 & Tg2 & Ty2).
  pose proof (LcdLatch_trans _ _ _ _ _ (Tg1 w) (Ty1 (post g1))) as H1.
  pose proof (LcdLatch_trans _ _ _ _ _ (Tg2 (post p1)) (Ty2 (post g2))) as H2.
  fold g1 in H1. fold y1 in H1. fold g2 in H2. fold y2 in H2.
  destruct (withlcd_insertion_point hw (post y1)) as (R1 & L1).
  destruct (withlcd_insertion_point hw (post y2)) as (R2 & L2).
  fold p1 in R1, L1. fold p2 in R2, L2.
  rewrite (lcd_latch _ _ _ H1) in R1. fold first in R1.
  rewrite (lcd_latch _ _ _ H2), L1 in R2. cbn [orb] in R2. fold second in R2.
  assert (Hloop : WithLcd.loop hw w =
                  mkRes (val p2) (post p2)
                        (out g1 ++ out y1 ++ out p1 ++ out g2 ++ out y2 ++
                         out p2))
    by (unfold WithLcd.loop; rewrite !then_run; reflexivity).
  split; [exact R1|]. split; [exact R2|]. rewrite Hloop. cbn [out post].
  split; [|exact L2].
  pose proof (lcd_no_run _ _ _ H1) as N1.
  pose proof (lcd_no_run _ _ _ H2) as N2.
  rewrite ped_runs_app in N1, N2. rewrite !ped_runs_app, R1, R2. lia.
Qed.

Lemma withlcd_phases_cost (hw : nat -> Z -> bool) (w : World WithLcd.Globals) :
  (net400 (out (WithLcd.phaseNsGreen hw w)) =
     1000 * val (WithLcd.computeNsGreenSeconds w) /\
   polls (out (WithLcd.phaseNsGreen hw w)) =
     val (WithLcd.computeNsGreenSeconds w)) /\
  (net400 (out (WithLcd.phaseEwGreen hw w)) =
     1000 * val (WithLcd.computeEwGreenSeconds w) /\
   polls (out (WithLcd.phaseEwGreen hw w)) =
     val (WithLcd.computeEwGreenSeconds w)) /\
  (net400 (out (WithLcd.phaseNsYellow hw w)) = 3000 /\
   polls (out (WithLcd.phaseNsYellow hw w)) = 3) /\
  (net400 (out (WithLcd.phaseEwYellow hw w)) = 3000 /\
   polls (out (WithLcd.phaseEwYellow hw w)) = 3) /\
  (WithLcd.pedRequest (globals w) = true ->
   net400 (out (WithLcd.phasePedestrianIfRequested hw w)) = 8500 /\
   polls (out (WithLcd.phasePedestrianIfRequested hw w)) = 8).
Proof.
  split; [|split; [|split; [|split]]].
  - unfold WithLcd.phaseNsGreen.
    match goal with
    | |- context [bind WithLcd.computeNsGreenSeconds ?k] =>
        assert (Hn : forall secs,
                   Costs net400 (Z.of_nat (Z.to_nat secs) * 1000) (k secs))
          by (intros secs; cbv beta; net400_costs);
        assert (Hp : forall secs,
                   Costs polls (Z.of_nat (Z.to_nat secs)) (k secs))
          by (intros secs; cbv beta;
              polls_costs (fun hw => proj2 (withlcd_readButtons_costs hw)))
    end.
    rewrite !(bind_run WithLcd.computeNsGreenSeconds).
    rewrite !withlcd_green_seconds. cbn [out val post app].
    rewrite Hn, Hp.
    destruct (_ <=? 3); [|destruct (_ <=? 7)]; split; reflexivity.
  - unfold WithLcd.phaseEwGreen.
    match goal with
    | |- context [bind WithLcd.computeEwGreenSeconds ?k] =>
        assert (Hn : forall secs,
                   Costs net400 (Z.of_nat (Z.to_nat secs) * 1000) (k secs))
          by (intros secs; cbv beta; net400_costs);
        assert (Hp : forall secs,
                   Costs polls (Z.of_nat (Z.to_nat secs)) (k secs))
          by (intros secs; cbv beta;
              polls_costs (fun hw => proj2 (withlcd_readButtons_costs hw)))
    end.
    rewrite !(bind_run WithLcd.computeEwGreenSeconds).
    rewrite !withlcd_ew_green_seconds. cbn [out val post app].
    rewrite Hn, Hp.
    destruct (_ <=? 3); [|destruct (_ <=? 7)]; split; reflexivity.
  - unfold WithLcd.phaseNsYellow.
    change (Z.to_nat WithLcd.YELLOW_TIME_SEC) with 3%nat.
    split; as_costs;
      [net400_costs
      |polls_costs (fun hw => proj2 (withlcd_readButtons_costs hw))].
  - unfold WithLcd.phaseEwYellow.
    change (Z.to_nat WithLcd.YELLOW_TIME_SEC) with 3%nat.
    split; as_costs;
      [net400_costs
      |polls_costs (fun hw => proj2 (withlcd_readButtons_costs hw))].
  - intros Hreq. unfold WithLcd.phasePedestrianIfRequested.
    rewrite !(bind_run (gets WithLcd.pedRequest)).
    cbn [gets val post out app]. rewrite Hreq. cbn [negb].
    change (Z.to_nat WithLcd.PED_TIME_SEC) with 8%nat.
    split; as_costs;
      [net400_costs
      |polls_costs (fun hw => proj2 (withlcd_readButtons_costs hw))].
Qed.

(** X13.  In [main_withlcd.cpp] every phase lasts its whole seconds plus
    400 ms for each press event that arrives in it, and polls the buttons
    once a second: the green phases for the seconds computed on entry, the
    yellow phases for three, the pedestrian phase (when the latch is set)
    for eight and a closing half second; with the latch clear it takes no
    time at all. *)
Theorem withlcd_dwell_and_press_pauses :
  forall (hw : nat -> Z -> bool) (w : World WithLcd.Globals),
    let lasts (m : WithLcd.Prog unit) (secs extra : Z) :=
      elapsed (out (m w)) =
        1000 * secs + extra + 400 * lcd_press_events (out (m w)) /\
      polls (out (m w)) = secs in
    lasts (WithLcd.phaseNsGreen hw) (val (WithLcd.computeNsGreenSeconds w)) 0
    /\
    lasts (WithLcd.phaseNsYellow hw) WithLcd.YELLOW_TIME_SEC 0 /\
    lasts (WithLcd.phaseEwGreen hw) (val (WithLcd.computeEwGreenSeconds w)) 0
    /\
    lasts (WithLcd.phaseEwYellow hw) WithLcd.YELLOW_TIME_SEC 0 /\
    (if WithLcd.pedRequest (globals w)
     then lasts (WithLcd.phasePedestrianIfRequested hw)
                WithLcd.PED_TIME_SEC 500
     else out (WithLcd.phasePedestrianIfRequested hw w) = []).
Proof.
  intros hw w lasts. subst lasts. cbv beta.
  destruct (withlcd_phases_cost hw w)
    as ([G1 G2] & [G3 G4] & [Y1 Y2] & [Y3 Y4] & P).
  unfold net400 in *. unfold WithLcd.YELLOW_TIME_SEC, WithLcd.PED_TIME_SEC.
  repeat split; try lia.
  destruct (WithLcd.pedRequest (globals w)) eqn:Hreq.
  - destruct (P eq_refl) as [P1 P2]. split; lia.
  - now rewrite (withlcd_phasePedestrian_skipped hw w Hreq).
Qed.

(** ** What a count holds when its green phase starts *)

Lemma traffic_presses_app (a b : list Event) :
  ns_presses (a ++ b) = (ns_presses a + ns_presses b)%nat /\
  ew_presses (a ++ b) = (ew_presses a + ew_presses b)%nat.
Proof.
  unfold ns_presses, ew_presses, ns_counted, ns_ignored, ew_counted,
    ew_ignored.
  rewrite !count_events_app. lia.
Qed.

(** The counts after each phase of [main.cpp], from those before it. *)
Lemma main_phase_counts (hw : nat -> Z -> bool) (w : World Main.Globals) :
  let NS (r : Res Main.Globals unit) :=
    Main.trafficCountNS (globals (post r)) in
  let EW (r : Res Main.Globals unit) :=
    Main.trafficCountEW (globals (post r)) in
  let ns0 := Main.trafficCountNS (globals w) in
  let ew0 := Main.trafficCountEW (globals w) in
  (let r := Main.phaseNsGreen hw w in
   NS r = 0 /\ EW r = Nat.iter (ew_presses (out r)) int_incr ew0) /\
  (let r := Main.phaseNsYellow hw w in
   NS r = ns0 /\ EW r = Nat.iter (ew_presses (out r)) int_incr ew0) /\
  (let r := Main.phaseEwGreen hw w in
   NS r = Nat.iter (ns_presses (out r)) int_incr ns0 /\ EW r = 0) /\
  (let r := Main.phaseEwYellow hw w in
   NS r = Nat.iter (ns_presses (out r)) int_incr ns0 /\ EW r = ew0) /\
  (let r := Main.phasePedestrianIfRequested hw w in
   NS r = Nat.iter (ns_presses (out r)) int_incr ns0 /\
   EW r = Nat.iter (ew_presses (out r)) int_incr ew0).
Proof.
  intros NS EW ns0 ew0. subst NS EW ns0 ew0. cbv zeta beta.
  split; [|split; [|split; [|split]]].
  - destruct (phaseNsGreen_run hw w) as (dwell & [HP _] & Heq).
    rewrite Heq. cbn [post out].
    specialize (HP (with_phase Main.PHASE_NS_GREEN w)).
    pose proof (Polled_trans _ _ _ _ _
                  (Polled_lamps _ (Main.PIN_NS_RED, Main.PIN_NS_GREEN)) HP)
      as HQ.
    apply Polled_with_phase in HQ.
    destruct HQ as (_ & _ & _ & _ & _ & _ & Hec & _ & Hce).
    rewrite <- Hec. split; [reflexivity|exact Hce].
  - destruct (phaseNsYellow_run hw w) as (dwell & [HP _] & Heq).
    rewrite Heq. specialize (HP (with_phase Main.PHASE_NS_YELLOW w)).
    apply Polled_with_phase in HP.
    destruct HP as (_ & _ & _ & _ & _ & Hnc & Hec & Hcn & Hce).
    rewrite Hnc in Hcn. rewrite <- Hec. split; [exact Hcn|exact Hce].
  - destruct (phaseEwGreen_run hw w) as (dwell & [HP _] & Heq).
    rewrite Heq. cbn [post out].
    specialize (HP (with_phase Main.PHASE_EW_GREEN w)).
    pose proof (Polled_trans _ _ _ _ _
                  (Polled_lamps _ (Main.PIN_EW_RED, Main.PIN_EW_GREEN)) HP)
      as HQ.
    apply Polled_with_phase in HQ.
    destruct HQ as (_ & _ & _ & _ & _ & Hnc & _ & Hcn & _).
    rewrite <- Hnc. split; [exact Hcn|reflexivity].
  - destruct (phaseEwYellow_run hw w) as (dwell & [HP _] & Heq).
    rewrite Heq. specialize (HP (with_phase Main.PHASE_EW_YELLOW w)).
    apply Polled_with_phase in HP.
    destruct HP as (_ & _ & _ & _ & _ & Hnc & Hec & Hcn & Hce).
    rewrite Hec in Hce. rewrite <- Hnc. split; [exact Hcn|exact Hce].
  - destruct (Main.pedRequest (globals w)) eqn:Hreq.
    + destruct (phasePedestrian_served hw w Hreq)
        as (_ & _ & _ & _ & _ & _ & Hcn & Hce & _).
      split; [exact Hcn|exact Hce].
    + rewrite (phasePedestrian_skipped hw w Hreq). split; reflexivity.
Qed.

(** X14.  One pass of [loop] in [main.cpp], whatever is pressed.  When EW
    green starts, the EW count is the one on entry with one [++] for every
    EW press event of NS green, NS yellow and the first insertion point.
    When the pass ends, the NS count is one [++] from zero for every NS
    press event since NS green ended that did not fall in NS yellow, and
    the EW count is one [++] from zero for every EW press event of the
    second insertion point: the count on entry plays no part in either. *)
Theorem counts_carried_through_a_pass :
  forall (hw : nat -> Z -> bool) (w : World Main.Globals),
    let g1 := Main.phaseNsGreen hw w in
    let y1 := Main.phaseNsYellow hw (post g1) in
    let p1 := Main.phasePedestrianIfRequested hw (post y1) in
    let g2 := Main.phaseEwGreen hw (post p1) in
    let y2 := Main.phaseEwYellow hw (post g2) in
    let p2 := Main.phasePedestrianIfRequested hw (post y2) in
    let done := post (Main.loop hw w) in
    Main.trafficCountEW (globals (post p1)) =
      Nat.iter (ew_presses (out g1 ++ out y1 ++ out p1)) int_incr
               (Main.trafficCountEW (globals w)) /\
    Main.trafficCountNS (globals (post y1)) = 0 /\
    Main.trafficCountNS (globals done) =
      Nat.iter (ns_presses (out p1 ++ out g2 ++ out y2 ++ out p2)) int_incr 0
    /\
    Main.trafficCountEW (globals done) =
      Nat.iter (ew_presses (out p2)) int_incr 0.
Proof.
  intros hw w g1 y1 p1 g2 y2 p2 done.
  assert (Hdone : done = post p2)
    by (subst done; unfold Main.loop; rewrite !then_run; reflexivity).
  destruct (main_phase_counts hw w) as ((A1 & A2) & _).
  destruct (main_phase_counts hw (post g1)) as (_ & (B1 & B2) & _).
  destruct (main_phase_counts hw (post y1)) as (_ & _ & _ & _ & (C1 & C2)).
  destruct (main_phase_counts hw (post p1)) as (_ & _ & (D1 & D2) & _).
  destruct (main_phase_counts hw (post g2)) as (_ & _ & _ & (E1 & E2) & _).
  destruct (main_phase_counts hw (post y2)) as (_ & _ & _ & _ & (F1 & F2)).
  cbv zeta in *.
  fold g1 in A1, A2. fold y1 in B1, B2. fold p1 in C1, C2.
  fold g2 in D1, D2. fold y2 in E1, E2. fold p2 in F1, F2.
  rewrite Hdone.
  split; [|split; [|split]].
  - rewrite C2, B2, A2, <- !Nat.iter_add.
    f_equal. rewrite !(proj2 (traffic_presses_app _ _)). lia.
  - now rewrite B1.
  - rewrite F1, E1, D1, C1, B1, A1, <- !Nat.iter_add.
    f_equal. rewrite !(proj1 (traffic_presses_app _ _)). lia.
  - now rewrite F2, E2, D2.
Qed.

(** ** The pins are used as [setup] configures them *)

Lemma well_configured_app (m : Modes) (a b : list Event) :
  well_configured m (a ++ b) =
  well_configured m a && well_configured (modes_after m a) b.
Proof.
  revert m. induction a as [|e a IH]; intros m; [reflexivity|].
  cbn [app well_configured]. rewrite IH, andb_assoc. reflexivity.
Qed.

Lemma forallb_existsb_at {A} (f : A -> bool) (eqb : A -> A -> bool)
      (l : list A) (x : A) :
  (forall y, eqb x y = true -> x = y) ->
  forallb f l = true -> existsb (eqb x) l = true -> f x = true.
Proof.
  intros Heq Hall Hex. apply existsb_exists in Hex.
  destruct Hex as (y & Hin & Hxy). apply Heq in Hxy. subst y.
  exact (proj1 (forallb_forall f l) Hall x Hin).
Qed.

Lemma plain_well_configured (m : Modes) (tr : list Event) :
  configured m -> forallb plain tr = true -> well_configured m tr = true.
Proof.
  intros [Hout Hin]. induction tr as [|e tr IH]; [reflexivity|].
  cbn [forallb well_configured]. intros H.
  apply andb_true_iff in H. destruct H as [He Htr].
  assert (Hm : set_mode e m = m) by (destruct e; try reflexivity; discriminate).
  rewrite Hm, (IH Htr), andb_true_r.
  destruct e; try reflexivity; cbn [plain pin_use_ok] in *.
  - apply (forallb_existsb_at (fun p => is_output (m p)) Z.eqb lamp_pins);
      [intros y; apply Z.eqb_eq|assumption|assumption].
  - apply (forallb_existsb_at (fun p => is_input (m p)) Z.eqb button_pins);
      [intros y; apply Z.eqb_eq|assumption|assumption].
Qed.

Section OnlyRules.
Context {G : Type} (ok : Event -> bool).

Lemma Only_refl (w : World G) : Only ok w w [].
Proof. reflexivity. Qed.

Lemma Only_trans (w w1 w2 : World G) (t1 t2 : list Event) :
  Only ok w w1 t1 -> Only ok w1 w2 t2 -> Only ok w w2 (t1 ++ t2).
Proof.
  unfold Only. intros H1 H2. now rewrite forallb_app, H1, H2.
Qed.

Lemma Only_emit (e : Event) : ok e = true -> Steps (Only ok) (emit e : M G unit).
Proof. intros H w. unfold Only, emit; cbn. now rewrite H. Qed.

Lemma Only_modify (f : G -> G) : Steps (Only ok) (modify f).
Proof. intros w. reflexivity. Qed.
End OnlyRules.

Lemma readButtons_plain (hw : nat -> Z -> bool) :
  Steps (Only plain) (Main.readButtons hw).
Proof.
  intros w. unfold Only. rewrite readButtons_run. cbv zeta. cbn [out].
  destruct (negb _ && Main.lastNsBtnState _), (val (Main.isNsRed w)),
    (negb _ && Main.lastEwBtnState _), (val (Main.isEwRed w)),
    (negb _ && Main.lastPedBtnState _); reflexivity.
Qed.

Lemma withlcd_readButtons_plain (hw : nat -> Z -> bool) :
  Steps (Only plain) (WithLcd.readButtons hw).
Proof.
  intros w. unfold Only. rewrite withlcd_readButtons_run. cbv zeta. cbn [out].
  destruct (negb _ && WithLcd.lastNsBtnState _),
    (negb _ && WithLcd.lastEwBtnState _),
    (negb _ && WithLcd.lastPedBtnState _); reflexivity.
Qed.

Ltac main_plain :=
  steps_with (@Only_refl Main.Globals plain) (@Only_trans Main.Globals plain)
             readButtons_plain (@Only_emit Main.Globals plain)
             ltac:(idtac;
                   lazymatch goal with
                   | |- Steps _ (modify _) => apply Only_modify
                   | |- Steps _ (if ?b then _ else _) => destruct b
                   | |- Steps _ Main.computeNsGreenSeconds =>
                       unfold Main.computeNsGreenSeconds
                   | |- Steps _ Main.computeEwGreenSeconds =>
                       unfold Main.computeEwGreenSeconds
                   | |- Steps _ Main.setPedestrianGreenState =>
                       unfold Main.setPedestrianGreenState
                   end).

Ltac withlcd_plain :=
  lcd_steps (@Only_refl WithLcd.Globals plain)
            (@Only_trans WithLcd.Globals plain)
            withlcd_readButtons_plain (@Only_emit WithLcd.Globals plain)
            (@Only_modify WithLcd.Globals plain).

Lemma loops_plain (hw : nat -> Z -> bool) :
  Steps (Only plain) (Main.loop hw) /\ Steps (Only plain) (WithLcd.loop hw).
Proof.
  split.
  - unfold Main.loop, Main.phaseNsGreen, Main.phaseNsYellow,
      Main.phaseEwGreen, Main.phaseEwYellow, Main.phasePedestrianIfRequested.
    main_plain.
  - unfold WithLcd.loop, WithLcd.phaseNsGreen, WithLcd.phaseNsYellow,
      WithLcd.phaseEwGreen, WithLcd.phaseEwYellow,
      WithLcd.phasePedestrianIfRequested.
    withlcd_plain.
Qed.

Lemma setups_configure (w : World Main.Globals) (v : World WithLcd.Globals) :
  (well_configured unset (out (Main.setup w)) = true /\
   configured (modes_after unset (out (Main.setup w)))) /\
  (well_configured unset (out (WithLcd.setup v)) = true /\
   configured (modes_after unset (out (WithLcd.setup v)))).
Proof. repeat split; reflexivity. Qed.

(** X15.  In both sketches, from power-up through any number of passes of
    [loop] and whatever is pressed: every [digitalWrite] goes to a pin that
    [setup] has made an output before, and every [digitalRead] to a pin that
    it has made an input with pull-up.  [loop] itself only writes the eight
    lamps, reads the three buttons, drives the display and pauses: it never
    changes a pin mode and never initialises the display again. *)
Theorem pins_used_as_configured :
  forall (hw : nat -> Z -> bool) (n : nat)
         (w : World Main.Globals) (v : World WithLcd.Globals),
    (well_configured unset
       (out ((Main.setup ;; repeatM n (Main.loop hw)) w)) = true /\
     forallb plain (out (repeatM n (Main.loop hw) w)) = true) /\
    (well_configured unset
       (out ((WithLcd.setup ;; repeatM n (WithLcd.loop hw)) v)) = true /\
     forallb plain (out (repeatM n (WithLcd.loop hw) v)) = true).
Proof.
  intros hw n w v.
  destruct (loops_plain hw) as [LM LW].
  pose proof (steps_repeatM _ (Only_refl plain) (Only_trans plain) n _ LM)
    as RM.
  pose proof (steps_repeatM _ (Only_refl plain) (Only_trans plain) n _ LW)
    as RW.
  destruct (setups_configure w v) as ([SM CM] & [SW CW]).
  split; (split; [|first [apply RM|apply RW]]);
    rewrite then_run; cbn [out]; rewrite well_configured_app.
  - rewrite SM. apply (plain_well_configured _ _ CM), RM.
  - rewrite SW. apply (plain_well_configured _ _ CW), RW.
Qed.

(** ** The countdown on the display *)

Lemma ints_after_app (cap : string) (a b : list Event) :
  forall armed,
    ints_after cap armed (a ++ b) =
    ints_after cap armed a ++ ints_after cap (armed_end cap armed a) b.
Proof.
  induction a as [|e a IH]; intros armed; [reflexivity|].
  cbn [app ints_after armed_end fold_left].
  rewrite IH, app_assoc. reflexivity.
Qed.

Lemma armed_end_app (cap : string) (a b : list Event) (armed : bool) :
  armed_end cap armed (a ++ b) = armed_end cap (armed_end cap armed a) b.
Proof. unfold armed_end. apply fold_left_app. Qed.

Lemma silent_shows_nothing (cap : string) (tr : list Event) :
  forallb (silent cap) tr = true ->
  ints_after cap false tr = [] /\ armed_end cap false tr = false.
Proof.
  induction tr as [|e tr IH]; [now split|].
  cbn [forallb]. intros H. apply andb_true_iff in H. destruct H as [He Htr].
  unfold silent in He. apply negb_true_iff in He.
  cbn [ints_after armed_end fold_left]. rewrite He.
  destruct (IH Htr) as [I1 I2]. fold (armed_end cap false tr).
  rewrite I1, I2. now destruct e.
Qed.

Lemma count_down_spec (n : nat) :
  count_down n = map (fun i => Z.of_nat n - Z.of_nat i) (seq 0 n).
Proof.
  induction n as [|n IH]; [reflexivity|].
  cbn [count_down seq map]. rewrite <- seq_shift, map_map, IH.
  replace (Z.of_nat (S n) - Z.of_nat 0) with (Z.of_nat (S n)) by lia.
  apply f_equal, map_ext. intros i. lia.
Qed.

Section ShowsRules.
Context {G : Type} (cap : string).

Lemma shows_eq {A} (l l' : list Z) (m : M G A) :
  Shows cap l m -> l = l' -> Shows cap l' m.
Proof. now intros H <-. Qed.

Lemma shows_silent {A} (m : M G A) :
  Steps (Only (silent cap)) m -> Shows cap [] m.
Proof. intros H w. apply silent_shows_nothing, H. Qed.

Lemma shows_bind {A B} (m : M G A) (f : A -> M G B) (l1 l2 : list Z) :
  Shows cap l1 m -> (forall x, Shows cap l2 (f x)) ->
  Shows cap (l1 ++ l2) (bind m f).
Proof.
  intros Hm Hf w. rewrite bind_run. cbn [out].
  destruct (Hm w) as [M1 M2].
  destruct (Hf (val (m w)) (post (m w))) as [F1 F2].
  now rewrite ints_after_app, armed_end_app, M1, M2, F1, F2.
Qed.

(** The caption, the integer after it, and what follows. *)
Lemma shows_caption {B} (n : Z) (k : M G B) (l : list Z) :
  Shows cap l k ->
  Shows cap (n :: l) (lcdPrint cap ;; lcdPrintInt n ;; k).
Proof.
  intros Hk w. rewrite !then_run. cbn [out lcdPrint lcdPrintInt emit post].
  destruct (Hk w) as [K1 K2].
  cbn [app ints_after armed_end fold_left is_print].
  rewrite String.eqb_refl. cbn [app]. fold (armed_end cap false (out (k w))).
  now rewrite K1, K2.
Qed.

Lemma shows_countdown (n : nat) (body : Z -> M G unit) :
  (forall r, Shows cap [r] (body r)) ->
  Shows cap (count_down n) (countdown n body).
Proof.
  intros Hb. induction n as [|n IH]; [intros w; now split|].
  change (countdown (S n) body)
    with (bind (body (Z.of_nat (S n))) (fun _ => countdown n body)).
  exact (shows_bind _ _ [_] _ (Hb _) (fun _ => IH)).
Qed.

Lemma shows_repeatM (n : nat) (body : M G unit) :
  Shows cap [] body -> Shows cap [] (repeatM n body).
Proof.
  intros Hb. induction n as [|n IH]; [intros w; now split|].
  change (repeatM (S n) body) with (bind body (fun _ => repeatM n body)).
  exact (shows_bind _ _ [] [] Hb (fun _ => IH)).
Qed.
End ShowsRules.

Lemma readButtons_silent (hw : nat -> Z -> bool) (cap : string) :
  In cap ["T="; "NS Yellow T="; "EW Yellow T="] ->
  Steps (Only (silent cap)) (Main.readButtons hw) /\
  Steps (Only (silent cap)) (WithLcd.readButtons hw).
Proof.
  intros Hin.
  repeat (destruct Hin as [Hin|Hin]; [subst cap|]); [..|destruct Hin];
    (split; intros w; unfold Only;
     [ rewrite readButtons_run; cbv zeta; cbn [out];
       destruct (negb _ && Main.lastNsBtnState _), (val (Main.isNsRed w)),
         (negb _ && Main.lastEwBtnState _), (val (Main.isEwRed w)),
         (negb _ && Main.lastPedBtnState _); reflexivity
     | rewrite withlcd_readButtons_run; cbv zeta; cbn [out];
       destruct (negb _ && WithLcd.lastNsBtnState _),
         (negb _ && WithLcd.lastEwBtnState _),
         (negb _ && WithLcd.lastPedBtnState _); reflexivity ]).
Qed.

(** What prints nothing after the caption [cap], in either sketch; [H]
    proves that the caption is one of the three. *)
Ltac silent_steps cap H :=
  steps_with (@Only_refl Main.Globals (silent cap))
             (@Only_trans Main.Globals (silent cap))
             (fun hw => proj1 (readButtons_silent hw cap H))
             (@Only_emit Main.Globals (silent cap))
             ltac:(idtac;
                   lazymatch goal with
                   | |- Steps _ (modify _) => apply Only_modify
                   | |- Steps _ Main.setPedestrianGreenState =>
                       unfold Main.setPedestrianGreenState
                   end);
  lcd_steps (@Only_refl WithLcd.Globals (silent cap))
            (@Only_trans WithLcd.Globals (silent cap))
            (fun hw => proj2 (readButtons_silent hw cap H))
            (@Only_emit WithLcd.Globals (silent cap))
            (@Only_modify WithLcd.Globals (silent cap)).

(** One rule per shape of program, for what is printed after a caption. *)
Ltac shows_steps H :=
  repeat
    lazymatch goal with
    | |- Shows ?c _ (bind (lcdPrint ?c) _) => eapply shows_caption
    | |- Shows _ _ (bind _ _) => eapply shows_bind; [|intros ?]
    | |- Shows _ _ (countdown _ _) =>
        eapply shows_countdown; intros ?; cbv beta; eapply shows_eq
    | |- Shows ?c _ _ => apply shows_silent; silent_steps c H
    end.

Ltac shows H :=
  eapply shows_eq; [shows_steps H|]; cbn [app]; rewrite ?app_nil_r;
  reflexivity.

Lemma in_captions :
  In "T=" ["T="; "NS Yellow T="; "EW Yellow T="] /\
  In "NS Yellow T=" ["T="; "NS Yellow T="; "EW Yellow T="] /\
  In "EW Yellow T=" ["T="; "NS Yellow T="; "EW Yellow T="].
Proof. cbn [In]. tauto. Qed.

Lemma main_phases_show (hw : nat -> Z -> bool) (w : World Main.Globals) :
  shown_after "T=" (out (Main.phaseNsGreen hw w)) =
    count_down (Z.to_nat (val (Main.computeNsGreenSeconds w))) /\
  shown_after "T=" (out (Main.phaseEwGreen hw w)) =
    count_down (Z.to_nat (val (Main.computeEwGreenSeconds w))) /\
  shown_after "NS Yellow T=" (out (Main.phaseNsYellow hw w)) =
    count_down (Z.to_nat Main.YELLOW_TIME_SEC) /\
  shown_after "EW Yellow T=" (out (Main.phaseEwYellow hw w)) =
    count_down (Z.to_nat Main.YELLOW_TIME_SEC) /\
  (Main.pedRequest (globals w) = true ->
   shown_after "T=" (out (Main.phasePedestrianIfRequested hw w)) =
     count_down (Z.to_nat Main.PED_TIME_SEC)).
Proof.
  destruct in_captions as (HT & HN & HE). unfold shown_after.
  split; [|split; [|split; [|split]]].
  - unfold Main.phaseNsGreen.
    match goal with
    | |- context [bind (modify ?f)
                       (fun _ => bind Main.computeNsGreenSeconds ?k)] =>
        assert (Hk : forall secs,
                   Shows "T=" (count_down (Z.to_nat secs)) (k secs))
          by (intros secs; cbv beta zeta; shows HT)
    end.
    rewrite !(bind_run (modify _)), !(bind_run Main.computeNsGreenSeconds).
    cbn [out val post modify app].
    rewrite !computeNsGreenSeconds_run.
    cbn [out val post app globals Main.trafficCountNS Main.set_currentPhase].
    apply Hk.
  - unfold Main.phaseEwGreen.
    match goal with
    | |- context [bind (modify ?f)
                       (fun _ => bind Main.computeEwGreenSeconds ?k)] =>
        assert (Hk : forall secs,
                   Shows "T=" (count_down (Z.to_nat secs)) (k secs))
          by (intros secs; cbv beta zeta; shows HT)
    end.
    rewrite !(bind_run (modify _)), !(bind_run Main.computeEwGreenSeconds).
    cbn [out val post modify app].
    rewrite !computeEwGreenSeconds_run.
    cbn [out val post app globals Main.trafficCountEW Main.set_currentPhase].
    apply Hk.
  - assert (H : Shows "NS Yellow T=" (count_down (Z.to_nat Main.YELLOW_TIME_SEC))
                      (Main.phaseNsYellow hw))
      by (unfold Main.phaseNsYellow; shows HN).
    apply H.
  - assert (H : Shows "EW Yellow T=" (count_down (Z.to_nat Main.YELLOW_TIME_SEC))
                      (Main.phaseEwYellow hw))
      by (unfold Main.phaseEwYellow; shows HE).
    apply H.
  - intros Hreq. unfold Main.phasePedestrianIfRequested.
    rewrite (bind_run (gets Main.pedRequest)).
    cbn [gets val post out app]. rewrite Hreq. cbn [negb].
    match goal with
    | |- ints_after ?c false (out (?m ?v)) = ?l =>
        assert (H : Shows c l m) by shows HT; apply H
    end.
Qed.

Lemma withlcd_phases_show (hw : nat -> Z -> bool) (v : World WithLcd.Globals) :
  shown_after "T=" (out (WithLcd.phaseNsGreen hw v)) =
    [val (WithLcd.computeNsGreenSeconds v)] /\
  shown_after "T=" (out (WithLcd.phaseEwGreen hw v)) =
    [val (WithLcd.computeEwGreenSeconds v)].
Proof.
  destruct in_captions as (HT & _). unfold shown_after. split.
  - unfold WithLcd.phaseNsGreen.
    match goal with
    | |- context [bind WithLcd.computeNsGreenSeconds ?k] =>
        assert (Hk : forall secs, Shows "T=" [secs] (k secs))
          by (intros secs; cbv beta; shows HT)
    end.
    rewrite !(bind_run WithLcd.computeNsGreenSeconds).
    rewrite !withlcd_green_seconds. cbn [out val post app]. apply Hk.
  - unfold WithLcd.phaseEwGreen.
    match goal with
    | |- context [bind WithLcd.computeEwGreenSeconds ?k] =>
        assert (Hk : forall secs, Shows "T=" [secs] (k secs))
          by (intros secs; cbv beta; shows HT)
    end.
    rewrite !(bind_run WithLcd.computeEwGreenSeconds).
    rewrite !withlcd_ew_green_seconds. cbn [out val post app]. apply Hk.
Qed.

(** X16.  What the display shows after the caption of the remaining time.
    In [main.cpp] each phase counts down: a green phase shows the seconds
    computed on entry, then one less every second, down to 1 and never 0;
    a yellow phase shows 3, 2, 1; the pedestrian phase, when it runs, shows
    8, 7, ..., 1.  In [main_withlcd.cpp] a green phase shows its seconds
    once and does not count down. *)
Theorem display_counts_down_to_one :
  forall (hw : nat -> Z -> bool)
         (w : World Main.Globals) (v : World WithLcd.Globals),
    let from (secs : Z) :=
      map (fun i => secs - Z.of_nat i) (seq 0 (Z.to_nat secs)) in
    (shown_after "T=" (out (Main.phaseNsGreen hw w)) =
       from (val (Main.computeNsGreenSeconds w)) /\
     shown_after "T=" (out (Main.phaseEwGreen hw w)) =
       from (val (Main.computeEwGreenSeconds w)) /\
     shown_after "NS Yellow T=" (out (Main.phaseNsYellow hw w)) =
       from Main.YELLOW_TIME_SEC /\
     shown_after "EW Yellow T=" (out (Main.phaseEwYellow hw w)) =
       from Main.YELLOW_TIME_SEC /\
     shown_after "T=" (out (Main.phasePedestrianIfRequested hw w)) =
       (if Main.pedRequest (globals w) then from Main.PED_TIME_SEC else []))
    /\
    (shown_after "T=" (out (WithLcd.phaseNsGreen hw v)) =
       [val (WithLcd.computeNsGreenSeconds v)] /\
     shown_after "T=" (out (WithLcd.phaseEwGreen hw v)) =
       [val (WithLcd.computeEwGreenSeconds v)]).
Proof.
  intros hw w v from.
  assert (Hfrom : forall secs, 0 <= secs ->
                               count_down (Z.to_nat secs) = from secs)
    by (intros secs Hs; subst from; cbv beta;
        rewrite count_down_spec, Z2Nat.id by exact Hs; reflexivity).
  destruct (green_seconds_positive w) as [Pn Pe].
  destruct (main_phases_show hw w) as (G1 & G2 & Y1 & Y2 & P).
  split; [|apply withlcd_phases_show].
  rewrite G1, G2, Y1, Y2, !Hfrom by (try lia; discriminate).
  repeat split.
  destruct (Main.pedRequest (globals w)) eqn:Hreq.
  - rewrite (P eq_refl). apply Hfrom. discriminate.
  - now rewrite (phasePedestrian_skipped hw w Hreq).
Qed.
